(* ===== verification/_CoqProject ===== *)
-Q . S2P
Prelude.v
Double.v
JsNum.v
Fnv.v
Prng.v
Json.v
Telemetry.v
WorkerPool.v
TelemetryRun.v
JsFloat.v
SensorRisk.v
AlgoRun.v
Report.v
