(* ===== verification/Prelude.v ===== *)
(** * A verification development for benchmark-nodejs-java-process-mqtt-payloads

    The repository holds two Node.js benchmarks that split fixed work over
    worker threads and reduce the partial results:
    - [src/bench_node.js], the telemetry pipeline: [genPayloads] builds
      synthetic records and serialises them with [JSON.stringify];
      [processBatch] parses, validates, enriches and aggregates them per
      device, folding a 32-bit FNV-1a hash ([fnv1a32]) of every raw payload
      into a per-device checksum; [runSingle] and the worker body loop over
      batches of 10000; [runWorkers] fans the records out and merges the
      checksums with [>>> 0];
    - [src/bench_algo_node.js], the risk simulation: [generateSensorData]
      derives four readings per sensor from its index; [calculateSensorRisk]
      runs a Monte Carlo loop driven by [class PRNG]; [processBatch] averages
      the scores and folds the checksums with [% 1000000000]; [runSingle],
      the worker body and [runWorkers] as above.

    Files, in dependency order (each opens with its own summary):
    - [Prelude]: exceptions and the result monad ([x <- c ;; k]), sums,
      modular folds, counting, string lemmas, the [bench] hint databases
      and tactics;
    - [Double]: the IEEE-754 division of [Math.floor(total / workers)],
      as the rounding [fl] of a rational to the nearest double (53-bit
      significand, ties to even) and its correct-rounding bound;
    - [JsNum]: [>>> 0], [ToInt32], [^], [Math.imul], [charCodeAt], [%] and
      decimal printing on [Z];
    - [Fnv]: [fnv1a32] (lines 15-22), with its signed-int32 data flow;
    - [Prng]: [class PRNG] of the risk benchmark (lines 16-25);
    - [Json]: [JSON.stringify] and [JSON.parse] on the fragment of values
      the telemetry benchmark builds (a recursive-descent parser on fuel);
    - [Telemetry]: [genPayloads] and [processBatch] of [bench_node.js]
      (lines 24-68), the per-device [Map] as a stdpp [gmap] with its
      invariant ([batch_inv], a [map_Forall]), and the [typeof] tests of
      the validation as a record type ([telemetry_schema], [conforms],
      decidable);
    - [WorkerPool]: the fan-out shared by both [runWorkers]: the worker
      count [+process.env.WORKERS || 1] (a rational or an infinity), the
      [for] loop over it with its double counter ([w++] stops at [2^53]),
      [Math.floor(total / workers)] on the double quotient, and the class
      [ShardReport]/[HonestShard] of what a worker promises the
      coordinator;
    - [TelemetryRun]: [runSingle], the worker body and [runWorkers] of
      [bench_node.js] (lines 70-121), the batch loop on fuel and as a step
      relation ([loop_reach], the states reachable from the start);
    - [JsFloat]: JavaScript numbers ([NaN], infinities, reals) and the
      [Math] functions the risk kernel calls;
    - [SensorRisk] (Module [Risk]): [generateSensorData],
      [calculateSensorRisk] and [processBatch] of [bench_algo_node.js]
      (lines 28-113);
    - [AlgoRun] (Module [RiskRun]): its [runSingle], worker body and
      [runWorkers] (lines 115-191);
    - [Report]: the summary line each benchmark prints
      ([console.log(JSON.stringify({...}))], with [ms], the rates and
      [JSON.stringify]'s [null] for non-finite numbers) and the exit
      status of the [.catch] of each main thread; the two
      [performance.now()] readings of a run are inputs.

    What the theorems show:
    - the telemetry kernel refines a specification without the per-device
      map ([Telemetry.processBatch_spec]); the JavaScript [fnv1a32] is the
      unsigned FNV-1a of the specification; every generated batch is
      accepted (the parser reads back every printed payload), with its device,
      alarm and checksum values in closed form; a mistyped field aborts the
      batch; the validation accepts exactly the objects of the record type,
      and every generated payload has it; the loop keeps the per-device
      invariant (every entry counts a record, at most one alarm per record,
      a 32-bit checksum, counts and alarms adding up); the map itself is
      the group-by of the batch by device (each entry's count, alarms and
      32-bit hash sum in closed form); a payload that parses to [null]
      throws a [TypeError];
    - the telemetry runs terminate and print the [>>> 0] sum of the hashes
      of every generated payload; every reachable state of the batch loop
      is safe (within [[0, total]], no exception, progress), while a batch
      size of [0] spins and a negative one throws; a worker count of at
      most 1 is the single run; the worker split reports
      [W * floor(T / W)] records for an integral [W] up to [2^53] and more
      than [T] for a fractional one; [per] is the floor of the double
      quotient, the integer quotient for an integral [W] and the exact
      floor or the next integer otherwise ([WORKERS=3.3333333333333335]
      gives 30 per worker where the exact floor is 29); [WORKERS=Infinity]
      and every count above [2^53] never finish the spawn loop; with a
      constant clock the split preserves the checksum; the merge is
      order-independent;
    - the PRNG has full period 233280 and draws in [0, 1);
    - in the risk benchmark, sensor 90 has a negative vibration reading, so
      [Math.sqrt] yields [NaN] and the default single-threaded run prints
      [null] for [avg_risk] and [checksum], while four workers (25 sensors
      each) print numbers; the workers do not split the sensors: each
      simulates the same sensors [0 .. per - 1] with the same stream, so
      the split run prints the single run's [avg_risk] over [per] sensors,
      and with more workers than sensors every shard is empty and the
      average is [0 / 0 = NaN];
      on real readings with a non-negative vibration the kernel stays
      real; every sensor uses the seed 115000; the split run reports
      [ceil(W) * per] sensors; the checksum merge is order-independent on
      non-negative checksums;
    - on the printed line: for every [WORKERS] whose spawn loop ends (all
      but [Infinity] and the counts above [2^53]) both processes print
      their summary and exit with status 0, and a count above [2^53]
      hangs both; the rates print [null] exactly when 0 ms were
      measured.

    Bounds and fuel: [JSON_parse s] runs the parser with fuel
    [1 + length s], which exceeds the nesting measure [jsize] of every
    printed value; the batch loop gets [1 + total] iterations, enough since
    each iteration processes at least one record; the spawn loop gets
    [1 + ceil(workers)] for a finite count up to [2^53], where the double
    counter [w] is exact, and is proved to exhaust every fuel for
    [+Infinity] and for every count above [2^53], where [w++] stops at
    [2^53] ([js_incr]). Integers are kept at their JavaScript width where
    it matters: 32-bit words for the FNV state and the checksums, exact
    integers below 2^53 elsewhere.

    Not modelled: the values of [performance.now()] (they are inputs of
    [Report]), the digits [console.log] prints for a number
    (Number::toString: a printed number is its value), and the
    [Worker]/[postMessage] transport: it is I/O of the Node runtime, and
    the program only passes plain records through it ([workerData] and
    the posted message are structured clones of the values), so a worker
    is modelled as a function of its shard and its message as a value,
    and the [isMainThread] dispatch as the choice between the main-thread
    and worker definitions;
    the rounding of doubles to 53 bits outside the division of
    [Math.floor(total / workers)] (it is [Double]'s [fl]), and [-0]: the
    risk kernel is modelled on exact reals, so its theorems are proved,
    not evaluated; the telemetry sums of 32-bit hashes are exact integers,
    as in JavaScript, since a batch of 10000 hashes sums below [2^46]; [JSON] numbers with a fraction or exponent, which the
    generated payloads never contain (the summary line is [Report]'s).

    This file is the prelude: JavaScript exceptions, the result type with
    its bind notation, modular sums and counting helpers shared by the
    components, the [bench] hint databases and the tactics. *)

From Stdlib Require Import ZArith List Lia Permutation String.
Import ListNotations.

Declare Scope bench_scope.
Delimit Scope bench_scope with bench.

Create HintDb bench.
Create Rewrite HintDb bench_rw.

(** ** Exceptions and the result type *)

(** The JavaScript exceptions the modelled code can raise: [JSON.parse]
    raises [SyntaxError], reading a property of [null] raises [TypeError],
    [new Array(n)] with a negative [n] raises [RangeError], and
    [new Error msg] is [Error msg]. *)
Inductive exn :=
  | SyntaxError
  | TypeError
  | RangeError
  | Error (msg : string).

(** A computation that returns a value or throws. *)
Inductive result (A : Type) : Type :=
  | Ok (a : A)
  | Throw (e : exn).
Arguments Ok {A} a.
Arguments Throw {A} e.

Definition rbind {A B : Type} (r : result A) (k : A -> result B) : result B :=
  match r with
  | Ok a => k a
  | Throw e => Throw e
  end.

Notation "x <- c ;; k" := (rbind c (fun x => k))
  (at level 100, c at next level, right associativity) : bench_scope.

Local Open Scope bench_scope.

Definition is_ok {A : Type} (r : result A) : bool :=
  match r with Ok _ => true | Throw _ => false end.

Lemma rbind_ok {A B : Type} (a : A) (k : A -> result B) :
  rbind (Ok a) k = k a.
Proof. reflexivity. Qed.

Lemma rbind_throw {A B : Type} (e : exn) (k : A -> result B) :
  rbind (Throw e) k = Throw e.
Proof. reflexivity. Qed.

Lemma rbind_ok_inv {A B : Type} (r : result A) (k : A -> result B) (b : B) :
  rbind r k = Ok b -> exists a, r = Ok a /\ k a = Ok b.
Proof. destruct r; simpl; [eauto | discriminate]. Qed.

#[export] Hint Rewrite @rbind_ok @rbind_throw : bench_rw.

(** [f] on every element, stopping at the first exception. *)
Fixpoint rmapM {A B : Type} (f : A -> result B) (l : list A) : result (list B) :=
  match l with
  | [] => Ok []
  | x :: l' => y <- f x ;; ys <- rmapM f l' ;; Ok (y :: ys)
  end.

Lemma rmapM_app {A B : Type} (f : A -> result B) (l1 l2 : list A) :
  rmapM f (l1 ++ l2) = (ys1 <- rmapM f l1 ;; ys2 <- rmapM f l2 ;; Ok (ys1 ++ ys2)).
Proof.
  induction l1 as [|x l1 IH]; simpl.
  - destruct (rmapM f l2); reflexivity.
  - destruct (f x); [|reflexivity]. simpl. rewrite IH.
    destruct (rmapM f l1); [|reflexivity]. simpl. now destruct (rmapM f l2).
Qed.

Lemma rmapM_map {A B C : Type} (f : B -> result C) (g : A -> B) (l : list A) :
  rmapM f (map g l) = rmapM (fun x => f (g x)) l.
Proof. induction l as [|x l IH]; simpl; [reflexivity|]. now rewrite IH. Qed.

Lemma rmapM_ok {A B : Type} (f : A -> result B) (g : A -> B) (l : list A) :
  (forall x, In x l -> f x = Ok (g x)) -> rmapM f l = Ok (map g l).
Proof.
  induction l as [|x l IH]; intros H; simpl; [reflexivity|].
  rewrite H by (left; reflexivity). simpl.
  rewrite IH by (intros y Hy; apply H; right; exact Hy). reflexivity.
Qed.

Lemma fold_left_map_l {A B C : Type} (f : A -> B -> A) (g : C -> B) (l : list C) (a : A) :
  fold_left f (map g l) a = fold_left (fun x y => f x (g y)) l a.
Proof. revert a. induction l as [|y l IH]; intros a; [reflexivity|]. apply IH. Qed.

(** ** Sums and modular sums *)

Local Open Scope Z_scope.

Fixpoint sumZ (l : list Z) : Z :=
  match l with
  | [] => 0
  | x :: l' => x + sumZ l'
  end.

(** [(t + x) mod m]: the step of every checksum fold of the sources,
    written [(t + x) >>> 0] (m = 2^32) or [(t + x) % 1000000000]. *)
Definition add_mod (m t x : Z) : Z := (t + x) mod m.

Lemma sumZ_app (l1 l2 : list Z) : sumZ (l1 ++ l2) = sumZ l1 + sumZ l2.
Proof. induction l1; simpl; lia. Qed.

Lemma sumZ_perm (l1 l2 : list Z) : Permutation l1 l2 -> sumZ l1 = sumZ l2.
Proof. induction 1; simpl; lia. Qed.

Lemma sumZ_nonneg (l : list Z) : Forall (fun x => 0 <= x) l -> 0 <= sumZ l.
Proof. induction 1; simpl; lia. Qed.

Lemma sumZ_map_const {A : Type} (c : Z) (l : list A) :
  sumZ (map (fun _ => c) l) = Z.of_nat (List.length l) * c.
Proof.
  induction l as [|x l IH]; cbn [sumZ map List.length]; [reflexivity|].
  rewrite IH, Nat2Z.inj_succ. lia.
Qed.

Lemma sumZ_map_le {A : Type} (f g : A -> Z) (l : list A) :
  Forall (fun x => f x <= g x) l -> sumZ (map f l) <= sumZ (map g l).
Proof. induction 1; simpl; lia. Qed.

(** A sum of terms that are all at least 1 is at least the number of terms. *)
Lemma sumZ_map_ge_length {A : Type} (f : A -> Z) (l : list A) :
  Forall (fun x => 1 <= f x) l -> Z.of_nat (List.length l) <= sumZ (map f l).
Proof. induction 1; cbn [sumZ map List.length]; lia. Qed.

(** The fold of [add_mod m] from a start value already reduced modulo [m]
    is the whole sum reduced modulo [m]. *)
Lemma fold_add_mod (m a : Z) (l : list Z) :
  m <> 0 -> fold_left (add_mod m) l (a mod m) = (a + sumZ l) mod m.
Proof.
  intros Hm. revert a. induction l as [|x l IH]; intros a; simpl.
  - now rewrite Z.add_0_r.
  - unfold add_mod at 2. rewrite Z.add_mod_idemp_l by exact Hm.
    rewrite IH. f_equal. lia.
Qed.

Lemma fold_add_mod_small (m a : Z) (l : list Z) :
  0 <= a < m -> fold_left (add_mod m) l a = (a + sumZ l) mod m.
Proof.
  intros Ha. rewrite <- (Z.mod_small a m) at 1 by exact Ha.
  apply fold_add_mod. lia.
Qed.

Lemma add_mod_range (m t x : Z) : 0 < m -> 0 <= add_mod m t x < m.
Proof. intros Hm. apply Z.mod_pos_bound. exact Hm. Qed.

#[export] Hint Resolve add_mod_range : bench.

(** ** Counting *)

Local Close Scope Z_scope.

(** The number of [i < n] that satisfy [p]. *)
Fixpoint count_below (p : nat -> bool) (n : nat) : nat :=
  match n with
  | O => O
  | S k => count_below p k + (if p k then 1 else 0)
  end.

Lemma count_below_filter (p : nat -> bool) (n : nat) :
  List.length (filter p (seq 0 n)) = count_below p n.
Proof.
  induction n as [|n IH]; [reflexivity|].
  rewrite seq_S, filter_app, length_app, IH. simpl. destruct (p n); reflexivity.
Qed.

Lemma count_below_le (p : nat -> bool) (n : nat) : count_below p n <= n.
Proof. induction n; simpl; [lia|destruct (p n); lia]. Qed.

#[export] Hint Resolve count_below_le : bench.

(** ** Strings *)

Lemma str_app_assoc (s1 s2 s3 : string) :
  ((s1 ++ s2) ++ s3)%string = (s1 ++ (s2 ++ s3))%string.
Proof. induction s1 as [|c s1 IH]; simpl; [reflexivity|now rewrite IH]. Qed.

Lemma str_app_nil_r (s : string) : (s ++ "")%string = s.
Proof. induction s as [|c s IH]; simpl; [reflexivity|now rewrite IH]. Qed.

Lemma str_length_app (s1 s2 : string) :
  String.length (s1 ++ s2) = String.length s1 + String.length s2.
Proof. induction s1 as [|c s1 IH]; simpl; [reflexivity|now rewrite IH]. Qed.

Lemma str_app_inv_head (s a b : string) : (s ++ a)%string = (s ++ b)%string -> a = b.
Proof. induction s as [|c s IH]; simpl; [easy|]. intros H. injection H. exact IH. Qed.

#[export] Hint Rewrite str_app_assoc str_app_nil_r str_length_app : bench_rw.

(** ** Tactics *)

(** Case analysis on every boolean comparison of [Z] in the goal. *)
Ltac destruct_zcmp :=
  repeat match goal with
  | |- context [Z.ltb ?a ?b] => destruct (Z.ltb_spec a b)
  | |- context [Z.leb ?a ?b] => destruct (Z.leb_spec a b)
  | |- context [Z.eqb ?a ?b] => destruct (Z.eqb_spec a b)
  end.

(** Case analysis on every boolean comparison of [nat] in the goal, closing
    the contradictory cases by [lia]. *)
Ltac destruct_natcmp :=
  repeat match goal with
  | |- context [Nat.eqb ?a ?b] => destruct (Nat.eqb_spec a b); try lia
  | |- context [Nat.leb ?a ?b] => destruct (Nat.leb_spec a b); try lia
  | |- context [Nat.ltb ?a ?b] => destruct (Nat.ltb_spec a b); try lia
  end.

(** Right-associate string concatenations and push them under the known
    leading characters. *)
Ltac str_norm :=
  repeat (first [rewrite str_app_assoc | progress cbn [String.append]]).

(** Push [String.length] through concatenations and known characters. *)
Ltac str_len_norm :=
  repeat (first [rewrite str_length_app | progress cbn [String.length String.append]]).
