(* ===== verification/Double.v ===== *)
(** * Rounding a quotient to the nearest double

    [per = Math.floor(total / workers)] ([src/bench_node.js] line 88,
    [src/bench_algo_node.js] line 137) floors the double that IEEE-754
    division returns: the exact quotient rounded to the nearest number
    with a 53-bit significand, ties to the even significand. [fl] is that
    rounding on a rational: for [x = p / q > 0] it picks the exponent [e]
    with [2^52 <= x * 2^-e < 2^53] ([exponent], from the binary logarithms
    of [p] and [q], corrected by one), rounds the scaled significand
    half-to-even ([round_ne]) and scales back. Overflow and the subnormal
    range are not modelled: whenever the spawn loop ends the quotient is a
    total of at most [2^53] over a worker count in [(1, 2^53]], far inside
    the normal range.

    The theorem used downstream: for integers [0 <= a < 2^53] and [b >= 1]
    the rounding never reaches the next integer, so [floor(fl(a / b))] is
    the integer quotient [a / b] ([Qfloor_fl_div]); for any rational in
    [[0, 2^53)] it is the exact floor or the next integer
    ([Qfloor_fl_bounds]), and both happen for a fractional worker count
    (see [WorkerPool.per_worker_double]). [fl] is correctly rounded: its
    relative error is at most [2^-53] ([fl_rel_error]). *)

From Stdlib Require Import ZArith Lia QArith Qround Qabs.
From S2P Require Import Prelude.

Local Open Scope Z_scope.

(** The bound of exact integers, [Number.MAX_SAFE_INTEGER + 1]. *)
Definition MAX_SAFE : Z := 2 ^ 53.

(** [num / den] rounded to the nearest integer, ties to even ([den > 0]). *)
Definition round_ne (num den : Z) : Z :=
  let '(t, r) := Z.div_eucl num den in
  match Z.compare (2 * r) den with
  | Lt => t
  | Gt => t + 1
  | Eq => if Z.even t then t else t + 1
  end.

(** [p / q * 2^-e] as a fraction of integers. *)
Definition scale (p q e : Z) : Z * Z :=
  if 0 <=? e then (p, q * 2 ^ e) else (p * 2 ^ (- e), q).

(** The exponent of [p / q > 0]: [2^52 <= p / q * 2^-e < 2^53]. *)
Definition exponent (p q : Z) : Z :=
  let e := Z.log2 p - Z.log2 q - 53 in
  let '(n, d) := scale p q e in
  if n <? 2 ^ 53 * d then e else e + 1.

(** The double nearest to [p / q], for [p, q > 0]. *)
Definition round_pos (p q : Z) : Q :=
  let e := exponent p q in
  let '(n, d) := scale p q e in
  let m := round_ne n d in
  if 0 <=? e then inject_Z (m * 2 ^ e) else m # Z.to_pos (2 ^ (- e)).

(** The double nearest to a rational (the result of a division). *)
Definition fl (x : Q) : Q :=
  match Qnum x with
  | Z0 => 0
  | Zpos p => round_pos (Zpos p) (Zpos (Qden x))
  | Zneg p => - round_pos (Zpos p) (Zpos (Qden x))
  end.

(** ** Lemmas *)

Lemma round_ne_lower (n d : Z) : 0 < d -> n / d <= round_ne n d.
Proof.
  intros Hd. unfold round_ne. pose proof (Z.div_eucl_eq n d ltac:(lia)) as E.
  destruct (Z.div_eucl n d) as [t r] eqn:Ed.
  assert (t = n / d) by (unfold Z.div; now rewrite Ed).
  destruct (Z.compare_spec (2 * r) d); [destruct (Z.even t)| |]; lia.
Qed.

Lemma round_ne_upper (n d : Z) : 0 < d -> 2 * round_ne n d * d <= 2 * n + d.
Proof.
  intros Hd. unfold round_ne. pose proof (Z.div_eucl_eq n d ltac:(lia)) as E.
  pose proof (Z_mod_lt n d ltac:(lia)) as Hr.
  destruct (Z.div_eucl n d) as [t r] eqn:Ed.
  assert (r = n mod d) by (unfold Z.modulo; now rewrite Ed).
  subst r. destruct (Z.compare_spec (2 * (n mod d)) d); [destruct (Z.even t)| |]; nia.
Qed.

Lemma round_ne_lower2 (n d : Z) : 0 < d -> 2 * n - d <= 2 * round_ne n d * d.
Proof.
  intros Hd. unfold round_ne. pose proof (Z.div_eucl_eq n d ltac:(lia)) as E.
  pose proof (Z_mod_lt n d ltac:(lia)) as Hr.
  destruct (Z.div_eucl n d) as [t r] eqn:Ed.
  assert (r = n mod d) by (unfold Z.modulo; now rewrite Ed).
  subst r. destruct (Z.compare_spec (2 * (n mod d)) d); [destruct (Z.even t)| |]; nia.
Qed.

(** [|x| <= c / d] on fractions, as an inequality of integers. *)
Lemma Qabs_make_le (a c : Z) (b d : positive) :
  - (c * Zpos b) <= a * Zpos d <= c * Zpos b -> (Qabs (a # b) <= c # d)%Q.
Proof. intros H. unfold Qle. cbn [Qabs Qnum Qden]. lia. Qed.

(** The first exponent guess already gives a significand of at least
    [2^52]. *)
Lemma scale_guess_lower (p q : Z) :
  0 < p -> 0 < q ->
  let '(n, d) := scale p q (Z.log2 p - Z.log2 q - 53) in 2 ^ 52 * d <= n.
Proof.
  intros Hp Hq.
  destruct (Z.log2_spec p Hp) as [Hp1 _]. destruct (Z.log2_spec q Hq) as [_ Hq2].
  pose proof (Z.log2_nonneg p). pose proof (Z.log2_nonneg q).
  set (lp := Z.log2 p) in *. set (lq := Z.log2 q) in *. unfold scale.
  destruct (Z.leb_spec 0 (lp - lq - 53)) as [He|He]; cbv beta iota.
  - assert (E : 2 ^ lp = 2 ^ 52 * 2 ^ (lq + 1) * 2 ^ (lp - lq - 53))
      by (rewrite <- !Z.pow_add_r by lia; f_equal; lia).
    assert (0 < 2 ^ (lp - lq - 53)) by (apply Z.pow_pos_nonneg; lia). nia.
  - assert (E : 2 ^ 52 * 2 ^ (lq + 1) = 2 ^ lp * 2 ^ (- (lp - lq - 53)))
      by (rewrite <- !Z.pow_add_r by lia; f_equal; lia).
    assert (0 < 2 ^ (- (lp - lq - 53))) by (apply Z.pow_pos_nonneg; lia). nia.
Qed.

Lemma scale_pos (p q e : Z) :
  0 < p -> 0 < q -> let '(n, d) := scale p q e in 0 < n /\ 0 < d.
Proof.
  intros Hp Hq. unfold scale. destruct (Z.leb_spec 0 e); cbv beta iota.
  - pose proof (Z.pow_pos_nonneg 2 e ltac:(lia) ltac:(lia)). nia.
  - pose proof (Z.pow_pos_nonneg 2 (- e) ltac:(lia) ltac:(lia)). nia.
Qed.

(** Raising the exponent by one halves the significand. *)
Lemma scale_succ (p q e : Z) :
  0 < p -> 0 < q ->
  let '(n, d) := scale p q e in let '(n', d') := scale p q (e + 1) in n' * (2 * d) = n * d'.
Proof.
  intros Hp Hq. unfold scale.
  destruct (Z.leb_spec 0 e); destruct (Z.leb_spec 0 (e + 1)); cbv beta iota; try lia.
  - rewrite Z.pow_add_r by lia. ring.
  - replace e with (-1) by lia. replace (- -1) with 1 by lia. replace (-1 + 1) with 0 by lia.
    rewrite Z.pow_1_r, Z.pow_0_r. ring.
  - replace (- e) with (1 + - (e + 1)) by lia. rewrite Z.pow_add_r by lia. ring.
Qed.

(** The significand [exponent] selects is at least [2^52]. *)
Lemma exponent_lower (p q : Z) :
  0 < p -> 0 < q -> let '(n, d) := scale p q (exponent p q) in 2 ^ 52 * d <= n.
Proof.
  intros Hp Hq. unfold exponent.
  set (e0 := Z.log2 p - Z.log2 q - 53).
  pose proof (scale_guess_lower p q Hp Hq) as Hg. fold e0 in Hg.
  pose proof (scale_succ p q e0 Hp Hq) as Hs.
  pose proof (scale_pos p q (e0 + 1) Hp Hq) as Hpos.
  pose proof (scale_pos p q e0 Hp Hq) as Hpos0.
  destruct (scale p q e0) as [n d] eqn:E. destruct (scale p q (e0 + 1)) as [n' d'] eqn:E'.
  cbv beta iota in Hg, Hs, Hpos, Hpos0.
  destruct (Z.ltb_spec n (2 ^ 53 * d)); [rewrite E; exact Hg|].
  rewrite E'. destruct Hpos, Hpos0.
  assert (Hm : 0 <= 2 * d * (n' - 2 ^ 52 * d')) by nia.
  apply Z.mul_nonneg_cancel_l in Hm; lia.
Qed.

(** [floor(fl(a / b)) = a / b] for integers [0 <= a < 2^53] and [b >= 1]:
    the significand has at least 52 bits to spare below [a < 2^53], so the
    rounding error stays below the distance [1 / b] to the next integer. *)
Lemma round_pos_floor (a b : Z) :
  0 < a < MAX_SAFE -> 0 < b -> Qfloor (round_pos a b) = a / b.
Proof.
  unfold MAX_SAFE. intros Ha Hb. pose proof (exponent_lower a b ltac:(lia) Hb) as Hl.
  unfold round_pos. set (e := exponent a b) in *. unfold scale in Hl |- *.
  destruct (Z.leb_spec 0 e) as [He|He].
  - (* a quotient of at least 2^52: then b = 1 and e = 0, and the result is a *)
    assert (0 < 2 ^ e) by (apply Z.pow_pos_nonneg; lia).
    assert (Hbe : b * 2 ^ e = 1) by nia. assert (Hb1 : b = 1) by nia. subst b.
    rewrite Z.mul_1_l in Hbe |- *. rewrite Hbe, Z.mul_1_r, Qfloor_Z, Z.div_1_r.
    pose proof (round_ne_lower a 1 ltac:(lia)). pose proof (round_ne_upper a 1 ltac:(lia)).
    rewrite Z.div_1_r in *. lia.
  - set (N := 2 ^ (- e)) in *.
    assert (HN : 0 < N) by (apply Z.pow_pos_nonneg; lia).
    pose proof (round_ne_lower (a * N) b Hb) as Hlo.
    pose proof (round_ne_upper (a * N) b Hb) as Hup.
    set (m := round_ne (a * N) b) in *.
    assert (Hk : a = b * (a / b) + a mod b) by (apply Z.div_mod; lia).
    pose proof (Z.mod_pos_bound a b Hb).
    assert (H1 : (a / b) * N <= (a * N) / b).
    { apply Z.div_le_lower_bound; [lia|]. nia. }
    assert (H2 : b < 2 * N) by nia.
    assert (H3 : m < (a / b + 1) * N) by nia.
    change (Qfloor (m # Z.to_pos N)) with (m / Z.pos (Z.to_pos N)).
    rewrite Z2Pos.id by exact HN.
    symmetry. apply Z.div_unique with (m - a / b * N); lia.
Qed.

(** The double quotient of two integers, as [fl] sees it. *)
Lemma fl_div_int (a b : Z) :
  0 < a -> 0 < b -> fl (inject_Z a / inject_Z b) = round_pos a b.
Proof.
  intros Ha Hb. destruct a as [|pa|pa]; [lia| |lia]. destruct b as [|pb|pb]; [lia| |lia].
  unfold fl, Qdiv, Qmult, Qinv, inject_Z. cbn [Qnum Qden].
  now rewrite Z.mul_1_r, Pos.mul_1_l.
Qed.

(** For [0 < p / d < 2^53] the floor of the nearest double is the floor of
    [p / d] or the next integer: the rounding error is at most half a unit
    of the last place, and that unit is at most 1 below [2^53]. *)
Lemma round_pos_bounds (p d : Z) :
  0 < p < MAX_SAFE * d -> 0 < d -> p / d <= Qfloor (round_pos p d) <= p / d + 1.
Proof.
  unfold MAX_SAFE. intros Hp Hd. pose proof (exponent_lower p d ltac:(lia) Hd) as Hl.
  unfold round_pos. set (e := exponent p d) in *. unfold scale in Hl |- *.
  assert (Hk : p = d * (p / d) + p mod d) by (apply Z.div_mod; lia).
  pose proof (Z.mod_pos_bound p d Hd).
  destruct (Z.leb_spec 0 e) as [He|He]; cbv beta iota zeta.
  - assert (0 < 2 ^ e) by (apply Z.pow_pos_nonneg; lia).
    assert (He1 : 2 ^ e = 1) by nia. rewrite He1, !Z.mul_1_r in *. rewrite Qfloor_Z.
    pose proof (round_ne_lower p d Hd). pose proof (round_ne_upper p d Hd).
    set (m := round_ne p d) in *. split; [lia|].
    destruct (Z_lt_le_dec (2 * m - 2 * (p / d) - 3) 0); [lia | nia].
  - set (N := 2 ^ (- e)) in *.
    assert (HN : 0 < N) by (apply Z.pow_pos_nonneg; lia).
    pose proof (round_ne_lower (p * N) d Hd) as Hlo.
    pose proof (round_ne_upper (p * N) d Hd) as Hup.
    set (m := round_ne (p * N) d) in *.
    assert (H1 : (p / d) * N <= (p * N) / d) by (apply Z.div_le_lower_bound; nia).
    assert (H3 : m < (p / d + 2) * N) by nia.
    change (Qfloor (m # Z.to_pos N)) with (m / Z.pos (Z.to_pos N)).
    rewrite Z2Pos.id by exact HN. split.
    + apply Z.div_le_lower_bound; lia.
    + assert (m / N < p / d + 2); [apply Z.div_lt_upper_bound; lia | lia].
Qed.

(** The floor of the nearest double of a rational in [[0, 2^53)]. *)
Lemma Qfloor_fl_bounds (x : Q) :
  (0 <= x)%Q -> (x < inject_Z MAX_SAFE)%Q -> Qfloor x <= Qfloor (fl x) <= Qfloor x + 1.
Proof.
  destruct x as [[|p|p] d]; intros H0 H1; cbn [fl Qnum Qden].
  - cbn. lia.
  - unfold Qlt in H1. cbn [Qnum Qden inject_Z] in H1. rewrite Z.mul_1_r in H1.
    change (Qfloor (Zpos p # d)) with (Zpos p / Zpos d). apply round_pos_bounds; lia.
  - exfalso. apply (Qle_not_lt _ _ H0). reflexivity.
Qed.


(** [Math.floor(a / b)] in doubles is the integer quotient for every
    [0 <= a < 2^53] and [b >= 1]: the rounding of the division to the
    nearest double never carries the quotient up to the next integer. *)
Lemma Qfloor_fl_div (a b : Z) :
  0 <= a < MAX_SAFE -> 0 < b -> Qfloor (fl (inject_Z a / inject_Z b)) = a / b.
Proof.
  intros Ha Hb. destruct (Z.eq_dec a 0) as [->|Hne].
  - rewrite Z.div_0_l by lia. reflexivity.
  - rewrite fl_div_int by lia. apply round_pos_floor; lia.
Qed.

Lemma round_ne_nonneg (n d : Z) : 0 <= n -> 0 < d -> 0 <= round_ne n d.
Proof.
  intros Hn Hd. pose proof (round_ne_lower n d Hd). pose proof (Z.div_pos n d Hn Hd). lia.
Qed.

(** The nearest double of a non-negative rational is non-negative. *)
Lemma Qfloor_fl_nonneg (x : Q) : (0 <= x)%Q -> 0 <= Qfloor (fl x).
Proof.
  destruct x as [[|p|p] d]; intros Hx; cbn [fl Qnum Qden].
  - reflexivity.
  - unfold round_pos. pose proof (scale_pos (Zpos p) (Zpos d) (exponent (Zpos p) (Zpos d))
                                    ltac:(lia) ltac:(lia)) as Hs.
    destruct (scale _ _ _) as [n m] eqn:E. destruct Hs as [Hn Hm].
    pose proof (round_ne_nonneg n m ltac:(lia) Hm).
    destruct (Z.leb_spec 0 (exponent (Zpos p) (Zpos d))).
    + rewrite Qfloor_Z. apply Z.mul_nonneg_nonneg; [lia|]. apply Z.pow_nonneg. lia.
    + apply Z.div_pos; lia.
  - exfalso. unfold Qle in Hx. cbn in Hx. lia.
Qed.

Lemma Qdiv_2_53 (p q : positive) : ((Zpos p # q) / inject_Z (2 ^ 53) == Zpos p # (q * 2 ^ 53))%Q.
Proof.
  change (inject_Z (2 ^ 53)) with (Zpos (2 ^ 53) # 1). unfold Qeq, Qdiv, Qmult, Qinv.
  cbn [Qnum Qden]. rewrite ?Pos2Z.inj_mul. ring.
Qed.

(** The rounding is correct to half a unit in the last place: the
    relative error of [round_pos p q] to [p / q] is at most [2^-53]. *)
Lemma round_pos_rel_error (p q : positive) :
  (Qabs (round_pos (Zpos p) (Zpos q) - (Zpos p # q)) <= (Zpos p # q) / inject_Z (2 ^ 53))%Q.
Proof.
  pose proof (exponent_lower (Zpos p) (Zpos q) ltac:(lia) ltac:(lia)) as Hl.
  unfold round_pos. set (e := exponent (Zpos p) (Zpos q)) in *. unfold scale in Hl |- *.
  destruct (Z.leb_spec 0 e) as [He|He]; cbv beta iota zeta in Hl |- *.
  - assert (HE : 0 < 2 ^ e) by (apply Z.pow_pos_nonneg; lia).
    pose proof (round_ne_upper (Zpos p) (Zpos q * 2 ^ e) ltac:(nia)).
    pose proof (round_ne_lower2 (Zpos p) (Zpos q * 2 ^ e) ltac:(nia)).
    set (m := round_ne (Zpos p) (Zpos q * 2 ^ e)) in *.
    setoid_replace (inject_Z (m * 2 ^ e) - (Zpos p # q))%Q
      with ((m * 2 ^ e * Zpos q - Zpos p) # q)%Q
      by (unfold Qeq, Qminus, Qplus, Qopp, inject_Z; cbn [Qnum Qden]; rewrite ?Pos2Z.inj_mul; ring).
    rewrite Qdiv_2_53.
    apply Qabs_make_le. rewrite Pos2Z.inj_mul. change (Zpos (2 ^ 53)) with (2 ^ 53). nia.
  - set (N := 2 ^ (- e)) in *.
    assert (HN : 0 < N) by (apply Z.pow_pos_nonneg; lia).
    pose proof (round_ne_upper (Zpos p * N) (Zpos q) ltac:(lia)).
    pose proof (round_ne_lower2 (Zpos p * N) (Zpos q) ltac:(lia)).
    set (m := round_ne (Zpos p * N) (Zpos q)) in *.
    destruct N as [|n|n] eqn:EN; try lia. cbn [Z.to_pos].
    setoid_replace ((m # n) - (Zpos p # q))%Q
      with ((m * Zpos q - Zpos p * Zpos n) # (n * q))%Q
      by (unfold Qeq, Qminus, Qplus, Qopp; cbn [Qnum Qden]; rewrite ?Pos2Z.inj_mul; ring).
    rewrite Qdiv_2_53.
    apply Qabs_make_le. rewrite !Pos2Z.inj_mul. change (Zpos (2 ^ 53)) with (2 ^ 53). nia.
Qed.

(** [fl] is correctly rounded: [|fl x - x| <= |x| * 2^-53] on every
    rational. *)
Lemma fl_rel_error (x : Q) : (Qabs (fl x - x) <= Qabs x / inject_Z (2 ^ 53))%Q.
Proof.
  destruct x as [[|p|p] d]; cbn [fl Qnum Qden].
  - discriminate.
  - apply round_pos_rel_error.
  - change (Zneg p # d)%Q with (- (Zpos p # d))%Q.
    setoid_replace (- round_pos (Zpos p) (Zpos d) - - (Zpos p # d))%Q
      with (- (round_pos (Zpos p) (Zpos d) - (Zpos p # d)))%Q by ring.
    rewrite Qabs_opp. change (Qabs (- (Zpos p # d))) with (Zpos p # d).
    apply round_pos_rel_error.
Qed.
