(* ===== verification/Fnv.v ===== *)
(** * The 32-bit FNV-1a checksum of [src/bench_node.js]

    [fnv1a32] (lines 15-22) threads a JavaScript number [h] through the
    characters of the string: it starts at [0x811c9dc5 >>> 0] (an unsigned
    value above 2^31), and each step stores the signed result of [h ^= c]
    and of [Math.imul(h, 0x01000193)] back into [h]; only the final
    [h >>> 0] is unsigned. The model [fnv_loop]/[fnv1a32] follows this
    signed-int32 data flow step by step.

    The theorems show that the JavaScript routine equals the textbook
    unsigned FNV-1a ([fnv1a32_ref]: xor then multiply modulo 2^32), that it
    returns a 32-bit unsigned value, and how it composes over
    concatenation. *)

From Stdlib Require Import ZArith Lia String Ascii List.
From S2P Require Import Prelude JsNum.

Local Open Scope Z_scope.

Definition FNV_OFFSET_BASIS : Z := 2166136261.  (* 0x811c9dc5 *)
Definition FNV_PRIME : Z := 16777619.           (* 0x01000193 *)

(** ** The JavaScript routine *)

(** The [for] loop of [fnv1a32]: [h ^= str.charCodeAt(i);
    h = Math.imul(h, 0x01000193);] for every character in order. *)
Fixpoint fnv_loop (h : Z) (s : string) : Z :=
  match s with
  | EmptyString => h
  | String c s' => fnv_loop (imul (js_xor h (char_code c)) FNV_PRIME) s'
  end.

(** [fnv1a32(str)]: [let h = 0x811c9dc5 >>> 0], the loop, [return h >>> 0]. *)
Definition fnv1a32 (str : string) : Z :=
  ToUint32 (fnv_loop (ToUint32 FNV_OFFSET_BASIS) str).

(** ** The reference: unsigned FNV-1a modulo 2^32 *)

Definition fnv_step_ref (h : Z) (c : ascii) : Z :=
  (Z.lxor h (char_code c) * FNV_PRIME) mod 2 ^ 32.

Fixpoint fnv_ref_loop (h : Z) (s : string) : Z :=
  match s with
  | EmptyString => h
  | String c s' => fnv_ref_loop (fnv_step_ref h c) s'
  end.

Definition fnv1a32_ref (s : string) : Z := fnv_ref_loop FNV_OFFSET_BASIS s.

(** ** Lemmas *)

(** One step of the JavaScript loop, seen unsigned, is one reference step. *)
Lemma ToUint32_fnv_step (h : Z) (c : ascii) :
  ToUint32 (imul (js_xor h (char_code c)) FNV_PRIME)
  = fnv_step_ref (ToUint32 h) c.
Proof.
  unfold fnv_step_ref. rewrite ToUint32_imul, ToUint32_js_xor.
  rewrite (ToUint32_small (char_code c)) by (pose proof (char_code_range c); lia).
  rewrite (ToUint32_small FNV_PRIME) by (unfold FNV_PRIME; lia).
  reflexivity.
Qed.

Lemma fnv_loop_ref (h : Z) (s : string) :
  ToUint32 (fnv_loop h s) = fnv_ref_loop (ToUint32 h) s.
Proof.
  revert h. induction s as [|c s IH]; intros h; simpl; [reflexivity|].
  now rewrite IH, ToUint32_fnv_step.
Qed.

Lemma fnv_ref_loop_range (h : Z) (s : string) :
  0 <= h < 2 ^ 32 -> 0 <= fnv_ref_loop h s < 2 ^ 32.
Proof.
  revert h. induction s as [|c s IH]; intros h Hh; simpl; [exact Hh|].
  apply IH. apply Z.mod_pos_bound. lia.
Qed.

Lemma fnv_ref_loop_app (h : Z) (s1 s2 : string) :
  fnv_ref_loop h (s1 ++ s2) = fnv_ref_loop (fnv_ref_loop h s1) s2.
Proof. revert h. induction s1; intros h; simpl; auto. Qed.

(** ** Theorems *)

(** C2: The JavaScript [fnv1a32], which keeps [h] as a signed 32-bit value
    produced by [^] and [Math.imul], returns exactly the unsigned FNV-1a
    hash modulo 2^32 that the specification describes, on every string. *)
Theorem fnv1a32_equiv_ref (s : string) : fnv1a32 s = fnv1a32_ref s.
Proof.
  unfold fnv1a32, fnv1a32_ref. rewrite fnv_loop_ref.
  now rewrite (ToUint32_small FNV_OFFSET_BASIS) by (unfold FNV_OFFSET_BASIS; lia).
Qed.

(** The checksum is an unsigned 32-bit integer. *)
Theorem fnv1a32_range (s : string) : 0 <= fnv1a32 s < 2 ^ 32.
Proof. unfold fnv1a32. apply ToUint32_range. Qed.

(** The hash is computed left to right: the hash of a concatenation
    continues the reference loop from the state reached on the prefix. *)
Theorem fnv1a32_app (s1 s2 : string) :
  fnv1a32 (s1 ++ s2) = fnv_ref_loop (fnv1a32 s1) s2.
Proof.
  unfold fnv1a32. rewrite !fnv_loop_ref. apply fnv_ref_loop_app.
Qed.
