(* ===== verification/Prng.v ===== *)
(** * The pseudo-random generator of [src/bench_algo_node.js]

    [class PRNG] (lines 16-25) keeps one number, [seed]; [next()] replaces
    it by [(seed * 9301 + 49297) % 233280] and returns [seed / 233280].
    The state is the record [PRNG]; [lcg_step] is the update, written with
    the JavaScript remainder [js_rem], and [next] returns the exact quotient
    (the double the code returns is its rounding) with the new state.

    The theorems show that [0 <= seed < 233280] is an invariant of [next]
    from any non-negative seed, with every draw in [0, 1); and that the
    generator has full period: from every seed in range the sequence of
    seeds returns to it after exactly 233280 steps and not before, so all
    233280 values occur once per period (the Hull-Dobell conditions hold
    for m = 2^6 * 3^6 * 5, a = 9301, c = 49297). The proof checks the orbit
    of 0 by evaluation, shows the step injective on the range by Gauss's
    lemma, and concludes by counting. *)

From Stdlib Require Import ZArith Lia List QArith.
From S2P Require Import Prelude JsNum.
Import ListNotations.

Local Open Scope Z_scope.

Definition LCG_A : Z := 9301.
Definition LCG_C : Z := 49297.
Definition LCG_M : Z := 233280.

(** ** The class *)

(** The object's state: [this.seed]. *)
Record PRNG := mkPRNG { seed : Z }.

(** [new PRNG(seed)], with the default [12345] for a missing argument. *)
Definition PRNG_new (arg : option Z) : PRNG :=
  mkPRNG (match arg with Some s => s | None => 12345 end).

(** The update of [next()]: [(this.seed * 9301 + 49297) % 233280]. *)
Definition lcg_step (s : Z) : Z := js_rem (s * LCG_A + LCG_C) LCG_M.

(** [next()]: the new state and the returned value [this.seed / 233280]. *)
Definition next (p : PRNG) : Q * PRNG :=
  let s := lcg_step (seed p) in
  ((inject_Z s / inject_Z LCG_M)%Q, mkPRNG s).

(** The seed after [n] calls of [next]. *)
Definition lcg_iter (n : nat) (s : Z) : Z := Nat.iter n lcg_step s.

(** ** Lemmas on the step *)

Lemma lcg_step_mod (s : Z) : 0 <= s -> lcg_step s = (s * LCG_A + LCG_C) mod LCG_M.
Proof. intros Hs. unfold lcg_step. apply js_rem_nonneg; unfold LCG_A, LCG_C, LCG_M; lia. Qed.

Lemma lcg_step_range (s : Z) : 0 <= s -> 0 <= lcg_step s < LCG_M.
Proof. intros Hs. rewrite lcg_step_mod by exact Hs. apply Z.mod_pos_bound. reflexivity. Qed.

Lemma lcg_iter_range (n : nat) (s : Z) : 0 <= s < LCG_M -> 0 <= lcg_iter n s < LCG_M.
Proof.
  intros Hs. unfold lcg_iter. apply Nat.iter_invariant; [|exact Hs].
  intros x Hx. apply lcg_step_range. lia.
Qed.

(** The step is injective on the range: 9301 is prime to 233280. *)
Lemma lcg_step_inj (x y : Z) :
  0 <= x < LCG_M -> 0 <= y < LCG_M -> lcg_step x = lcg_step y -> x = y.
Proof.
  intros Hx Hy E. rewrite !lcg_step_mod in E by lia.
  assert (Hd : (LCG_M | (x - y) * LCG_A)).
  { apply Z.mod_divide; [discriminate|].
    replace ((x - y) * LCG_A) with ((x * LCG_A + LCG_C) - (y * LCG_A + LCG_C)) by ring.
    rewrite Zminus_mod, E, Z.sub_diag. reflexivity. }
  rewrite Z.mul_comm in Hd. apply Z.gauss in Hd; [|reflexivity].
  destruct Hd as [k Hk]. unfold LCG_M in *. lia.
Qed.

Lemma lcg_iter_inj (n : nat) (x y : Z) :
  0 <= x < LCG_M -> 0 <= y < LCG_M -> lcg_iter n x = lcg_iter n y -> x = y.
Proof.
  intros Hx Hy. induction n as [|n IH]; [easy|].
  intros E. apply IH. unfold lcg_iter in *. rewrite !Nat.iter_succ in E.
  apply lcg_step_inj; [apply (lcg_iter_range n x Hx) | apply (lcg_iter_range n y Hy) | exact E].
Qed.

Lemma lcg_iter_add (p q : nat) (s : Z) : lcg_iter (p + q) s = lcg_iter p (lcg_iter q s).
Proof. apply Nat.iter_add. Qed.

(** ** The orbit of 0, checked by evaluation *)

(** The seed after [n] steps from [s], or [None] if one of the [n] seeds
    from [s] on (the last excluded) is 0. *)
Fixpoint run_avoiding_zero (n : nat) (s : Z) : option Z :=
  match n with
  | O => Some s
  | S n' => if s =? 0 then None else run_avoiding_zero n' (lcg_step s)
  end.

Lemma run_avoiding_zero_spec (n : nat) (s r : Z) :
  run_avoiding_zero n s = Some r ->
  r = lcg_iter n s /\ forall k, (k < n)%nat -> lcg_iter k s <> 0.
Proof.
  revert s. induction n as [|n IH]; intros s H; simpl in H.
  - injection H as <-. split; [reflexivity | lia].
  - destruct (Z.eqb_spec s 0) as [_|Hs]; [discriminate|].
    destruct (IH _ H) as [-> Hk]. split.
    + unfold lcg_iter. now rewrite Nat.iter_succ_r.
    + intros [|k] Hlt; [exact Hs|]. unfold lcg_iter. rewrite Nat.iter_succ_r.
      apply Hk. lia.
Qed.

(** One evaluation of 233280 steps from 0. *)
Lemma orbit_zero_run : run_avoiding_zero (Z.to_nat LCG_M - 1) (lcg_step 0) = Some 0.
Proof. vm_compute. reflexivity. Qed.

Lemma orbit_zero_checked :
  lcg_iter (Z.to_nat LCG_M) 0 = 0
  /\ forall k, (k < Z.to_nat LCG_M - 1)%nat -> lcg_iter k (lcg_step 0) <> 0.
Proof.
  destruct (run_avoiding_zero_spec _ _ _ orbit_zero_run) as [E Hk]. split; [|exact Hk].
  assert (HM : (0 < Z.to_nat LCG_M)%nat) by (unfold LCG_M; lia).
  revert E HM. generalize (Z.to_nat LCG_M). intros [|m] E HM; [lia|].
  rewrite Nat.sub_succ, Nat.sub_0_r in E.
  unfold lcg_iter in *. rewrite Nat.iter_succ_r. now symmetry.
Qed.

(** 0 first returns to itself after exactly [LCG_M] steps. *)
Lemma orbit_zero_no_early_return (j : nat) :
  (0 < j < Z.to_nat LCG_M)%nat -> lcg_iter j 0 <> 0.
Proof.
  intros Hj. destruct j as [|j]; [lia|].
  unfold lcg_iter. rewrite Nat.iter_succ_r.
  apply (proj2 orbit_zero_checked). lia.
Qed.

Lemma orbit_zero_distinct (i j : nat) :
  (i < j < Z.to_nat LCG_M)%nat -> lcg_iter i 0 <> lcg_iter j 0.
Proof.
  intros Hij E. apply (orbit_zero_no_early_return (j - i)); [lia|].
  replace j with (i + (j - i))%nat in E by lia.
  rewrite lcg_iter_add in E. symmetry.
  apply (lcg_iter_inj i); [| apply lcg_iter_range | exact E]; unfold LCG_M; lia.
Qed.

(** Every seed in range lies on the orbit of 0. *)
Lemma orbit_zero_covers (s : Z) :
  0 <= s < LCG_M -> exists k, (k < Z.to_nat LCG_M)%nat /\ lcg_iter k 0 = s.
Proof.
  intros Hs.
  set (orbit := map (fun k => Z.to_nat (lcg_iter k 0)) (seq 0 (Z.to_nat LCG_M))).
  assert (Hnd : NoDup orbit).
  { apply NoDup_map_NoDup_ForallPairs; [|apply seq_NoDup].
    intros i j Hi Hj E. apply in_seq in Hi, Hj.
    pose proof (lcg_iter_range i 0 ltac:(unfold LCG_M; lia)).
    pose proof (lcg_iter_range j 0 ltac:(unfold LCG_M; lia)).
    destruct (Nat.lt_trichotomy i j) as [Hlt|[Heq|Hgt]]; [|exact Heq|].
    - exfalso. apply (orbit_zero_distinct i j); [lia|]. lia.
    - exfalso. apply (orbit_zero_distinct j i); [lia|]. lia. }
  assert (Hincl : incl (seq 0 (Z.to_nat LCG_M)) orbit).
  { apply NoDup_length_incl; [exact Hnd | unfold orbit; now rewrite length_map |].
    intros x Hx. apply in_map_iff in Hx as [k [<- Hk]].
    apply in_seq. pose proof (lcg_iter_range k 0 ltac:(unfold LCG_M; lia)). lia. }
  assert (Hin : In (Z.to_nat s) orbit) by (apply Hincl, in_seq; lia).
  unfold orbit in Hin. apply in_map_iff in Hin as [k [Hk Hin]].
  apply in_seq in Hin. exists k. split; [lia|].
  pose proof (lcg_iter_range k 0 ltac:(unfold LCG_M; lia)). lia.
Qed.

(** ** Theorems *)

(** The value [next()] returns lies in [0, 1). *)
Lemma next_value_range (p : PRNG) :
  0 <= seed p -> (0 <= fst (next p) /\ fst (next p) < 1)%Q.
Proof.
  intros Hs. simpl. pose proof (lcg_step_range _ Hs) as [H0 H1]. unfold Qdiv. split.
  - apply Qle_shift_div_l; [reflexivity|]. rewrite Qmult_0_l.
    change 0%Q with (inject_Z 0). rewrite <- Zle_Qle. exact H0.
  - apply Qlt_shift_div_r; [reflexivity|]. rewrite Qmult_1_l.
    rewrite <- Zlt_Qlt. exact H1.
Qed.

(** C32: The seed invariant: from a non-negative seed, [next()] leaves a seed
    in [0, 233280) and returns a value in [0, 1). *)
Theorem next_range (p : PRNG) :
  0 <= seed p ->
  0 <= seed (snd (next p)) < LCG_M
  /\ (0 <= fst (next p) /\ fst (next p) < 1)%Q.
Proof.
  intros Hs. split; [apply lcg_step_range, Hs | apply next_value_range, Hs].
Qed.

(** C21: Full period: from every seed in [0, 233280) the generator returns
    to that seed after exactly 233280 calls of [next()], and after no
    smaller positive number of calls. *)
Theorem lcg_full_period (s : Z) :
  0 <= s < LCG_M ->
  lcg_iter (Z.to_nat LCG_M) s = s
  /\ forall j, (0 < j < Z.to_nat LCG_M)%nat -> lcg_iter j s <> s.
Proof.
  intros Hs. destruct (orbit_zero_covers s Hs) as [k [Hk <-]]. split.
  - rewrite <- lcg_iter_add, Nat.add_comm, lcg_iter_add.
    now rewrite (proj1 orbit_zero_checked).
  - intros j Hj E. apply (orbit_zero_no_early_return j Hj).
    rewrite <- lcg_iter_add, Nat.add_comm, lcg_iter_add in E.
    apply (lcg_iter_inj k) in E; [exact E | apply lcg_iter_range | ]; unfold LCG_M; lia.
Qed.

(** ** Witnesses *)

(** Every sensor of the benchmark seeds its generator with
    ['s'.charCodeAt(0) * 1000 = 115000]. *)
Lemma next_range_witness :
  0 <= seed (mkPRNG 115000) /\ 0 <= seed (snd (next (mkPRNG 115000))) < LCG_M.
Proof.
  split; [simpl; lia|]. apply (next_range (mkPRNG 115000)). simpl. lia.
Defined.

Lemma lcg_full_period_witness :
  0 <= 115000 < LCG_M /\ lcg_iter (Z.to_nat LCG_M) 115000 = 115000.
Proof.
  split; [unfold LCG_M; lia|]. apply (lcg_full_period 115000). unfold LCG_M; lia.
Defined.
