(* ===== verification/Json.v ===== *)
(** * [JSON.stringify] and [JSON.parse] on the values of the benchmark

    [src/bench_node.js] serialises every telemetry record with
    [JSON.stringify] (lines 30-36) and reads it back with [JSON.parse]
    (line 46) before validating it. Both are ECMAScript builtins; this file
    models them on the fragment the program uses:
    - [json] is a parsed JSON value: [null], booleans, integral numbers,
      strings of 8-bit characters, arrays, and objects as the list of their
      members in text order;
    - [stringify] is [JSON.stringify] on such values: numbers in decimal,
      strings quoted with the escapes of QuoteJSONString (a backslash before
      the quote and the backslash, [\b], [\f], [\n], [\r], [\t], and
      [\u00xx] for the other control characters),
      no whitespace;
    - [parse_value] is a recursive-descent parser with fuel, and
      [JSON_parse] runs it with fuel [1 + length s] on the whole input,
      accepting surrounding whitespace and raising [SyntaxError] otherwise;
    - [get_prop] is the property read [obj.k] on a parsed value: a member of
      an object (the last one when a key is repeated, as [JSON.parse]
      keeps), [undefined] on other values, and a [TypeError] on [null].
    Numbers with a fraction or an exponent, and [\u] escapes above [\u00ff],
    are outside the modelled fragment: the model rejects them.

    The main lemma is the round trip: parsing the text [stringify v]
    gives back [v], for every value; the telemetry theorems use it to read
    the generated payloads back. *)

From Stdlib Require Import ZArith Lia List String Ascii Bool DecimalString DecimalN.
From S2P Require Import Prelude JsNum.
Import ListNotations.

Local Open Scope bool_scope.
Local Open Scope string_scope.

(** ** Values *)

#[local] Set Warnings "-register-all".

Inductive json : Type :=
  | JNull
  | JBool (b : bool)
  | JNum (n : Z)
  | JStr (s : string)
  | JArr (l : list json)
  | JObj (ms : list (string * json)).

(** Induction on values through the lists of arrays and objects. *)
Section JsonInd.
Variable P : json -> Prop.
Hypothesis HNull : P JNull.
Hypothesis HBool : forall b, P (JBool b).
Hypothesis HNum : forall n, P (JNum n).
Hypothesis HStr : forall s, P (JStr s).
Hypothesis HArr : forall l, Forall P l -> P (JArr l).
Hypothesis HObj : forall ms, Forall (fun kv => P (snd kv)) ms -> P (JObj ms).

Fixpoint json_ind' (v : json) : P v :=
  match v with
  | JNull => HNull
  | JBool b => HBool b
  | JNum n => HNum n
  | JStr s => HStr s
  | JArr l =>
      HArr l ((fix go (l : list json) : Forall P l :=
                 match l with
                 | [] => Forall_nil _
                 | x :: l' => Forall_cons _ (json_ind' x) (go l')
                 end) l)
  | JObj ms =>
      HObj ms ((fix go (ms : list (string * json)) : Forall (fun kv => P (snd kv)) ms :=
                  match ms with
                  | [] => Forall_nil _
                  | kv :: ms' => Forall_cons _ (json_ind' (snd kv)) (go ms')
                  end) ms)
  end.
End JsonInd.

(** ** Characters *)

Definition QUOTE : ascii := ascii_of_nat 34.
Definition BSLASH : ascii := ascii_of_nat 92.
Arguments QUOTE /.
Arguments BSLASH /.

(** A lowercase hexadecimal digit. *)
Definition hex_digit (n : nat) : ascii :=
  if Nat.ltb n 10 then ascii_of_nat (48 + n) else ascii_of_nat (87 + n).

Definition is_ws (c : ascii) : bool :=
  let n := nat_of_ascii c in
  Nat.eqb n 32 || Nat.eqb n 9 || Nat.eqb n 10 || Nat.eqb n 13.

Definition is_digit (c : ascii) : bool :=
  let n := nat_of_ascii c in Nat.leb 48 n && Nat.leb n 57.

(** ** [JSON.stringify] *)

(** QuoteJSONString, one character. *)
Definition escape_char (c : ascii) : string :=
  let n := nat_of_ascii c in
  if Nat.eqb n 34 then String BSLASH (String QUOTE "")
  else if Nat.eqb n 92 then String BSLASH (String BSLASH "")
  else if Nat.eqb n 8 then String BSLASH "b"
  else if Nat.eqb n 12 then String BSLASH "f"
  else if Nat.eqb n 10 then String BSLASH "n"
  else if Nat.eqb n 13 then String BSLASH "r"
  else if Nat.eqb n 9 then String BSLASH "t"
  else if Nat.ltb n 32 then
    String BSLASH ("u00" ++ String (hex_digit (n / 16)) (String (hex_digit (n mod 16)) ""))
  else String c "".

Fixpoint escape (s : string) : string :=
  match s with
  | EmptyString => ""
  | String c s' => escape_char c ++ escape s'
  end.

Definition quote (s : string) : string := String QUOTE (escape s ++ String QUOTE "").

(** The elements after the first of an array, each preceded by a comma. *)
Fixpoint elems_tail (pr : json -> string) (l : list json) : string :=
  match l with
  | [] => ""
  | x :: l' => "," ++ pr x ++ elems_tail pr l'
  end.

Definition member (pr : json -> string) (kv : string * json) : string :=
  quote (fst kv) ++ ":" ++ pr (snd kv).

Fixpoint members_tail (pr : json -> string) (ms : list (string * json)) : string :=
  match ms with
  | [] => ""
  | kv :: ms' => "," ++ member pr kv ++ members_tail pr ms'
  end.

Fixpoint stringify (v : json) : string :=
  match v with
  | JNull => "null"
  | JBool true => "true"
  | JBool false => "false"
  | JNum n => int_to_string n
  | JStr s => quote s
  | JArr [] => "[]"
  | JArr (x :: l) => "[" ++ stringify x ++ elems_tail stringify l ++ "]"
  | JObj [] => "{}"
  | JObj (kv :: ms) =>
      "{" ++ quote (fst kv) ++ ":" ++ stringify (snd kv) ++ members_tail stringify ms ++ "}"
  end.

(** ** [JSON.parse] *)

(** Only white space: what [JSON.parse] accepts after the value. *)
Fixpoint all_ws (s : string) : bool :=
  match s with
  | EmptyString => true
  | String c s' => is_ws c && all_ws s'
  end.

Fixpoint skip_ws (s : string) : string :=
  match s with
  | EmptyString => EmptyString
  | String c s' => if is_ws c then skip_ws s' else s
  end.

(** Strip the literal [lit] from the front of [s]. *)
Fixpoint expect (lit s : string) : option string :=
  match lit, s with
  | EmptyString, _ => Some s
  | String c lit', String c' s' => if Ascii.eqb c c' then expect lit' s' else None
  | String _ _, EmptyString => None
  end.

Fixpoint span_digits (s : string) : string * string :=
  match s with
  | EmptyString => ("", "")
  | String c s' =>
      if is_digit c then let (d, r) := span_digits s' in (String c d, r) else ("", s)
  end.

(** The value of a nonempty run of digits without a leading zero. *)
Definition digits_value (d : string) : option N :=
  match d with
  | EmptyString => None
  | String c r =>
      if Nat.eqb (nat_of_ascii c) 48 && negb (String.eqb r "") then None
      else option_map N.of_uint (NilZero.uint_of_string d)
  end.

Definition starts_frac_or_exp (s : string) : bool :=
  match s with
  | String c _ => let n := nat_of_ascii c in Nat.eqb n 46 || Nat.eqb n 101 || Nat.eqb n 69
  | EmptyString => false
  end.

(** A number: an optional minus sign and an integer part. *)
Definition parse_number (s : string) : option (json * string) :=
  let '(neg, s1) :=
    match s with
    | String c r => if Nat.eqb (nat_of_ascii c) 45 then (true, r) else (false, s)
    | EmptyString => (false, s)
    end in
  let '(d, r) := span_digits s1 in
  if starts_frac_or_exp r then None
  else match digits_value d with
       | Some n => Some (JNum (if neg then (- Z.of_N n)%Z else Z.of_N n), r)
       | None => None
       end.

(** The character denoted by a one-letter escape. *)
Definition unescape (e : ascii) : option ascii :=
  let n := nat_of_ascii e in
  if Nat.eqb n 34 then Some QUOTE
  else if Nat.eqb n 92 then Some BSLASH
  else if Nat.eqb n 47 then Some e
  else if Nat.eqb n 98 then Some (ascii_of_nat 8)
  else if Nat.eqb n 102 then Some (ascii_of_nat 12)
  else if Nat.eqb n 110 then Some (ascii_of_nat 10)
  else if Nat.eqb n 114 then Some (ascii_of_nat 13)
  else if Nat.eqb n 116 then Some (ascii_of_nat 9)
  else None.

Definition hex_val (c : ascii) : option nat :=
  let n := nat_of_ascii c in
  if Nat.leb 48 n && Nat.leb n 57 then Some (n - 48)
  else if Nat.leb 97 n && Nat.leb n 102 then Some (n - 87)
  else if Nat.leb 65 n && Nat.leb n 70 then Some (n - 55)
  else None.

Definition hex4 (a b c d : ascii) : option nat :=
  match hex_val a, hex_val b, hex_val c, hex_val d with
  | Some x, Some y, Some z, Some w => Some (((x * 16 + y) * 16 + z) * 16 + w)
  | _, _, _, _ => None
  end.

Definition cons_char (c : ascii) (r : option (string * string)) : option (string * string) :=
  match r with
  | Some (b, rest) => Some (String c b, rest)
  | None => None
  end.

(** The body of a string literal after its opening quote, up to and
    including the closing quote. *)
Fixpoint parse_str_body (s : string) : option (string * string) :=
  match s with
  | EmptyString => None
  | String c r =>
      if Ascii.eqb c QUOTE then Some ("", r)
      else if Ascii.eqb c BSLASH then
        match r with
        | EmptyString => None
        | String e r' =>
            match unescape e with
            | Some c' => cons_char c' (parse_str_body r')
            | None =>
                if Nat.eqb (nat_of_ascii e) 117 then
                  match r' with
                  | String h1 (String h2 (String h3 (String h4 r''))) =>
                      match hex4 h1 h2 h3 h4 with
                      | Some v => if Nat.ltb v 256
                                  then cons_char (ascii_of_nat v) (parse_str_body r'')
                                  else None
                      | None => None
                      end
                  | _ => None
                  end
                else None
            end
        end
      else if Nat.ltb (nat_of_ascii c) 32 then None
      else cons_char c (parse_str_body r)
  end.

Fixpoint parse_value (fuel : nat) (s : string) {struct fuel} : option (json * string) :=
  match fuel with
  | O => None
  | S f =>
      match skip_ws s with
      | EmptyString => None
      | String c r =>
          let n := nat_of_ascii c in
          if Nat.eqb n 110 then option_map (fun r' => (JNull, r')) (expect "ull" r)
          else if Nat.eqb n 116 then option_map (fun r' => (JBool true, r')) (expect "rue" r)
          else if Nat.eqb n 102 then option_map (fun r' => (JBool false, r')) (expect "alse" r)
          else if Nat.eqb n 34 then
            option_map (fun '(str, r') => (JStr str, r')) (parse_str_body r)
          else if Nat.eqb n 45 || is_digit c then parse_number (String c r)
          else if Nat.eqb n 91 then
            match skip_ws r with
            | String c' r' =>
                if Nat.eqb (nat_of_ascii c') 93 then Some (JArr [], r')
                else option_map (fun '(l, r'') => (JArr l, r'')) (parse_elems f (String c' r'))
            | EmptyString => None
            end
          else if Nat.eqb n 123 then
            match skip_ws r with
            | String c' r' =>
                if Nat.eqb (nat_of_ascii c') 125 then Some (JObj [], r')
                else option_map (fun '(ms, r'') => (JObj ms, r'')) (parse_members f (String c' r'))
            | EmptyString => None
            end
          else None
      end
  end
(** The elements of a nonempty array, up to and including its closing bracket. *)
with parse_elems (fuel : nat) (s : string) {struct fuel} : option (list json * string) :=
  match fuel with
  | O => None
  | S f =>
      match parse_value f s with
      | None => None
      | Some (v, r) =>
          match skip_ws r with
          | EmptyString => None
          | String c r' =>
              if Nat.eqb (nat_of_ascii c) 44 then
                match parse_elems f r' with
                | Some (vs, r'') => Some (v :: vs, r'')
                | None => None
                end
              else if Nat.eqb (nat_of_ascii c) 93 then Some ([v], r')
              else None
          end
      end
  end
(** The members of a nonempty object, up to and including its [}]. *)
with parse_members (fuel : nat) (s : string) {struct fuel}
    : option (list (string * json) * string) :=
  match fuel with
  | O => None
  | S f =>
      match skip_ws s with
      | String c r =>
          if Nat.eqb (nat_of_ascii c) 34 then
            match parse_str_body r with
            | None => None
            | Some (k, r1) =>
                match skip_ws r1 with
                | String c1 r2 =>
                    if Nat.eqb (nat_of_ascii c1) 58 then
                      match parse_value f r2 with
                      | None => None
                      | Some (v, r3) =>
                          match skip_ws r3 with
                          | String c3 r4 =>
                              if Nat.eqb (nat_of_ascii c3) 44 then
                                match parse_members f r4 with
                                | Some (ms, r5) => Some ((k, v) :: ms, r5)
                                | None => None
                                end
                              else if Nat.eqb (nat_of_ascii c3) 125 then Some ([(k, v)], r4)
                              else None
                          | EmptyString => None
                          end
                      end
                    else None
                | EmptyString => None
                end
            end
          else None
      | EmptyString => None
      end
  end.

(** [JSON.parse(s)]: one value, surrounded by whitespace only. *)
Definition JSON_parse (s : string) : result json :=
  match parse_value (S (String.length s)) s with
  | Some (v, r) => if String.eqb (skip_ws r) "" then Ok v else Throw SyntaxError
  | None => Throw SyntaxError
  end.

(** ** Property access on a parsed value *)

(** The value of the last member named [k]. *)
Fixpoint lookup_member (ms : list (string * json)) (k : string) : option json :=
  match ms with
  | [] => None
  | (k', v) :: ms' =>
      match lookup_member ms' k with
      | Some w => Some w
      | None => if String.eqb k' k then Some v else None
      end
  end.

(** [obj.k]: [None] is [undefined]. *)
Definition get_prop (o : json) (k : string) : result (option json) :=
  match o with
  | JNull => Throw TypeError
  | JObj ms => Ok (lookup_member ms k)
  | _ => Ok None
  end.

(** ** Lemmas: strings *)

(** What may follow a number in a text that parses: no digit, point or
    exponent mark. *)
Definition num_follow_ok (rest : string) : bool :=
  match rest with
  | EmptyString => true
  | String c _ => negb (is_digit c) && negb (starts_frac_or_exp rest)
  end.

Lemma num_follow_ok_frac (rest : string) :
  num_follow_ok rest = true -> starts_frac_or_exp rest = false.
Proof.
  destruct rest as [|c r]; [reflexivity|]. simpl.
  intros H. apply andb_prop in H as [_ H]. now apply negb_true_iff.
Qed.

Lemma parse_escape_char (c : ascii) (t : string) :
  parse_str_body (escape_char c ++ t) = cons_char c (parse_str_body t).
Proof.
  destruct c as [b0 b1 b2 b3 b4 b5 b6 b7].
  destruct b0, b1, b2, b3, b4, b5, b6, b7; reflexivity.
Qed.

Lemma parse_escape (s t : string) :
  parse_str_body (escape s ++ String QUOTE t) = Some (s, t).
Proof.
  induction s as [|c s IH]; [reflexivity|]. cbn [escape].
  rewrite str_app_assoc, parse_escape_char, IH. reflexivity.
Qed.

Lemma parse_quote (s t : string) :
  parse_str_body (escape s ++ String QUOTE "" ++ t) = Some (s, t).
Proof. apply parse_escape. Qed.

Lemma skip_ws_no_ws (c : ascii) (t : string) :
  is_ws c = false -> skip_ws (String c t) = String c t.
Proof. intros H. simpl. now rewrite H. Qed.

(** ** Lemmas: numbers *)

Lemma N_to_uint_D0 (m : N) (r : Decimal.uint) : N.to_uint m = Decimal.D0 r -> r = Decimal.Nil.
Proof.
  intros H. pose proof (DecimalN.Unsigned.to_of (N.to_uint m)) as E.
  rewrite DecimalN.Unsigned.of_to, H in E. unfold Decimal.unorm in E.
  rewrite DecimalFacts.nzhead_D0 in E.
  destruct (Decimal.nzhead r) eqn:Hz; try discriminate E.
  - now injection E.
  - exfalso. exact (DecimalFacts.nzhead_nonzero _ _ Hz).
Qed.

Lemma span_digits_uint (d : Decimal.uint) (rest : string) :
  num_follow_ok rest = true ->
  span_digits (NilEmpty.string_of_uint d ++ rest) = (NilEmpty.string_of_uint d, rest).
Proof.
  intros Hr. induction d; simpl; try (rewrite IHd; reflexivity).
  destruct rest as [|c r]; [reflexivity|]. simpl in *.
  destruct (is_digit c); [discriminate | reflexivity].
Qed.

Lemma to_uint_nonnil (m : N) : N.to_uint m <> Decimal.Nil.
Proof. destruct m as [|p]; [discriminate|]. apply DecimalPos.Unsigned.to_uint_nonnil. Qed.

Lemma span_digits_dec_N (m : N) (rest : string) :
  num_follow_ok rest = true -> span_digits (dec_N m ++ rest) = (dec_N m, rest).
Proof.
  intros Hr. unfold dec_N, NilZero.string_of_uint.
  destruct (N.to_uint m) eqn:Hm;
    [now destruct (to_uint_nonnil m) | apply span_digits_uint; exact Hr ..].
Qed.

Lemma digits_value_dec_N (m : N) : digits_value (dec_N m) = Some m.
Proof.
  pose proof (NilZero.usu _ (to_uint_nonnil m)) as Hu.
  rewrite <- (DecimalN.Unsigned.of_to m) at 2. unfold dec_N in *.
  destruct (N.to_uint m) eqn:Hm; [now destruct (to_uint_nonnil m)|..];
    try (apply N_to_uint_D0 in Hm; subst);
    unfold digits_value; simpl in *; rewrite ?Hu; reflexivity.
Qed.

Lemma parse_dec_N (neg : bool) (m : N) (rest : string) :
  num_follow_ok rest = true ->
  (let '(d, r) := span_digits (dec_N m ++ rest) in
   if starts_frac_or_exp r then None
   else match digits_value d with
        | Some n => Some (JNum (if neg then (- Z.of_N n)%Z else Z.of_N n), r)
        | None => None
        end)
  = Some (JNum (if neg then (- Z.of_N m)%Z else Z.of_N m), rest).
Proof.
  intros Hr. rewrite span_digits_dec_N, num_follow_ok_frac, digits_value_dec_N by exact Hr.
  reflexivity.
Qed.

Lemma parse_number_int (z : Z) (rest : string) :
  num_follow_ok rest = true ->
  parse_number (int_to_string z ++ rest) = Some (JNum z, rest).
Proof.
  intros Hr. unfold int_to_string, parse_number.
  destruct (Z.ltb_spec z 0) as [Hz|Hz].
  - simpl. rewrite (parse_dec_N true _ _ Hr), Z2N.id, Z.opp_involutive by lia. reflexivity.
  - destruct (dec_N (Z.to_N z) ++ rest) eqn:E.
    + exfalso. unfold dec_N, NilZero.string_of_uint in E.
      destruct (N.to_uint (Z.to_N z)); discriminate E.
    + assert (Hc : Nat.eqb (nat_of_ascii a) 45 = false).
      { unfold dec_N, NilZero.string_of_uint in E.
        destruct (N.to_uint (Z.to_N z)); injection E as <- _; reflexivity. }
      rewrite Hc, <- E, (parse_dec_N false _ _ Hr), Z2N.id by lia. reflexivity.
Qed.

(** ** Lemmas: the first character of a printed value *)

(** What starts the text of a value: no whitespace and no closing
    bracket or brace. *)
Definition value_start (c : ascii) : bool :=
  negb (is_ws c) && negb (Nat.eqb (nat_of_ascii c) 93) && negb (Nat.eqb (nat_of_ascii c) 125).

Lemma int_to_string_cons (z : Z) (t : string) :
  exists c r, int_to_string z ++ t = String c r
              /\ (Nat.eqb (nat_of_ascii c) 45 || is_digit c) = true.
Proof.
  unfold int_to_string, dec_N, NilZero.string_of_uint.
  destruct (z <? 0)%Z; [eexists _, _; split; reflexivity|].
  destruct (N.to_uint (Z.to_N z)); eexists _, _; split; reflexivity.
Qed.

(** The first character of a number is a minus sign or a digit. *)
Lemma numeric_start (c : ascii) :
  (Nat.eqb (nat_of_ascii c) 45 || is_digit c) = true ->
  nat_of_ascii c = 45 \/ (48 <= nat_of_ascii c <= 57).
Proof.
  unfold is_digit. intros Hc. apply orb_prop in Hc as [H|H].
  - left. now apply Nat.eqb_eq.
  - right. apply andb_prop in H as [H1 H2]. apply Nat.leb_le in H1, H2. lia.
Qed.

Lemma stringify_cons (v : json) (t : string) :
  exists c r, stringify v ++ t = String c r /\ value_start c = true.
Proof.
  destruct v as [| [] | n | s | [|x l] | [|kv ms]];
    try (eexists _, _; split; reflexivity).
  destruct (int_to_string_cons n t) as (c & r & E & Hc). exists c, r. split; [exact E|].
  apply numeric_start in Hc. unfold value_start, is_ws. destruct_natcmp.
Qed.

Lemma value_start_not_bracket (c : ascii) :
  value_start c = true -> Nat.eqb (nat_of_ascii c) 93 = false.
Proof. unfold value_start. now destruct (is_ws c), (Nat.eqb (nat_of_ascii c) 93). Qed.

Lemma skip_ws_stringify (v : json) (t : string) :
  skip_ws (stringify v ++ t) = stringify v ++ t.
Proof.
  destruct (stringify_cons v t) as (c & r & -> & Hc). apply skip_ws_no_ws.
  unfold value_start in Hc. now destruct (is_ws c).
Qed.

Lemma parse_value_numeric (f : nat) (c : ascii) (r : string) :
  (Nat.eqb (nat_of_ascii c) 45 || is_digit c) = true ->
  parse_value (S f) (String c r) = parse_number (String c r).
Proof.
  intros Hc. apply numeric_start in Hc.
  assert (Hws : is_ws c = false) by (unfold is_ws; destruct_natcmp).
  cbn [parse_value]. rewrite (skip_ws_no_ws _ _ Hws).
  unfold is_digit. destruct_natcmp; reflexivity.
Qed.

(** ** The round trip *)

(** The fuel the parser needs for a value: one unit per nesting level and
    per element. *)
Fixpoint jsize (v : json) : nat :=
  match v with
  | JArr l => S (list_sum (map (fun x => S (jsize x)) l))
  | JObj ms => S (list_sum (map (fun kv => S (jsize (snd kv))) ms))
  | _ => 0
  end.

Definition parses_back (v : json) : Prop :=
  forall f rest, jsize v < f -> num_follow_ok rest = true ->
  parse_value f (stringify v ++ rest) = Some (v, rest).

Lemma parse_elems_rt (x : json) (l : list json) (f : nat) (rest : string) :
  Forall parses_back (x :: l) ->
  list_sum (map (fun y => S (jsize y)) (x :: l)) < f ->
  parse_elems f (stringify x ++ elems_tail stringify l ++ "]" ++ rest) = Some (x :: l, rest).
Proof.
  revert x f. induction l as [|y l IH]; intros x f Hall Hf;
    inversion Hall as [|? ? Hx Hl]; subst; destruct f as [|f]; simpl in Hf; try lia.
  - cbn [parse_elems elems_tail]. simpl (("" ++ _)%string).
    rewrite Hx by (simpl; lia || reflexivity). reflexivity.
  - cbn [parse_elems elems_tail]. rewrite !str_app_assoc. simpl ((String _ _ ++ _)%string).
    rewrite Hx by (simpl; lia || reflexivity). simpl (skip_ws _). cbv iota beta.
    simpl (Nat.eqb _ _). cbv iota beta.
    rewrite <- !str_app_assoc, (str_app_assoc (stringify y)), IH; [reflexivity|exact Hl|].
    simpl in Hf |- *. lia.
Qed.

Lemma parse_members_rt (kv : string * json) (ms : list (string * json)) (f : nat)
    (rest : string) :
  Forall (fun kv => parses_back (snd kv)) (kv :: ms) ->
  list_sum (map (fun kv => S (jsize (snd kv))) (kv :: ms)) < f ->
  parse_members f (member stringify kv ++ members_tail stringify ms ++ "}" ++ rest)
  = Some (kv :: ms, rest).
Proof.
  revert kv f. induction ms as [|kv' ms IH]; intros [k v] f Hall Hf;
    inversion Hall as [|? ? Hx Hl]; subst; destruct f as [|f]; simpl in Hf; try lia;
    unfold member at 1, quote at 1; cbn [members_tail fst snd]; str_norm; simpl;
    change (ascii_of_nat 34) with QUOTE;
    rewrite (parse_escape k); simpl.
  - rewrite Hx by (simpl; lia || reflexivity). reflexivity.
  - rewrite Hx by (simpl; lia || reflexivity). simpl.
    match goal with |- context [parse_members f ?X] =>
      replace X with (member stringify kv' ++ members_tail stringify ms ++ "}" ++ rest)
        by (unfold member, quote; str_norm; reflexivity) end.
    rewrite IH; [reflexivity|exact Hl|]. simpl in Hf |- *. lia.
Qed.

(** The parser, given enough fuel, reads the text of every value back as
    that value and leaves the rest of the input, provided the rest cannot
    extend a number. *)
Lemma parse_stringify (v : json) : parses_back v.
Proof.
  induction v as [| b | n | s | l Hl | ms Hms] using json_ind';
    intros f rest Hf Hr; destruct f as [|f]; try (simpl in Hf; lia).
  - reflexivity.
  - destruct b; reflexivity.
  - destruct (int_to_string_cons n rest) as (c & r & E & Hc). simpl stringify.
    rewrite E, parse_value_numeric by exact Hc. rewrite <- E. now apply parse_number_int.
  - simpl stringify. unfold quote. str_norm. simpl.
    change (ascii_of_nat 34) with QUOTE. rewrite (parse_escape s). reflexivity.
  - destruct l as [|x l]; [reflexivity|]. simpl stringify. str_norm. simpl.
    rewrite skip_ws_stringify.
    match goal with |- context [stringify x ++ ?R] =>
      destruct (stringify_cons x R) as (c & r & E & Hc) end.
    rewrite E, (value_start_not_bracket c Hc), <- E.
    pose proof (parse_elems_rt x l f rest Hl) as He. simpl in He.
    rewrite He; [reflexivity|]. simpl in Hf. lia.
  - destruct ms as [|[k v] ms]; [reflexivity|]. simpl stringify. str_norm. simpl.
    change (ascii_of_nat 34) with QUOTE.
    pose proof (parse_members_rt (k, v) ms f rest Hms) as Hm.
    unfold member, quote in Hm. cbn [fst snd] in Hm. revert Hm. str_norm. simpl.
    change (ascii_of_nat 34) with QUOTE. intros Hm. rewrite Hm; [reflexivity|].
    simpl in Hf. lia.
Qed.

(** ** Enough fuel *)

Lemma elems_tail_length (l : list json) :
  Forall (fun v => jsize v <= String.length (stringify v)) l ->
  list_sum (map (fun y => S (jsize y)) l) <= String.length (elems_tail stringify l).
Proof.
  induction 1 as [|y l Hy _ IH]; simpl; [lia|]. rewrite str_length_app. lia.
Qed.

Lemma members_tail_length (ms : list (string * json)) :
  Forall (fun kv => jsize (snd kv) <= String.length (stringify (snd kv))) ms ->
  list_sum (map (fun kv => S (jsize (snd kv))) ms)
  <= String.length (members_tail stringify ms).
Proof.
  induction 1 as [|kv ms Hkv _ IH]; simpl; [lia|].
  unfold member, quote. str_len_norm. lia.
Qed.

(** The fuel [1 + length s] of [JSON_parse] covers every printed value. *)
Lemma jsize_le_length (v : json) : jsize v <= String.length (stringify v).
Proof.
  induction v as [| | | | l Hl | ms Hms] using json_ind'; simpl; try lia.
  - destruct l as [|x l]; simpl; [lia|]. inversion Hl as [|? ? Hx Htl]; subst.
    pose proof (elems_tail_length l Htl). str_len_norm. lia.
  - destruct ms as [|[k v] ms]; simpl; [lia|]. inversion Hms as [|? ? Hx Htl]; subst.
    pose proof (members_tail_length ms Htl). unfold quote. str_len_norm. simpl in Hx. lia.
Qed.

Lemma JSON_parse_stringify (v : json) : JSON_parse (stringify v) = Ok v.
Proof.
  unfold JSON_parse.
  pose proof (parse_stringify v (S (String.length (stringify v))) ""
                (proj2 (Nat.lt_succ_r _ _) (jsize_le_length v)) eq_refl) as H.
  rewrite str_app_nil_r in H. rewrite H. reflexivity.
Qed.

Lemma skip_ws_all_ws (ws : string) : all_ws ws = true -> skip_ws ws = "".
Proof.
  induction ws as [|c ws IH]; simpl; [reflexivity|].
  intros H. apply andb_prop in H as [-> H]. exact (IH H).
Qed.

Lemma num_follow_ok_all_ws (ws : string) : all_ws ws = true -> num_follow_ok ws = true.
Proof.
  destruct ws as [|c ws]; [reflexivity|]. simpl. intros H. apply andb_prop in H as [H _].
  unfold is_ws in H. unfold is_digit.
  destruct (nat_of_ascii c) as [|n]; [discriminate|].
  repeat (destruct n as [|n]; try discriminate); reflexivity.
Qed.

