(* ===== verification/Telemetry.v ===== *)
(** * The telemetry kernel of [src/bench_node.js]

    - [genPayloads] (lines 24-39) builds [n] records from their index [i]:
      device ["dev-" + i % devices], timestamp [Date.now()], temperature
      [i % 120], status ["ALARM"] when the temperature exceeds 95 and [i] is
      a multiple of 7, and a payload of 64 ["x"]; each record is serialised
      with [JSON.stringify]. The clock is the function [clock] that gives
      the value of the [i]-th call of [Date.now()].
    - [processBatch] (lines 41-68) parses each string, validates the types
      of its fields (throwing [new Error('bad record')]), computes [isAlarm],
      and updates the per-device aggregate [agg], a [Map] from device id to
      [{count, alarms, checksum}], modelled as a [gmap string DevAgg]; the
      per-device checksum is [(checksum + fnv1a32(s)) >>> 0]. The result
      is the number of devices, the alarm count, and the [>>> 0] of the sum
      of the per-device checksums (a sum of JavaScript numbers below 2^53,
      so exact, and independent of the iteration order of the map).

    The theorems: [processBatch] refines a specification that forgets the
    per-device map (the checksum total is the sum of the hashes of all
    payloads, the device count the number of distinct device ids, the
    alarm count the number of alarm records); every generated batch is
    accepted, with [min n devices] devices and the alarm count of the
    indices whose temperature exceeds 95; a record with a mistyped or
    missing field aborts the whole batch. The validation is the [typeof]
    check of the record type [telemetry_schema] (as [conforms], with a
    [Decision] instance), and every generated payload has that type; the
    loop keeps the invariant [batch_inv] of the per-device map (stated
    with stdpp's [map_Forall]); a payload that parses to [null] throws a
    [TypeError]; the map is the group-by of the batch by device ([dev_records],
    [dev_spec]), proved entry by entry with [lookup_insert_eq] and
    [lookup_insert_ne]. *)

From stdpp Require Import base gmap strings list.
From Stdlib Require Import ZArith Lia String.
From S2P Require Import Prelude JsNum Fnv Json.

Local Open Scope bench_scope.
Local Open Scope string_scope.

(** ** Generating the payloads *)

Fixpoint str_repeat (s : string) (n : nat) : string :=
  match n with
  | O => ""
  | S k => s ++ str_repeat s k
  end.

(** ["x".repeat(64)] *)
Definition filler : string := str_repeat "x" 64.

(** ['dev-' + (i % devices)]; [i % 0] is [NaN]. *)
Definition device_name (devices i : nat) : string :=
  match devices with
  | O => "dev-NaN"
  | S _ => "dev-" ++ int_to_string (Z.of_nat (i mod devices))
  end.

(** [(temp > 95 && (i % 7 === 0)) ? 'ALARM' : 'OK'] *)
Definition gen_status (i : nat) : string :=
  if (Nat.ltb 95 (i mod 120) && Nat.eqb (i mod 7) 0)%bool then "ALARM" else "OK".

(** The object literal of record [i], whose timestamp is [now]. *)
Definition telemetry_record (now : Z) (devices i : nat) : json :=
  JObj [("deviceId", JStr (device_name devices i));
        ("ts", JNum now);
        ("temp", JNum (Z.of_nat (i mod 120)));
        ("status", JStr (gen_status i));
        ("payload", JStr filler)].

(** [genPayloads(n, devices)]; [clock i] is the value of [Date.now()] for
    record [i]. *)
Definition genPayloads (clock : nat -> Z) (n devices : nat) : list string :=
  map (fun i => stringify (telemetry_record (clock i) devices i)) (seq 0 n).

(** ** Processing a batch *)

(** The per-device value of [agg]: [{ count, alarms, checksum }]. *)
Record DevAgg := mkDevAgg { agg_count : Z; agg_alarms : Z; agg_checksum : Z }.

Definition DevAgg_init : DevAgg := mkDevAgg 0 0 0.

(** The state of the loop of [processBatch]: [agg] and [alarmCount]. *)
Record BatchState := mkBatchState { bs_agg : gmap string DevAgg; bs_alarmCount : Z }.

Definition BatchState_init : BatchState := mkBatchState ∅ 0.

Definition bad_record : exn := Error "bad record".

(** The validation of lines 49-54, in the order of its [||]: the fields
    read are [deviceId], [ts], [temp], [status]; the result keeps the
    values the rest of the loop reads. *)
Definition validate (obj : json) : result (string * Z * string) :=
  d <- get_prop obj "deviceId" ;;
  match d with
  | Some (JStr dev) =>
      ts <- get_prop obj "ts" ;;
      match ts with
      | Some (JNum _) =>
          tp <- get_prop obj "temp" ;;
          match tp with
          | Some (JNum temp) =>
              st <- get_prop obj "status" ;;
              match st with
              | Some (JStr status) => Ok (dev, temp, status)
              | _ => Throw bad_record
              end
          | _ => Throw bad_record
          end
      | _ => Throw bad_record
      end
  | _ => Throw bad_record
  end.

(** The results of [typeof] the validation tests for. *)
Inductive js_type := TUndefined | TObject | TBoolean | TNumber | TString.

#[export] Instance js_type_eq_dec : EqDecision js_type.
Proof. solve_decision. Defined.

(** [typeof obj.k] of a property read: an absent property is
    ["undefined"]; [null], arrays and objects are ["object"]. *)
Definition typeof (v : option json) : js_type :=
  match v with
  | None => TUndefined
  | Some (JNull | JArr _ | JObj _) => TObject
  | Some (JBool _) => TBoolean
  | Some (JNum _) => TNumber
  | Some (JStr _) => TString
  end.

(** The record type of lines 49-52: the field and the [typeof] it must have. *)
Definition telemetry_schema : list (string * js_type) :=
  [("deviceId", TString); ("ts", TNumber); ("temp", TNumber); ("status", TString)].

(** The members [ms] of an object have the types of [schema]. *)
Definition conforms (ms : list (string * json)) (schema : list (string * js_type)) : Prop :=
  Forall (fun kt => typeof (lookup_member ms kt.1) = kt.2) schema.

#[export] Instance conforms_dec (ms : list (string * json)) (schema : list (string * js_type)) :
  Decision (conforms ms schema).
Proof. unfold conforms. apply _. Defined.

(** [obj.temp > 95 || obj.status === 'ALARM'] *)
Definition is_alarm (temp : Z) (status : string) : bool :=
  (Z.ltb 95 temp || String.eqb status "ALARM")%bool.

(** Lines 61-65: read the device's aggregate or a fresh one, count the
    record and its alarm, fold the hash into the checksum, store it. *)
Definition agg_update (agg : gmap string DevAgg) (dev : string) (alarm : bool) (h : Z)
    : gmap string DevAgg :=
  let a := default DevAgg_init (agg !! dev) in
  <[dev := mkDevAgg (agg_count a + 1)
                    (if alarm then agg_alarms a + 1 else agg_alarms a)
                    (ToUint32 (agg_checksum a + h))]> agg.

(** One iteration of the loop (lines 45-65). *)
Definition process_record (st : BatchState) (s : string) : result BatchState :=
  obj <- JSON_parse s ;;
  r <- validate obj ;;
  let '(dev, temp, status) := r in
  let alarm := is_alarm temp status in
  Ok (mkBatchState (agg_update (bs_agg st) dev alarm (fnv1a32 s))
                   (if alarm then bs_alarmCount st + 1 else bs_alarmCount st)).

Fixpoint process_all (st : BatchState) (payloads : list string) : result BatchState :=
  match payloads with
  | [] => Ok st
  | s :: rest => st' <- process_record st s ;; process_all st' rest
  end.

(** The object returned by [processBatch]. *)
Record BatchResult := mkBatchResult { devices : nat; alarmCount : Z; checksumTotal : Z }.

(** [[...agg.values()].reduce((t,a)=>t+a.checksum,0)] *)
Definition checksum_sum (agg : gmap string DevAgg) : Z :=
  sumZ (map (fun kv => agg_checksum kv.2) (map_to_list agg)).

Definition processBatch (payloads : list string) : result BatchResult :=
  st <- process_all BatchState_init payloads ;;
  Ok (mkBatchResult (size (bs_agg st)) (bs_alarmCount st)
                    (ToUint32 (checksum_sum (bs_agg st)))).

(** ** The specification of a batch *)

(** What the loop reads of one payload: the device id and [isAlarm]. *)
Definition record_view (s : string) : result (string * bool) :=
  obj <- JSON_parse s ;;
  r <- validate obj ;;
  let '(dev, temp, status) := r in Ok (dev, is_alarm temp status).

(** The result a batch should have, without the per-device map: the
    number of distinct device ids, the number of alarm records, and the
    32-bit sum of the hashes of all payloads. *)
Definition batch_spec (views : list (string * bool)) (payloads : list string) : BatchResult :=
  mkBatchResult (size (list_to_set (map fst views) : gset string))
                (Z.of_nat (List.length (List.filter snd views)))
                (ToUint32 (sumZ (map fnv1a32 payloads))).

(** The sum of one field over the devices of the map, in the order of
    [agg.values()]. *)
Definition agg_total (f : DevAgg -> Z) (agg : gmap string DevAgg) : Z :=
  sumZ (map (fun kv => f kv.2) (map_to_list agg)).

(** A well-formed aggregate of one device: it has counted a record, at most
    one alarm per record, and its checksum is a [>>> 0] value. *)
Definition agg_wf (a : DevAgg) : Prop :=
  (0 < agg_count a /\ 0 <= agg_alarms a <= agg_count a /\ 0 <= agg_checksum a < 2 ^ 32)%Z.

(** The invariant of [agg] after [n] records: every entry is well formed,
    the counts add up to [n] and the alarms to [alarmCount]. *)
Definition batch_inv (n : Z) (st : BatchState) : Prop :=
  map_Forall (fun _ a => agg_wf a) (bs_agg st)
  /\ agg_total agg_count (bs_agg st) = n
  /\ agg_total agg_alarms (bs_agg st) = bs_alarmCount st.

(** The records of device [dev] among the views of a batch, each with its
    [isAlarm] and the hash of its payload ([hs]). *)
Definition dev_records (dev : string) (vs : list (string * bool)) (hs : list Z) : list (bool * Z) :=
  map (fun p => (snd (fst p), snd p))
      (List.filter (fun p => String.eqb (fst (fst p)) dev) (combine vs hs)).

(** The DeviceAggregate of the specification: the entry [a] of a device
    after its records [rs], in closed form: [rs.length] more records, one
    more alarm per alarm record, and the [>>> 0] sum of the hashes. A
    device without records keeps its entry (or has none). *)
Definition dev_spec (a : option DevAgg) (rs : list (bool * Z)) : option DevAgg :=
  match rs with
  | [] => a
  | _ :: _ =>
      let b := default DevAgg_init a in
      Some (mkDevAgg (agg_count b + Z.of_nat (List.length rs))
                     (agg_alarms b + Z.of_nat (List.length (List.filter fst rs)))
                     (ToUint32 (agg_checksum b + sumZ (map snd rs))))
  end.

(** ** Lemmas on the loop *)

Lemma process_record_view (st : BatchState) (s : string) :
  process_record st s =
  (v <- record_view s ;;
   Ok (mkBatchState (agg_update (bs_agg st) v.1 v.2 (fnv1a32 s))
                    (if v.2 then bs_alarmCount st + 1 else bs_alarmCount st)))%Z.
Proof.
  unfold process_record, record_view.
  destruct (JSON_parse s) as [obj|e]; [|reflexivity]. simpl.
  destruct (validate obj) as [[[dev temp] status]|e]; reflexivity.
Qed.

Lemma agg_total_insert (f : DevAgg -> Z) (m : gmap string DevAgg) (k : string) (x : DevAgg) :
  agg_total f (<[k := x]> m) = (agg_total f m - default 0 (f <$> m !! k) + f x)%Z.
Proof.
  unfold agg_total. destruct (m !! k) as [y|] eqn:Hk; simpl.
  - rewrite <- insert_delete_eq. rewrite <- (insert_id m k y Hk) at 2.
    rewrite <- (insert_delete_eq m k y).
    rewrite !(sumZ_perm _ _ (Permutation_map _ (map_to_list_insert _ _ _ (lookup_delete_eq m k)))).
    simpl. lia.
  - rewrite (sumZ_perm _ _ (Permutation_map _ (map_to_list_insert _ _ _ Hk))). simpl. lia.
Qed.

Lemma checksum_sum_insert (m : gmap string DevAgg) (k : string) (x : DevAgg) :
  checksum_sum (<[k := x]> m) =
  (checksum_sum m - default 0 (agg_checksum <$> m !! k) + agg_checksum x)%Z.
Proof. apply agg_total_insert. Qed.

(** One update keeps the invariant of [agg], one record more. *)
Lemma agg_update_inv (n : Z) (st : BatchState) (dev : string) (alarm : bool) (h : Z) :
  batch_inv n st ->
  batch_inv (n + 1)%Z (mkBatchState (agg_update (bs_agg st) dev alarm h)
                                    (if alarm then bs_alarmCount st + 1 else bs_alarmCount st)%Z).
Proof.
  intros (Hwf & Hc & Ha). unfold batch_inv, agg_update. cbn [bs_agg bs_alarmCount].
  rewrite !agg_total_insert.
  destruct (bs_agg st !! dev) as [a|] eqn:Hd; cbn [default fmap option_fmap option_map].
  - pose proof (map_Forall_lookup_1 _ _ _ _ Hwf Hd) as (Ha1 & Ha2 & _).
    split; [apply map_Forall_insert_2; [|exact Hwf]|].
    + unfold agg_wf; cbn. split; [lia|]. split; [destruct alarm; lia|]. apply ToUint32_range.
    + destruct alarm; cbn; lia.
  - split; [apply map_Forall_insert_2; [|exact Hwf]|].
    + unfold agg_wf; cbn. split; [lia|]. split; [destruct alarm; lia|]. apply ToUint32_range.
    + destruct alarm; cbn; lia.
Qed.

Lemma checksum_sum_update (m : gmap string DevAgg) (dev : string) (alarm : bool) (h : Z) :
  ToUint32 (checksum_sum (agg_update m dev alarm h)) = ToUint32 (checksum_sum m + h).
Proof.
  unfold agg_update. rewrite checksum_sum_insert. simpl. unfold ToUint32.
  destruct (m !! dev) as [a|]; simpl;
    rewrite Z.add_mod_idemp_r by lia; f_equal; lia.
Qed.

Lemma dom_agg_update (m : gmap string DevAgg) (dev : string) (alarm : bool) (h : Z) :
  dom (agg_update m dev alarm h) = {[dev]} ∪ dom m.
Proof. unfold agg_update. apply dom_insert_L. Qed.

(** The invariant of the loop: the keys of [agg] are the devices seen,
    [alarmCount] counts the alarms seen, and the 32-bit sum of the
    per-device checksums is the 32-bit sum of the hashes seen. *)
Lemma process_all_spec (st : BatchState) (l : list string) :
  match process_all st l, rmapM record_view l with
  | Ok st', Ok vs =>
      dom (bs_agg st') = list_to_set (map fst vs) ∪ dom (bs_agg st)
      /\ bs_alarmCount st' = (bs_alarmCount st + Z.of_nat (List.length (List.filter snd vs)))%Z
      /\ ToUint32 (checksum_sum (bs_agg st'))
         = ToUint32 (checksum_sum (bs_agg st) + sumZ (map fnv1a32 l))
  | Throw e, Throw e' => e = e'
  | _, _ => False
  end.
Proof.
  revert st. induction l as [|s l IH]; intros st; simpl.
  - split; [set_solver|]. split; [lia|]. f_equal. lia.
  - rewrite process_record_view. destruct (record_view s) as [[dev alarm]|e]; simpl; [|reflexivity].
    specialize (IH (mkBatchState (agg_update (bs_agg st) dev alarm (fnv1a32 s))
                                 (if alarm then bs_alarmCount st + 1 else bs_alarmCount st)%Z)).
    destruct (process_all _ l) as [st'|e]; destruct (rmapM record_view l) as [vs|e'];
      simpl in *; try contradiction; [|exact IH].
    destruct IH as (Hdom & Hal & Hck). simpl in *. split; [|split].
    + rewrite Hdom, dom_agg_update. set_solver.
    + rewrite Hal. destruct alarm; simpl; lia.
    + rewrite Hck. unfold ToUint32. rewrite <- Z.add_mod_idemp_l by lia.
      fold (ToUint32 (checksum_sum (agg_update (bs_agg st) dev alarm (fnv1a32 s)))).
      rewrite checksum_sum_update. unfold ToUint32.
      rewrite Z.add_mod_idemp_l by lia. f_equal. lia.
Qed.

Lemma process_record_inv (n : Z) (st st' : BatchState) (s : string) :
  batch_inv n st -> process_record st s = Ok st' -> batch_inv (n + 1)%Z st'.
Proof.
  intros Hinv. rewrite process_record_view.
  destruct (record_view s) as [[dev alarm]|e]; simpl; [|discriminate].
  intros [= <-]. now apply agg_update_inv.
Qed.

Lemma batch_inv_init : batch_inv 0 BatchState_init.
Proof. split; [apply map_Forall_empty|]. split; reflexivity. Qed.

(** What the invariant bounds: the devices are at most the records, the
    alarms at most the records. *)
Lemma batch_inv_bounds (n : Z) (st : BatchState) :
  batch_inv n st ->
  (Z.of_nat (size (bs_agg st)) <= n /\ 0 <= bs_alarmCount st <= n)%Z.
Proof.
  intros (Hwf & Hc & Ha). apply map_Forall_to_list in Hwf.
  rewrite <- Hc, <- Ha. unfold agg_total. rewrite <- length_map_to_list. split.
  - apply sumZ_map_ge_length. eapply Forall_impl; [exact Hwf|]. intros [k a] (? & ? & ?); simpl in *; lia.
  - split.
    + apply sumZ_nonneg, Forall_map. eapply Forall_impl; [exact Hwf|]. intros [k a] (? & ? & ?); simpl in *; lia.
    + apply sumZ_map_le. eapply Forall_impl; [exact Hwf|]. intros [k a] (? & ? & ?); simpl in *; lia.
Qed.

Lemma process_all_batch_inv (n : Z) (st st' : BatchState) (l : list string) :
  batch_inv n st -> process_all st l = Ok st' -> batch_inv (n + Z.of_nat (List.length l))%Z st'.
Proof.
  revert n st. induction l as [|s l IH]; intros n st Hinv; simpl.
  - intros [= <-]. now rewrite Z.add_0_r.
  - destruct (process_record st s) as [st1|e] eqn:Hs; simpl; [|discriminate].
    intros Hl. rewrite Nat2Z.inj_succ, <- Z.add_1_l, Z.add_assoc.
    exact (IH _ _ (process_record_inv _ _ _ _ Hinv Hs) Hl).
Qed.

(** A record in front of the others: the spec after one step of the
    update. *)
Lemma dev_spec_cons (a : option DevAgg) (alarm : bool) (h : Z) (rs : list (bool * Z)) :
  dev_spec a ((alarm, h) :: rs)
  = dev_spec (Some (let b := default DevAgg_init a in
                    mkDevAgg (agg_count b + 1) (if alarm then agg_alarms b + 1 else agg_alarms b)
                             (ToUint32 (agg_checksum b + h)))) rs.
Proof.
  destruct rs as [|r rs]; cbn [dev_spec default id agg_count agg_alarms agg_checksum List.length List.filter fst map snd sumZ];
    destruct alarm; cbn [List.length List.filter fst agg_alarms]; f_equal; f_equal;
    rewrite ?Z.add_0_r, ?ToUint32_add_l; first [reflexivity | lia | f_equal; lia].
Qed.

Lemma dev_records_cons (dev d : string) (alarm : bool) (vs : list (string * bool))
    (h : Z) (hs : list Z) :
  dev_records dev ((d, alarm) :: vs) (h :: hs)
  = if String.eqb d dev then (alarm, h) :: dev_records dev vs hs else dev_records dev vs hs.
Proof. unfold dev_records. cbn. now destruct (String.eqb d dev). Qed.

(** One update changes only the entry of its device, by one step of the
    spec. *)
Lemma agg_update_lookup (m : gmap string DevAgg) (d dev : string) (alarm : bool) (h : Z)
    (rs : list (bool * Z)) :
  dev_spec (agg_update m d alarm h !! dev) rs
  = dev_spec (m !! dev) (if String.eqb d dev then (alarm, h) :: rs else rs).
Proof.
  unfold agg_update. destruct (String.eqb_spec d dev) as [<-|Hne].
  - rewrite lookup_insert_eq, dev_spec_cons. reflexivity.
  - rewrite lookup_insert_ne by exact Hne. reflexivity.
Qed.

Lemma process_all_lookup (st st' : BatchState) (l : list string) (vs : list (string * bool)) :
  process_all st l = Ok st' -> rmapM record_view l = Ok vs ->
  forall dev, bs_agg st' !! dev = dev_spec (bs_agg st !! dev) (dev_records dev vs (map fnv1a32 l)).
Proof.
  revert st vs. induction l as [|s l IH]; intros st vs Hp Hv dev; simpl in Hp, Hv.
  - injection Hp as <-. injection Hv as <-. reflexivity.
  - rewrite process_record_view in Hp.
    destruct (record_view s) as [[d alarm]|e]; simpl in Hp, Hv; [|discriminate].
    destruct (rmapM record_view l) as [vs'|e]; simpl in Hv; [|discriminate].
    injection Hv as <-. rewrite (IH _ vs' Hp eq_refl dev). cbn [bs_agg map].
    rewrite dev_records_cons. apply agg_update_lookup.
Qed.

(** ** Theorems on [processBatch] *)

(** [processBatch] on payloads that all pass: the specification's result. *)
Lemma processBatch_views (payloads : list string) (vs : list (string * bool)) :
  rmapM record_view payloads = Ok vs -> processBatch payloads = Ok (batch_spec vs payloads).
Proof.
  intros Hv. unfold processBatch. pose proof (process_all_spec BatchState_init payloads) as H.
  rewrite Hv in H. destruct (process_all _ _) as [st|e]; [|contradiction].
  destruct H as (Hdom & Hal & Hck). unfold batch_spec. simpl.
  assert (Hs : size (bs_agg st) = size (list_to_set (map fst vs) : gset string))
    by (rewrite <- size_dom, Hdom; f_equal; set_solver).
  rewrite Hs, Hal, Hck. reflexivity.
Qed.

(** [processBatch] on payloads one of which fails: the first exception. *)
Lemma processBatch_throw (payloads : list string) (e : exn) :
  rmapM record_view payloads = Throw e -> processBatch payloads = Throw e.
Proof.
  intros Hv. unfold processBatch. pose proof (process_all_spec BatchState_init payloads) as H.
  rewrite Hv in H. destruct (process_all _ _) as [st|e']; simpl in H; [contradiction|].
  now subst.
Qed.

(** C1: [processBatch] refines its specification: it throws exactly the
    first exception a payload raises, and otherwise returns the number of
    distinct device ids, the number of alarm records, and the 32-bit sum
    of the FNV-1a hashes of all payloads, whatever the grouping by device. *)
Theorem processBatch_spec (payloads : list string) :
  processBatch payloads = (views <- rmapM record_view payloads ;; Ok (batch_spec views payloads)).
Proof.
  destruct (rmapM record_view payloads) as [vs|e] eqn:Hv; simpl.
  - now apply processBatch_views.
  - now apply processBatch_throw.
Qed.

(** C11: The loop of [processBatch] keeps the invariant of the per-device
    map [agg]: if every entry is well formed (at least one record, at most
    one alarm per record, a [>>> 0] checksum) and the counts add up to the
    [n] records seen and the alarms to [alarmCount], then after the
    payloads [l] (when none throws) the same holds with [n + l.length]. *)
Theorem process_all_inv (n : Z) (st : BatchState) (l : list string) :
  batch_inv n st ->
  match process_all st l with
  | Ok st' => batch_inv (n + Z.of_nat (List.length l))%Z st'
  | Throw _ => True
  end.
Proof.
  intros Hinv. destruct (process_all st l) as [st'|e] eqn:Hl; [|exact I].
  exact (process_all_batch_inv _ _ _ _ Hinv Hl).
Qed.

(** C12: The per-device map [agg] that [processBatch] builds is the
    group-by of the batch by device id (the DeviceAggregate of the
    specification): when every payload passes, the loop ends, and the
    entry of every device is its number of records, its number of alarm
    records and the [>>> 0] sum of the FNV-1a hashes of its payloads; a
    device without records has no entry. *)
Theorem processBatch_device_agg (l : list string) (vs : list (string * bool)) :
  rmapM record_view l = Ok vs ->
  exists st, process_all BatchState_init l = Ok st
             /\ forall dev, bs_agg st !! dev = dev_spec None (dev_records dev vs (map fnv1a32 l)).
Proof.
  intros Hv. pose proof (process_all_spec BatchState_init l) as H. rewrite Hv in H.
  destruct (process_all BatchState_init l) as [st|e] eqn:Hp; [|contradiction].
  exists st. split; [reflexivity|]. intros dev.
  rewrite (process_all_lookup _ _ _ _ Hp Hv dev). reflexivity.
Qed.

(** ** Lemmas on generated payloads *)

(** Status ["ALARM"] is only given to records hotter than 95, so a
    generated record is an alarm exactly when its temperature exceeds 95. *)
Definition gen_alarm (i : nat) : bool := Nat.ltb 95 (i mod 120).

Lemma is_alarm_gen (i : nat) : is_alarm (Z.of_nat (i mod 120)) (gen_status i) = gen_alarm i.
Proof.
  unfold is_alarm, gen_status, gen_alarm.
  destruct (Nat.ltb_spec 95 (i mod 120)); destruct (Z.ltb_spec 95 (Z.of_nat (i mod 120)));
    try lia; reflexivity.
Qed.

Lemma validate_record (dev : string) (now temp : Z) (status payload : string) :
  validate (JObj [("deviceId", JStr dev); ("ts", JNum now); ("temp", JNum temp);
                  ("status", JStr status); ("payload", JStr payload)])
  = Ok (dev, temp, status).
Proof. reflexivity. Qed.

Lemma record_view_gen (now : Z) (devices i : nat) :
  record_view (stringify (telemetry_record now devices i))
  = Ok (device_name devices i, gen_alarm i).
Proof.
  unfold record_view. rewrite JSON_parse_stringify. unfold telemetry_record.
  rewrite rbind_ok, validate_record, rbind_ok. cbv beta iota.
  now rewrite is_alarm_gen.
Qed.

Lemma rmapM_record_view_gen (clock : nat -> Z) (n devices : nat) :
  rmapM record_view (genPayloads clock n devices)
  = Ok (map (fun i => (device_name devices i, gen_alarm i)) (seq 0 n)).
Proof.
  unfold genPayloads. rewrite rmapM_map. apply rmapM_ok. intros i _. apply record_view_gen.
Qed.

Lemma device_name_mod (devices i : nat) :
  0 < devices -> device_name devices (i mod devices) = device_name devices i.
Proof.
  intros Hd. destruct devices as [|d]; [lia|]. unfold device_name.
  now rewrite Nat.Div0.mod_mod.
Qed.

Lemma device_name_inj (devices i j : nat) :
  i < devices -> j < devices -> device_name devices i = device_name devices j -> i = j.
Proof.
  intros Hi Hj. destruct devices as [|d]; [lia|]. unfold device_name.
  intros E. apply str_app_inv_head, int_to_string_inj_nonneg in E; [|lia|lia].
  rewrite !Nat.mod_small in E by lia. lia.
Qed.

(** The devices of the first [n] records are those of the first
    [min n devices]. *)
Lemma gen_devices_set (devices n : nat) :
  0 < devices ->
  (list_to_set (map (device_name devices) (seq 0 n)) : gset string)
  = list_to_set (map (device_name devices) (seq 0 (Nat.min n devices))).
Proof.
  intros Hd. apply set_eq. intros x. rewrite !elem_of_list_to_set, !list_elem_of_In, !in_map_iff.
  split; intros [i [<- Hi]]; apply in_seq in Hi.
  - exists (i mod devices). rewrite device_name_mod by exact Hd. split; [reflexivity|].
    apply in_seq. pose proof (Nat.Div0.mod_le i devices).
    pose proof (Nat.mod_upper_bound i devices ltac:(lia)). lia.
  - exists i. split; [reflexivity|]. apply in_seq. lia.
Qed.

Lemma gen_devices_size (devices n : nat) :
  0 < devices ->
  size (list_to_set (map (device_name devices) (seq 0 n)) : gset string) = Nat.min n devices.
Proof.
  intros Hd. rewrite gen_devices_set by exact Hd. rewrite size_list_to_set.
  - now rewrite length_map, length_seq.
  - apply NoDup_ListNoDup, NoDup_map_NoDup_ForallPairs; [|apply seq_NoDup].
    intros i j Hi Hj. apply in_seq in Hi, Hj. apply device_name_inj; lia.
Qed.

Lemma length_filter_snd {A : Type} (a : nat -> A) (p : nat -> bool) (l : list nat) :
  List.length (List.filter snd (map (fun i => (a i, p i)) l)) = List.length (List.filter p l).
Proof. induction l as [|i l IH]; simpl; [reflexivity|]. destruct (p i); simpl; lia. Qed.

(** The number of indices below [n] whose temperature [i % 120] exceeds 95. *)
Lemma count_gen_alarm (n : nat) :
  count_below gen_alarm n = 24 * (n / 120) + (n mod 120 - 96).
Proof.
  induction n as [|n IH]; [reflexivity|]. cbn [count_below]. rewrite IH. unfold gen_alarm.
  destruct (Nat.ltb_spec 95 (n mod 120));
    pose proof (Nat.div_mod n 120 ltac:(lia)); pose proof (Nat.mod_upper_bound n 120 ltac:(lia));
    pose proof (Nat.div_mod (S n) 120 ltac:(lia)); pose proof (Nat.mod_upper_bound (S n) 120 ltac:(lia));
    lia.
Qed.

(** The specification's result on the views of a generated batch. *)
Lemma batch_spec_gen (clock : nat -> Z) (n devices : nat) :
  0 < devices ->
  batch_spec (map (fun i => (device_name devices i, gen_alarm i)) (seq 0 n))
             (genPayloads clock n devices)
  = mkBatchResult (Nat.min n devices) (Z.of_nat (count_below gen_alarm n))
                  (ToUint32 (sumZ (map fnv1a32 (genPayloads clock n devices)))).
Proof.
  intros Hd. unfold batch_spec. rewrite map_map.
  replace (map (fun i => fst (device_name devices i, gen_alarm i)) (seq 0 n))
    with (map (device_name devices) (seq 0 n)) by (apply map_ext; reflexivity).
  rewrite gen_devices_size, length_filter_snd, count_below_filter by exact Hd.
  reflexivity.
Qed.

(** C3: Every batch that [genPayloads] produces is accepted by
    [processBatch], whatever the clock: it reports [min n devices] devices,
    one alarm for every index whose temperature [i % 120] exceeds 95, and
    the 32-bit sum of the hashes of the payloads. *)
Theorem processBatch_genPayloads (clock : nat -> Z) (n devices : nat) :
  0 < devices ->
  processBatch (genPayloads clock n devices)
  = Ok (mkBatchResult (Nat.min n devices) (Z.of_nat (count_below gen_alarm n))
                      (ToUint32 (sumZ (map fnv1a32 (genPayloads clock n devices))))).
Proof.
  intros Hd. rewrite (processBatch_views _ _ (rmapM_record_view_gen clock n devices)).
  now rewrite batch_spec_gen.
Qed.

(** ** Errors *)

Lemma conforms_telemetry (ms : list (string * json)) :
  conforms ms telemetry_schema <->
  typeof (lookup_member ms "deviceId") = TString /\ typeof (lookup_member ms "ts") = TNumber
  /\ typeof (lookup_member ms "temp") = TNumber /\ typeof (lookup_member ms "status") = TString.
Proof. unfold conforms, telemetry_schema. rewrite !Forall_cons, Forall_nil. cbn [fst snd]. tauto. Qed.

Lemma validate_obj_bad (ms : list (string * json)) :
  ~ conforms ms telemetry_schema -> validate (JObj ms) = Throw bad_record.
Proof.
  rewrite conforms_telemetry. intros Hnot. unfold validate, get_prop. rewrite !rbind_ok.
  destruct (lookup_member ms "deviceId") as [[]|] eqn:Hd; try reflexivity.
  rewrite rbind_ok.
  destruct (lookup_member ms "ts") as [[]|] eqn:Hts; try reflexivity.
  rewrite rbind_ok.
  destruct (lookup_member ms "temp") as [[]|] eqn:Htp; try reflexivity.
  rewrite rbind_ok.
  destruct (lookup_member ms "status") as [[]|] eqn:Hst; try reflexivity.
  exfalso. apply Hnot. repeat split.
Qed.

Lemma validate_obj_ok (ms : list (string * json)) :
  conforms ms telemetry_schema -> exists r, validate (JObj ms) = Ok r.
Proof.
  rewrite conforms_telemetry. intros (Hd & Hts & Htp & Hst). unfold validate, get_prop.
  rewrite !rbind_ok. destruct (lookup_member ms "deviceId") as [[]|]; try discriminate.
  rewrite rbind_ok. destruct (lookup_member ms "ts") as [[]|]; try discriminate.
  rewrite rbind_ok. destruct (lookup_member ms "temp") as [[]|]; try discriminate.
  rewrite rbind_ok. destruct (lookup_member ms "status") as [[]|]; try discriminate.
  eexists. reflexivity.
Qed.

(** C10: The validation of [processBatch] is a type check: it accepts a
    parsed value exactly when the value is an object whose members
    [deviceId], [ts], [temp] and [status] have the [typeof] of the record
    type [telemetry_schema]; [null] and every other value are rejected. *)
Theorem validate_typed (obj : json) :
  is_ok (validate obj) = true <-> exists ms, obj = JObj ms /\ conforms ms telemetry_schema.
Proof.
  destruct obj as [| | | | |ms];
    try (split; [intros H; vm_compute in H; discriminate | intros (? & [=] & _)]).
  split.
  - intros Hok. exists ms. split; [reflexivity|].
    destruct (decide (conforms ms telemetry_schema)) as [|Hn]; [assumption|].
    rewrite validate_obj_bad in Hok by exact Hn. discriminate.
  - intros (? & [= <-] & Hc). destruct (validate_obj_ok ms Hc) as (r & ->). reflexivity.
Qed.

(** C23: Every payload [genPayloads] serialises parses back to an object of
    the record type [telemetry_schema]. *)
Theorem genPayloads_typed (clock : nat -> Z) (n devices : nat) :
  Forall (fun s => exists ms, JSON_parse s = Ok (JObj ms) /\ conforms ms telemetry_schema)
         (genPayloads clock n devices).
Proof.
  unfold genPayloads. apply Forall_map, Forall_forall. intros i _.
  eexists. split; [apply JSON_parse_stringify|]. apply conforms_telemetry. repeat split.
Qed.

(** C24: A payload that parses to an object failing one of the [typeof]
    tests of [processBatch] (a [deviceId] that is not a string, a [ts] or
    [temp] that is not a number, a [status] that is not a string or is
    missing) is rejected with [new Error('bad record')]. *)
Theorem record_view_bad_fields (s : string) (ms : list (string * json)) :
  JSON_parse s = Ok (JObj ms) -> ~ conforms ms telemetry_schema -> record_view s = Throw bad_record.
Proof.
  intros Hp Hbad. unfold record_view. rewrite Hp, rbind_ok, validate_obj_bad by exact Hbad.
  reflexivity.
Qed.

(** C25: A payload that parses to [null] makes [processBatch] throw a
    [TypeError] (the read [obj.deviceId] of [null]) rather than the
    validation error [new Error('bad record')], whatever comes after it. *)
Theorem processBatch_null_payload (l1 l2 : list string) (vs : list (string * bool)) (s : string) :
  rmapM record_view l1 = Ok vs -> JSON_parse s = Ok JNull ->
  processBatch (l1 ++ s :: l2) = Throw TypeError.
Proof.
  intros H1 Hs. apply processBatch_throw. rewrite rmapM_app, H1. simpl.
  unfold record_view. now rewrite Hs.
Qed.

(** ** Witnesses *)

Lemma processBatch_genPayloads_witness :
  0 < 1000 /\
  processBatch (genPayloads (fun _ => 1700000000000%Z) 3 1000)
  = Ok (mkBatchResult (Nat.min 3 1000) (Z.of_nat (count_below gen_alarm 3))
          (ToUint32 (sumZ (map fnv1a32 (genPayloads (fun _ => 1700000000000%Z) 3 1000))))).
Proof. split; [lia|]. apply processBatch_genPayloads. lia. Defined.

(** The first record of the specification's examples: [deviceId] is a number. *)
Definition bad_device_record : json :=
  JObj [("deviceId", JNum 5); ("ts", JNum 1); ("temp", JNum 20); ("status", JStr "OK")].

Lemma record_view_bad_fields_witness :
  JSON_parse (stringify bad_device_record)
    = Ok (JObj [("deviceId", JNum 5); ("ts", JNum 1); ("temp", JNum 20); ("status", JStr "OK")])
  /\ record_view (stringify bad_device_record) = Throw bad_record.
Proof.
  split; [apply JSON_parse_stringify|].
  apply (record_view_bad_fields _ [("deviceId", JNum 5); ("ts", JNum 1); ("temp", JNum 20);
                                   ("status", JStr "OK")]).
  - apply JSON_parse_stringify.
  - intros (Hd & _)%conforms_telemetry. discriminate Hd.
Defined.

Lemma processBatch_null_payload_witness :
  rmapM record_view [] = Ok [] /\ JSON_parse " null" = Ok JNull /\
  processBatch ([] ++ " null" :: genPayloads (fun _ => 0%Z) 1 1000) = Throw TypeError.
Proof.
  split; [reflexivity|]. split; [reflexivity|].
  apply (processBatch_null_payload [] _ []); reflexivity.
Defined.

Lemma process_all_inv_witness :
  batch_inv 0 BatchState_init /\
  match process_all BatchState_init (genPayloads (fun _ => 1700000000000%Z) 3 2) with
  | Ok st' => batch_inv (0 + Z.of_nat (List.length (genPayloads (fun _ => 1700000000000%Z) 3 2)))%Z st'
  | Throw _ => True
  end.
Proof. split; [exact batch_inv_init|]. apply process_all_inv. exact batch_inv_init. Defined.

Definition bounds_batch : list string := genPayloads (fun _ => 1700000000000%Z) 3 2.

Lemma processBatch_device_agg_witness :
  rmapM record_view bounds_batch = Ok [("dev-0", false); ("dev-1", false); ("dev-0", false)] /\
  exists st, process_all BatchState_init bounds_batch = Ok st
             /\ forall dev, bs_agg st !! dev
                            = dev_spec None (dev_records dev [("dev-0", false); ("dev-1", false);
                                                              ("dev-0", false)]
                                                         (map fnv1a32 bounds_batch)).
Proof.
  assert (H : rmapM record_view bounds_batch
              = Ok [("dev-0", false); ("dev-1", false); ("dev-0", false)])
    by (vm_compute; reflexivity).
  split; [exact H|]. exact (processBatch_device_agg _ _ H).
Defined.
