(* ===== verification/WorkerPool.v ===== *)
(** * The fan-out of work to worker threads, shared by both benchmarks

    [runWorkers] in [src/bench_node.js] (lines 86-104) and in
    [src/bench_algo_node.js] (lines 134-173) split the work the same way:
    [per = Math.floor(total / workers)] units for each worker, and one
    worker started for each [w = 0, 1, ...] with [w < workers], where
    [workers] is the JavaScript number [+process.env.WORKERS || 1]. The
    result of [+process.env.WORKERS] is an [env_number] (a finite number,
    which is a rational [Q] since it comes from a decimal string, an
    infinity, or [NaN]; the parsing of the string itself is not modelled),
    [or_one] is the [|| 1], [spawn_ids] is the [for] loop with fuel, its
    counter a double ([js_incr]: [w++] is exact below [2^53] and gives
    [2^53] again at [2^53]), [per_worker] floors the double quotient
    [Double.fl (total / workers)], and
    [fan_out] applies the shard function of a benchmark to every worker
    ordinal and [per], in array order, or is [None] when the loop does not
    end.

    The lemmas give the loop in closed form: for a finite count the
    workers started are [0 .. ceil(workers) - 1], which is [workers]
    ordinals only for an integral count, as long as the count is at most
    [2^53] ([spawn_ends]); for [+Infinity] and for a count above [2^53] no
    fuel is enough ([spawn_ids_infinity], [spawn_ids_huge]). [per] is the
    integer quotient for an integral count and a total below [2^53], and
    the exact floor or the next integer for a fractional one
    ([per_worker_double]).
    The class [ShardReport]/[HonestShard] states what a worker promises the
    coordinator (its message reports the units it was given), from which
    the coordinator's unit total follows for both benchmarks. *)

From Stdlib Require Import ZArith Lia List QArith Qround.
From S2P Require Import Prelude Double.
Import ListNotations.

Local Open Scope Z_scope.

(** [+process.env.WORKERS], the result of ToNumber on the variable: a
    finite number, an infinity or [NaN] (an unset or non-numeric
    variable). *)
Inductive env_number :=
  | ENum (q : Q)
  | EInf (pos : bool)
  | ENaN.

(** The worker count: a finite number or an infinity. *)
Inductive workers_num :=
  | WNum (q : Q)
  | WInf (pos : bool).

(** [x || 1]: the falsy numbers [NaN] and [0] give [1]. *)
Definition or_one (x : env_number) : workers_num :=
  match x with
  | ENum q => if Qeq_bool q 0 then WNum 1 else WNum q
  | EInf b => WInf b
  | ENaN => WNum 1
  end.

(** [workers <= 1]. *)
Definition workers_le1 (x : workers_num) : bool :=
  match x with
  | WNum q => Qle_bool q 1
  | WInf b => negb b
  end.

(** [w < workers]. *)
Definition w_lt (w : nat) (x : workers_num) : bool :=
  match x with
  | WNum q => if Qlt_le_dec (inject_Z (Z.of_nat w)) q then true else false
  | WInf b => b
  end.

(** When [runWorkers] finishes starting its workers: a finite count up to
    [2^53] (a count of at most 1 starts none), or [-Infinity]. *)
Definition spawn_ends (x : workers_num) : bool :=
  match x with
  | WNum q => Qle_bool q (inject_Z MAX_SAFE)
  | WInf b => negb b
  end.

(** [w++] on the double [w]: exact below [2^53], where [2^53 + 1] rounds
    back to [2^53], so the counter stops there. *)
Definition js_incr (w : nat) : nat := if (Z.of_nat w <? MAX_SAFE)%Z then S w else w.

(** [for (let w = 0; w < workers; w++)]: the ordinals of the workers
    started; [None] when the fuel runs out before the loop ends. *)
Fixpoint spawn_ids (fuel : nat) (w : nat) (workers : workers_num) : option (list nat) :=
  match fuel with
  | O => None
  | S f => if w_lt w workers then option_map (cons w) (spawn_ids f (js_incr w) workers)
           else Some []
  end.

(** Enough fuel for the [for] loop over a finite count up to [2^53]: it
    stops before [ceil(workers) + 1]. No fuel suffices for [+Infinity]
    ([spawn_ids_infinity]) or a count above [2^53] ([spawn_ids_huge]). *)
Definition spawn_fuel (workers : workers_num) : nat :=
  match workers with
  | WNum q => S (Z.to_nat (Qceiling q))
  | WInf _ => 1
  end.

(** [const per = Math.floor(total / workers)]: the floor of the double
    nearest to the quotient; [total / Infinity] is [0]. *)
Definition per_worker (total : Z) (workers : workers_num) : Z :=
  match workers with
  | WNum q => Qfloor (fl (inject_Z total / q))
  | WInf _ => 0
  end.

(** The coordinator's fan-out: the shard of each worker started. *)
Definition fan_out {A : Type} (workers : workers_num) (total : Z) (shard : nat -> Z -> A)
    : option (list A) :=
  option_map (map (fun w => shard w (per_worker total workers)))
             (spawn_ids (spawn_fuel workers) O workers).

(** ** The worker count *)

Lemma inject_Z_lt_Qceiling (z : Z) (q : Q) : (inject_Z z < q)%Q <-> z < Qceiling q.
Proof.
  split; intros H.
  - pose proof (Qle_ceiling q) as Hc.
    assert (Hz : (inject_Z z < inject_Z (Qceiling q))%Q) by (eapply Qlt_le_trans; eauto).
    rewrite <- Zlt_Qlt in Hz. exact Hz.
  - pose proof (Qceiling_lt q) as Hc. eapply Qle_lt_trans; [|exact Hc].
    rewrite <- Zle_Qle. lia.
Qed.

Lemma spawn_ids_seq (fuel w : nat) (workers : Q) :
  Qceiling workers <= MAX_SAFE ->
  (Z.to_nat (Qceiling workers) - w < fuel)%nat ->
  spawn_ids fuel w (WNum workers) = Some (seq w (Z.to_nat (Qceiling workers) - w)).
Proof.
  intros Hmax. revert w. induction fuel as [|f IH]; intros w Hf; [lia|]. simpl.
  destruct (Qlt_le_dec (inject_Z (Z.of_nat w)) workers) as [Hlt|Hge].
  - apply inject_Z_lt_Qceiling in Hlt.
    replace (js_incr w) with (S w) by (unfold js_incr; destruct (Z.ltb_spec (Z.of_nat w) MAX_SAFE); lia).
    replace (Z.to_nat (Qceiling workers) - w)%nat
      with (S (Z.to_nat (Qceiling workers) - S w)) by lia.
    rewrite IH by lia. reflexivity.
  - assert (Hn : ~ Z.of_nat w < Qceiling workers)
      by (rewrite <- inject_Z_lt_Qceiling; apply Qle_not_lt; exact Hge).
    replace (Z.to_nat (Qceiling workers) - w)%nat with 0%nat by lia. reflexivity.
Qed.

(** The workers started by [runWorkers] for a count up to [2^53]:
    [0 .. ceil(workers) - 1]. *)
Lemma spawn_ids_all (workers : Q) :
  Qceiling workers <= MAX_SAFE ->
  spawn_ids (spawn_fuel (WNum workers)) O (WNum workers)
  = Some (seq 0 (Z.to_nat (Qceiling workers))).
Proof. intros H. rewrite spawn_ids_seq by (unfold spawn_fuel; lia || exact H). f_equal; f_equal; lia. Qed.

(** With [+Infinity] workers the loop never ends: every fuel runs out. *)
Lemma spawn_ids_infinity (fuel w : nat) : spawn_ids fuel w (WInf true) = None.
Proof. revert w. induction fuel as [|f IH]; intros w; [reflexivity|]. simpl. now rewrite IH. Qed.

(** Nor with a count above [2^53]: the counter stops at [2^53], which
    stays below the count. *)
Lemma spawn_ids_huge (fuel w : nat) (workers : Q) :
  (inject_Z MAX_SAFE < workers)%Q -> (Z.of_nat w <= MAX_SAFE)%Z ->
  spawn_ids fuel w (WNum workers) = None.
Proof.
  intros Hq. revert w. induction fuel as [|f IH]; intros w Hw; [reflexivity|]. simpl.
  destruct (Qlt_le_dec (inject_Z (Z.of_nat w)) workers) as [_|Hge].
  - rewrite IH; [reflexivity|]. unfold js_incr. destruct (Z.ltb_spec (Z.of_nat w) MAX_SAFE); lia.
  - exfalso. apply (Qlt_not_le _ _ Hq). eapply Qle_trans; [exact Hge|].
    rewrite <- Zle_Qle. exact Hw.
Qed.

Lemma fan_out_seq {A : Type} (workers : Q) (total : Z) (shard : nat -> Z -> A) :
  Qceiling workers <= MAX_SAFE ->
  fan_out (WNum workers) total shard
  = Some (map (fun w => shard w (per_worker total (WNum workers)))
              (seq 0 (Z.to_nat (Qceiling workers)))).
Proof. intros H. unfold fan_out. now rewrite spawn_ids_all. Qed.

Lemma Qfloor_nonneg_div (total : Z) (workers : Q) :
  0 <= total -> (0 < workers)%Q -> 0 <= per_worker total (WNum workers).
Proof.
  intros Ht Hw. unfold per_worker. apply Qfloor_fl_nonneg.
  apply Qle_shift_div_l; [exact Hw|]. rewrite Qmult_0_l. change 0%Q with (inject_Z 0). rewrite <- Zle_Qle. exact Ht.
Qed.

(** For an integral count the double floor is the integer quotient. *)
Lemma per_worker_int (total w : Z) :
  0 <= total < MAX_SAFE -> 0 < w -> per_worker total (WNum (inject_Z w)) = total / w.
Proof. intros Ht Hw. apply Qfloor_fl_div; lia. Qed.

Lemma Qceiling_inject_Z (w : Z) : Qceiling (inject_Z w) = w.
Proof.
  unfold Qceiling, Qfloor, Qopp, inject_Z. simpl. rewrite Z.div_1_r. lia.
Qed.

Lemma one_lt_inject_Z (w : Z) : 2 <= w -> (1 < inject_Z w)%Q.
Proof. intros Hw. change 1%Q with (inject_Z 1). rewrite <- Zlt_Qlt. lia. Qed.

Lemma Qceiling_le_max (q : Q) : Qle_bool q (inject_Z MAX_SAFE) = true -> Qceiling q <= MAX_SAFE.
Proof.
  intros H. apply Qle_bool_iff in H. rewrite <- (Qceiling_Z MAX_SAFE). now apply Qceiling_resp_le.
Qed.

(** A worker count that fails [workers <= 1] and whose loop ends is a
    finite number in [(1, 2^53]]. *)
Lemma or_one_gt1 (env : env_number) :
  spawn_ends (or_one env) = true -> workers_le1 (or_one env) = false ->
  exists q, or_one env = WNum q /\ (1 < q)%Q /\ Qceiling q <= MAX_SAFE.
Proof.
  destruct env as [q|[]|]; intros Hend Hle; cbn [or_one workers_le1 spawn_ends negb] in Hle, Hend |- *;
    try discriminate.
  destruct (Qeq_bool q 0); cbn [workers_le1 spawn_ends] in Hle, Hend; [discriminate|]. exists q.
  split; [reflexivity|]. split.
  - apply Qnot_le_lt. intros H. apply Qle_bool_iff in H. congruence.
  - now apply Qceiling_le_max.
Qed.

(** A count above [2^53]: the loop never ends. *)
Lemma or_one_huge (q : Q) : (inject_Z MAX_SAFE < q)%Q -> or_one (ENum q) = WNum q.
Proof.
  intros Hq. cbn. destruct (Qeq_bool q 0) eqn:E; [|reflexivity].
  apply Qeq_bool_iff in E. rewrite E in Hq. discriminate.
Qed.

(** ** What a worker promises the coordinator *)

(** The field of a worker's message that reports how many units it
    processed: [r.total] for the telemetry workers, [r.sensors] for the
    risk workers. *)
Class ShardReport (Msg : Type) := units : Msg -> Z.

(** A shard function is honest when its message reports the units it was
    given. *)
Class HonestShard {Msg : Type} `{ShardReport Msg} (shard : nat -> Z -> Msg) :=
  shard_units : forall w per, units (shard w per) = per.

(** The coordinator's [results.reduce((t, r) => t + r.<units>, 0)] over an
    honest fan-out: [ceil(workers)] shards of [per] units. *)
Lemma fan_out_units {Msg : Type} `{ShardReport Msg} (shard : nat -> Z -> Msg)
    `{!HonestShard shard} (workers : Q) (total : Z) (results : list Msg) :
  Qceiling workers <= MAX_SAFE ->
  fan_out (WNum workers) total shard = Some results ->
  sumZ (map units results)
  = Z.of_nat (Z.to_nat (Qceiling workers)) * per_worker total (WNum workers).
Proof.
  intros Hmax. rewrite fan_out_seq by exact Hmax. intros E. injection E as <-. rewrite map_map.
  rewrite (map_ext _ (fun _ => per_worker total (WNum workers))) by (intros w; apply shard_units).
  now rewrite sumZ_map_const, length_seq.
Qed.

(** ** Theorems *)

(** C16: [per = Math.floor(total / workers)] floors the double quotient,
    not the exact one: for a total in [[0, 2^53)] and a count of at
    least 1 it is the exact floor or the next integer, and it is the
    integer quotient [total / w] for an integral count [w]. With
    [WORKERS=3.3333333333333335] the quotient [100 / W] is just below 30
    and rounds to the double 30, so each worker gets 30 units where the
    exact floor is 29. *)
Theorem per_worker_double (total : Z) (q : Q) :
  0 <= total < MAX_SAFE -> (1 <= q)%Q ->
  Qfloor (inject_Z total / q) <= per_worker total (WNum q) <= Qfloor (inject_Z total / q) + 1
  /\ (forall w, q = inject_Z w -> per_worker total (WNum q) = total / w).
Proof.
  intros Ht Hq. assert (Hq0 : (0 < q)%Q) by (eapply Qlt_le_trans; [|exact Hq]; reflexivity).
  split.
  - apply Qfloor_fl_bounds.
    + apply Qle_shift_div_l; [exact Hq0|]. rewrite Qmult_0_l.
      change 0%Q with (inject_Z 0). rewrite <- Zle_Qle. lia.
    + apply Qle_lt_trans with (inject_Z total); [|rewrite <- Zlt_Qlt; lia].
      apply Qle_shift_div_r; [exact Hq0|].
      rewrite <- (Qmult_1_l (inject_Z total)) at 1. rewrite (Qmult_comm (inject_Z total) q).
      apply Qmult_le_compat_r; [exact Hq|].
      change 0%Q with (inject_Z 0). rewrite <- Zle_Qle. lia.
  - intros w ->. apply per_worker_int; [exact Ht|].
    pose proof (Qceiling_resp_le 1 (inject_Z w) Hq) as H1. rewrite Qceiling_Z in H1.
    cbn in H1. lia.
Qed.

(** ** Witnesses *)

(** The double [+"3.3333333333333335"], [7505999378950827 / 2^51]. *)
Definition w_3_33 : Q := 7505999378950827 # 2251799813685248.

Lemma per_worker_double_witness :
  Qfloor (inject_Z 100 / w_3_33) = 29 /\ per_worker 100 (WNum w_3_33) = 30 /\
  0 <= 100 < MAX_SAFE /\ (1 <= w_3_33)%Q /\
  (Qfloor (inject_Z 100 / w_3_33) <= per_worker 100 (WNum w_3_33)
     <= Qfloor (inject_Z 100 / w_3_33) + 1
   /\ (forall w, w_3_33 = inject_Z w -> per_worker 100 (WNum w_3_33) = 100 / w)).
Proof.
  split; [vm_compute; reflexivity|]. split; [vm_compute; reflexivity|].
  assert (H1 : 0 <= 100 < MAX_SAFE) by (unfold MAX_SAFE; lia).
  assert (H2 : (1 <= w_3_33)%Q) by (unfold Qle; cbn; lia).
  split; [exact H1|]. split; [exact H2|]. apply per_worker_double; assumption.
Defined.
