(* ===== verification/TelemetryRun.v ===== *)
(** * The runs of [src/bench_node.js]: [runSingle], the worker body and
      [runWorkers]

    - [runSingle(total, batch)] (lines 70-84) repeats, while
      [processed < total], [n = Math.min(batch, total - processed)],
      [genPayloads(n)], [processBatch], and folds the batch checksum into
      [checksum] with [>>> 0]. The loop state is [LoopState]; [calls] counts
      the calls of [Date.now()] made so far, so that [clock (calls + i)] is
      the timestamp of record [i] of the next batch. [batch_loop] runs the
      loop with fuel: [None] is a loop that has not finished (the code would
      spin forever with [batch = 0]).
    - The worker body (lines 108-121) is the same loop with [batch = 10000]
      over [workerData.count] records; it posts [{ total, ms, checksum }].
    - [runWorkers(total, workers)] (lines 86-104) runs [runSingle] when
      [workers <= 1]; otherwise it gives each worker
      [per = Math.floor(total / workers)] records, starts one worker per
      [w = 0, 1, ...] with [w < workers] ([WorkerPool.fan_out]), and reduces
      the posted totals by [+] and the checksums by
      [(t + r.checksum) >>> 0]. The workers run in isolation, so each is a
      function of its own clock ([clocks w]); [Promise.all] is modelled in
      array order, with the first rejection winning.

    The loop is also a step relation: [loop_reach] holds of the states
    [while (processed < total)] reaches from the start, and [loop_inv] is
    the invariant every reachable state keeps (by rule induction).

    The theorems: every reachable state of the loop is safe (no exception,
    progress, [processed] within [[0, total]]) and a batch size of [0]
    spins while a negative one throws; the runs terminate and print the [>>> 0] sum of the
    hashes of every payload they generate ([run_payloads] lists them in
    closed form); a worker count of at most 1 (unset, [NaN], [0],
    [-Infinity]) is the single run over the default total; the split
    reports [total - total mod W] records for an integral [W] up to [2^53]
    (where the double quotient floors to the integer quotient) and
    [ceil(W) * per] in general, which exceeds [total] for [WORKERS=1.5];
    [WORKERS=Infinity] never ends the spawn loop; with a constant clock the split preserves the
    single-threaded checksum; the merge does not depend on the order of
    the results. Timings ([performance.now()], [ms], [rps]) are not
    modelled. *)

From Stdlib Require Import ZArith Lia List String QArith Qround Permutation.
From S2P Require Import Prelude Double JsNum Fnv Json Telemetry WorkerPool.
Import ListNotations.

Local Open Scope bench_scope.
Local Open Scope Z_scope.

Definition DEFAULT_TOTAL : Z := 1000000.
Definition DEFAULT_BATCH : Z := 10000.
Definition DEFAULT_DEVICES : nat := 1000.

(** ** The batch loop *)

Record LoopState := mkLoop { processed : Z; checksum : Z; calls : nat }.

Definition LoopState_init : LoopState := mkLoop 0 0 0.

(** The body of [while (processed < total)]; [new Array(n)] rejects a
    negative [n]. *)
Definition loop_step (clock : nat -> Z) (batch total : Z) (st : LoopState) : result LoopState :=
  let n := Z.min batch (total - processed st) in
  if n <? 0 then Throw RangeError
  else
    res <- processBatch (genPayloads (fun i => clock (calls st + i)%nat) (Z.to_nat n)
                                     DEFAULT_DEVICES) ;;
    Ok (mkLoop (processed st + n) (ToUint32 (checksum st + checksumTotal res))
               (calls st + Z.to_nat n)%nat).

Fixpoint batch_loop (fuel : nat) (clock : nat -> Z) (batch total : Z) (st : LoopState)
    : option (result LoopState) :=
  match fuel with
  | O => None
  | S f =>
      if processed st <? total then
        match loop_step clock batch total st with
        | Ok st' => batch_loop f clock batch total st'
        | Throw e => Some (Throw e)
        end
      else Some (Ok st)
  end.

(** The loop as a step relation: the states [while (processed < total)]
    reaches from [{processed: 0, checksum: 0}], one [loop_step] at a time
    while the test holds. *)
Inductive loop_reach (clock : nat -> Z) (batch total : Z) : LoopState -> Prop :=
  | reach_init : loop_reach clock batch total LoopState_init
  | reach_step (st st' : LoopState) :
      loop_reach clock batch total st -> processed st < total ->
      loop_step clock batch total st = Ok st' -> loop_reach clock batch total st'.

(** The invariant of the loop: [processed] stays in [[0, total]], the
    checksum is a [>>> 0] value, and the clock has been read once per
    record processed. *)
Definition loop_inv (total : Z) (st : LoopState) : Prop :=
  0 <= processed st <= total /\ 0 <= checksum st < 2 ^ 32
  /\ calls st = Z.to_nat (processed st).

(** The fuel of a run over [total] records: one iteration per record at
    most, and the final test. *)
Definition loop_fuel (total : Z) : nat := S (Z.to_nat total).

(** [runSingle(total, batch)]: the printed [total] and [checksum]. *)
Definition runSingle (clock : nat -> Z) (total batch : Z) : option (result (Z * Z)) :=
  match batch_loop (loop_fuel total) clock batch total LoopState_init with
  | Some (Ok st) => Some (Ok (total, checksum st))
  | Some (Throw e) => Some (Throw e)
  | None => None
  end.

(** The message a worker posts: [{ total, ms, checksum }] without [ms]. *)
Record WorkerResult := mkWorkerResult { wr_total : Z; wr_checksum : Z }.

(** The worker body, lines 108-121, over [workerData.count] records. *)
Definition worker_main (clock : nat -> Z) (count : Z) : option (result WorkerResult) :=
  match batch_loop (loop_fuel count) clock DEFAULT_BATCH count LoopState_init with
  | Some (Ok st) => Some (Ok (mkWorkerResult count (checksum st)))
  | Some (Throw e) => Some (Throw e)
  | None => None
  end.

(** ** The fan-out and fan-in *)

(** [Promise.all], in array order: the first rejection, or all values. *)
Fixpoint promise_all {A : Type} (ps : list (option (result A))) : option (result (list A)) :=
  match ps with
  | [] => Some (Ok [])
  | None :: _ => None
  | Some (Throw e) :: _ => Some (Throw e)
  | Some (Ok a) :: ps' =>
      match promise_all ps' with
      | Some (Ok l) => Some (Ok (a :: l))
      | r => r
      end
  end.

(** The printed summary: [workers] (absent for a single run), [total] and
    [checksum]. *)
Record RunOutput := mkRunOutput { out_workers : option workers_num; out_total : Z; out_checksum : Z }.

(** [(t, r) => (t + r.checksum) >>> 0] from [0]. *)
Definition merge_checksums (rs : list WorkerResult) : Z :=
  fold_left (fun t r => ToUint32 (t + wr_checksum r)) rs 0.

Definition runWorkers (clocks : nat -> nat -> Z) (total : Z) (workers : workers_num)
    : option (result RunOutput) :=
  if workers_le1 workers then
    match runSingle (clocks O) total DEFAULT_BATCH with
    | Some (Ok (t, ck)) => Some (Ok (mkRunOutput None t ck))
    | Some (Throw e) => Some (Throw e)
    | None => None
    end
  else
    match fan_out workers total (fun w per => worker_main (clocks w) per) with
    | None => None
    | Some ps =>
        match promise_all ps with
        | Some (Ok results) =>
            Some (Ok (mkRunOutput (Some workers) (sumZ (map wr_total results))
                                  (merge_checksums results)))
        | Some (Throw e) => Some (Throw e)
        | None => None
        end
    end.

(** The main thread: [runWorkers(1_000_000)] with the worker count
    [+process.env.WORKERS || 1]. *)
Definition main_thread (clocks : nat -> nat -> Z) (env : env_number) : option (result RunOutput) :=
  runWorkers clocks DEFAULT_TOTAL (or_one env).

(** ** The payloads of a run, in closed form *)

(** The number of batches over [rem] records: [ceil(rem / batch)]. *)
Definition nbatches (rem batch : nat) : nat := (rem + batch - 1) / batch.

(** The size of batch [k]. *)
Definition batch_len (rem batch k : nat) : nat := Nat.min batch (rem - k * batch).

(** Every payload a run over [rem] records generates, batch after batch;
    the records of each batch are numbered from 0, and batch [k] reads the
    clock from call [k * batch] on. *)
Definition run_payloads (clock : nat -> Z) (rem batch : nat) : list string :=
  flat_map (fun k => genPayloads (fun i => clock (k * batch + i)%nat) (batch_len rem batch k)
                                 DEFAULT_DEVICES)
           (seq 0 (nbatches rem batch)).

Lemma genPayloads_ext (c1 c2 : nat -> Z) (n d : nat) :
  (forall i, c1 i = c2 i) -> genPayloads c1 n d = genPayloads c2 n d.
Proof. intros H. unfold genPayloads. apply map_ext. intros i. now rewrite H. Qed.

Lemma nbatches_step (rem batch : nat) :
  (0 < batch)%nat -> (0 < rem)%nat -> nbatches rem batch = S (nbatches (rem - batch) batch).
Proof.
  intros Hb Hr. unfold nbatches.
  destruct (Nat.le_gt_cases batch rem) as [Hle|Hlt].
  - replace (rem + batch - 1)%nat with (1 * batch + (rem - batch + batch - 1))%nat by lia.
    rewrite Nat.div_add_l by lia. reflexivity.
  - replace (rem + batch - 1)%nat with (1 * batch + (rem - 1))%nat by lia.
    rewrite Nat.div_add_l, (Nat.div_small (rem - 1)) by lia.
    replace (rem - batch)%nat with 0%nat by lia. rewrite Nat.div_small by lia. reflexivity.
Qed.

Lemma run_payloads_step (clock : nat -> Z) (rem batch : nat) :
  (0 < batch)%nat -> (0 < rem)%nat ->
  run_payloads clock rem batch
  = genPayloads clock (Nat.min batch rem) DEFAULT_DEVICES
    ++ run_payloads (fun j => clock (batch + j)%nat) (rem - batch) batch.
Proof.
  intros Hb Hr. unfold run_payloads. rewrite nbatches_step by assumption.
  cbn [seq flat_map]. unfold batch_len at 1. rewrite Nat.mul_0_l, Nat.sub_0_r.
  f_equal.
  rewrite <- seq_shift, !flat_map_concat_map, map_map. f_equal. apply map_ext. intros k.
  unfold batch_len. replace (rem - S k * batch)%nat with (rem - batch - k * batch)%nat by lia.
  apply genPayloads_ext. intros i. f_equal. lia.
Qed.

Lemma run_payloads_nil (clock : nat -> Z) (batch : nat) :
  (0 < batch)%nat -> run_payloads clock 0 batch = [].
Proof. intros Hb. unfold run_payloads, nbatches. rewrite Nat.div_small by lia. reflexivity. Qed.

Lemma run_payloads_ext (c1 c2 : nat -> Z) (rem batch : nat) :
  (forall i, c1 i = c2 i) -> run_payloads c1 rem batch = run_payloads c2 rem batch.
Proof.
  intros H. unfold run_payloads. rewrite !flat_map_concat_map. f_equal.
  apply map_ext. intros k. apply genPayloads_ext. intros i. apply H.
Qed.

Lemma length_run_payloads (clock : nat -> Z) (rem batch : nat) :
  (0 < batch)%nat -> List.length (run_payloads clock rem batch) = rem.
Proof.
  intros Hb. revert clock. induction rem as [rem IH] using (well_founded_induction lt_wf).
  intros clock. destruct rem as [|r]; [now rewrite run_payloads_nil|].
  rewrite run_payloads_step, length_app by lia. unfold genPayloads.
  rewrite length_map, length_seq, IH by lia. lia.
Qed.

(** ** The loop and the workers *)

(** One iteration that does not throw: the batch of [n] generated records
    is accepted and its checksum folded in. *)
Lemma loop_step_ok (clock : nat -> Z) (batch total : Z) (st : LoopState) :
  0 <= Z.min batch (total - processed st) ->
  loop_step clock batch total st
  = Ok (mkLoop (processed st + Z.min batch (total - processed st))
          (ToUint32 (checksum st + ToUint32 (sumZ (map fnv1a32
             (genPayloads (fun i => clock (calls st + i)%nat)
                (Z.to_nat (Z.min batch (total - processed st))) DEFAULT_DEVICES)))))
          (calls st + Z.to_nat (Z.min batch (total - processed st)))%nat).
Proof.
  intros Hn. unfold loop_step. destruct (Z.ltb_spec (Z.min batch (total - processed st)) 0); [lia|].
  rewrite (processBatch_views _ _ (rmapM_record_view_gen _ _ _)).
  rewrite batch_spec_gen by (unfold DEFAULT_DEVICES; lia). reflexivity.
Qed.

(** An iteration from a state of the invariant, while [processed < total]
    and with [batch > 0], keeps the invariant and processes at least one
    record. *)
Lemma loop_inv_step (clock : nat -> Z) (batch total : Z) (st st' : LoopState) :
  0 < batch -> loop_inv total st -> processed st < total ->
  loop_step clock batch total st = Ok st' ->
  loop_inv total st' /\ processed st < processed st'.
Proof.
  intros Hb (Hp & Hck & Hc) Hlt Hs. rewrite loop_step_ok in Hs by lia.
  injection Hs as <-. unfold loop_inv. cbn [processed checksum calls].
  split; [|lia]. split; [lia|]. split; [apply ToUint32_range|]. lia.
Qed.

Lemma loop_reach_inv (clock : nat -> Z) (batch total : Z) (st : LoopState) :
  0 < batch -> 0 <= total -> loop_reach clock batch total st -> loop_inv total st.
Proof.
  intros Hb Ht Hr. induction Hr as [|st st' _ IH Hlt Hs].
  - unfold loop_inv. simpl. lia.
  - exact (proj1 (loop_inv_step _ _ _ _ _ Hb IH Hlt Hs)).
Qed.

(** The loop from a state with [rem] records left. *)
Lemma batch_loop_spec (clock : nat -> Z) (batch total : Z) (fuel : nat) (st : LoopState)
    (rem : nat) :
  0 < batch -> processed st + Z.of_nat rem = total -> 0 <= checksum st < 2 ^ 32 ->
  (rem < fuel)%nat ->
  batch_loop fuel clock batch total st
  = Some (Ok (mkLoop total
                (ToUint32 (checksum st + sumZ (map fnv1a32
                   (run_payloads (fun j => clock (calls st + j)%nat) rem (Z.to_nat batch)))))
                (calls st + rem)%nat)).
Proof.
  revert st rem. induction fuel as [|f IH]; intros [p ck c] rem Hb Hp Hck Hf; [lia|].
  simpl in Hp, Hck |- *. destruct (Z.ltb_spec p total) as [Hlt|Hge].
  - rewrite loop_step_ok by (simpl; lia). simpl.
    set (n := Z.to_nat (Z.min batch (total - p))).
    assert (Hn : n = Nat.min (Z.to_nat batch) rem) by (unfold n; lia).
    rewrite (IH _ (rem - n)%nat) by (simpl; try apply ToUint32_range; lia). simpl.
    rewrite (run_payloads_step _ rem) by lia. rewrite map_app, sumZ_app.
    f_equal. f_equal. f_equal.
    + rewrite ToUint32_add_l, ToUint32_add_mid, <- Z.add_assoc. rewrite <- Hn. f_equal. f_equal.
      f_equal. destruct (Nat.le_gt_cases (Z.to_nat batch) rem).
      * replace (rem - n)%nat with (rem - Z.to_nat batch)%nat by lia.
        do 2 f_equal. apply run_payloads_ext. intros j. f_equal. lia.
      * replace (rem - n)%nat with 0%nat by lia. replace (rem - Z.to_nat batch)%nat with 0%nat by lia.
        rewrite !run_payloads_nil by lia. reflexivity.
    + lia.
  - assert (rem = 0%nat) by lia. subst rem. rewrite run_payloads_nil by lia. simpl.
    rewrite Z.add_0_r, ToUint32_small by exact Hck. do 3 f_equal; lia.
Qed.

(** The run from the initial state, for any [total >= 0] and [batch > 0]:
    the fuel [loop_fuel total] is enough, since every iteration processes
    at least one record. *)
Lemma batch_loop_init (clock : nat -> Z) (batch total : Z) :
  0 < batch -> 0 <= total ->
  batch_loop (loop_fuel total) clock batch total LoopState_init
  = Some (Ok (mkLoop total
                (ToUint32 (sumZ (map fnv1a32 (run_payloads clock (Z.to_nat total) (Z.to_nat batch)))))
                (Z.to_nat total))).
Proof.
  intros Hb Ht. unfold loop_fuel.
  rewrite (batch_loop_spec _ _ _ _ _ (Z.to_nat total)) by (simpl; lia). simpl.
  reflexivity.
Qed.

Lemma worker_main_spec (clock : nat -> Z) (count : Z) :
  0 <= count ->
  worker_main clock count
  = Some (Ok (mkWorkerResult count
       (ToUint32 (sumZ (map fnv1a32 (run_payloads clock (Z.to_nat count) (Z.to_nat DEFAULT_BATCH))))))).
Proof.
  intros Hc. unfold worker_main. rewrite batch_loop_init by (unfold DEFAULT_BATCH; lia).
  reflexivity.
Qed.

Lemma promise_all_ok {A B : Type} (f : A -> B) (l : list A) :
  promise_all (map (fun x => Some (Ok (f x))) l) = Some (Ok (map f l)).
Proof. induction l as [|x l IH]; simpl; [reflexivity|]. now rewrite IH. Qed.

Lemma merge_checksums_from (t : Z) (rs : list WorkerResult) :
  0 <= t < 2 ^ 32 ->
  fold_left (fun t r => ToUint32 (t + wr_checksum r)) rs t
  = ToUint32 (t + sumZ (map wr_checksum rs)).
Proof.
  revert t. induction rs as [|r rs IH]; intros t Ht; simpl.
  - rewrite Z.add_0_r. symmetry. now apply ToUint32_small.
  - rewrite IH by apply ToUint32_range. rewrite ToUint32_add_l. f_equal. lia.
Qed.

Lemma merge_checksums_sum (rs : list WorkerResult) :
  merge_checksums rs = ToUint32 (sumZ (map wr_checksum rs)).
Proof. unfold merge_checksums. rewrite merge_checksums_from by lia. reflexivity. Qed.

(** The checksum a worker computes over [per] records read at [clock]. *)
Definition worker_checksum (clock : nat -> Z) (per : Z) : Z :=
  ToUint32 (sumZ (map fnv1a32 (run_payloads clock (Z.to_nat per) (Z.to_nat DEFAULT_BATCH)))).

Lemma runWorkers_ok (clocks : nat -> nat -> Z) (total : Z) (workers : Q) :
  0 <= total -> (1 < workers)%Q -> Qceiling workers <= MAX_SAFE ->
  runWorkers clocks total (WNum workers)
  = Some (Ok (mkRunOutput (Some (WNum workers))
       (Z.of_nat (Z.to_nat (Qceiling workers)) * per_worker total (WNum workers))
       (ToUint32 (sumZ (map (fun w => worker_checksum (clocks w) (per_worker total (WNum workers)))
                            (seq 0 (Z.to_nat (Qceiling workers)))))))).
Proof.
  intros Ht Hw Hmax. unfold runWorkers. cbn [workers_le1].
  destruct (Qle_bool workers 1) eqn:E.
  { apply Qle_bool_iff in E. exfalso. exact (Qlt_not_le _ _ Hw E). }
  pose proof (Qfloor_nonneg_div total workers Ht ltac:(eapply Qlt_trans; [|exact Hw]; reflexivity)).
  rewrite fan_out_seq by exact Hmax.
  rewrite (map_ext (fun w => worker_main (clocks w) (per_worker total (WNum workers)))
             (fun w => Some (Ok (mkWorkerResult (per_worker total (WNum workers))
                                   (worker_checksum (clocks w) (per_worker total (WNum workers)))))))
    by (intros w; apply worker_main_spec; exact H).
  rewrite promise_all_ok, merge_checksums_sum, !map_map. cbn [wr_total wr_checksum].
  rewrite sumZ_map_const, length_seq. reflexivity.
Qed.

(** The main thread finishes without an exception for every worker count
    whose spawn loop ends, with a [>>> 0] checksum. *)
Lemma main_thread_ok (clocks : nat -> nat -> Z) (env : env_number) :
  spawn_ends (or_one env) = true ->
  exists o, main_thread clocks env = Some (Ok o) /\ 0 <= out_checksum o < 2 ^ 32.
Proof.
  intros Henv. unfold main_thread. destruct (workers_le1 (or_one env)) eqn:Hle.
  - unfold runWorkers. rewrite Hle. unfold runSingle.
    rewrite batch_loop_init by (unfold DEFAULT_BATCH, DEFAULT_TOTAL; lia).
    eexists. split; [reflexivity|]. apply ToUint32_range.
  - destruct (or_one_gt1 env Henv Hle) as (q & -> & Hq & Hmax).
    rewrite runWorkers_ok by (first [unfold DEFAULT_TOTAL; lia | assumption]).
    eexists. split; [reflexivity|]. apply ToUint32_range.
Qed.

(** A run with a constant clock over [k * batch] records, one full batch at
    a time, sums [k] times the checksums of one batch. *)
Lemma run_payloads_const (c : Z) (k batch : nat) :
  (0 < batch)%nat ->
  sumZ (map fnv1a32 (run_payloads (fun _ => c) (k * batch) batch))
  = Z.of_nat k * sumZ (map fnv1a32 (genPayloads (fun _ => c) batch DEFAULT_DEVICES)).
Proof.
  intros Hb. induction k as [|k IH].
  - now rewrite Nat.mul_0_l, run_payloads_nil.
  - rewrite run_payloads_step by lia. rewrite map_app, sumZ_app.
    replace (Nat.min batch (S k * batch)) with batch by lia.
    replace (S k * batch - batch)%nat with (k * batch)%nat by lia.
    rewrite IH. lia.
Qed.

(** ** Theorems on the runs *)

(** C4: [runSingle(total, batch)] terminates for every [total >= 0] and
    [batch > 0] and prints [total] with the checksum: the [>>> 0] sum of the
    FNV-1a hashes of all the payloads the run generates, batch after batch. *)
Theorem runSingle_spec (clock : nat -> Z) (total batch : Z) :
  0 <= total -> 0 < batch ->
  runSingle clock total batch
  = Some (Ok (total, ToUint32 (sumZ (map fnv1a32
                (run_payloads clock (Z.to_nat total) (Z.to_nat batch)))))).
Proof. intros Ht Hb. unfold runSingle. now rewrite batch_loop_init. Qed.

(** C30: With [WORKERS] unset or not a number, [0], any number up to 1
    (negative ones included) or [-Infinity], [+x || 1] gives a count the
    test [workers <= 1] accepts, and the main thread runs
    [runSingle(1000000)] with the default batch: its summary has no
    [workers] field, reports 1000000 records, and its checksum is the
    [>>> 0] image of the sum of the hashes of every payload generated
    with the clock of the main thread. A count of exactly 1 is in this
    case. *)
Theorem main_thread_single (clocks : nat -> nat -> Z) (env : env_number) :
  match env with ENum q => (q <= 1)%Q | EInf b => b = false | ENaN => True end ->
  main_thread clocks env
  = Some (Ok (mkRunOutput None DEFAULT_TOTAL (ToUint32 (sumZ (map fnv1a32
       (run_payloads (clocks O) (Z.to_nat DEFAULT_TOTAL) (Z.to_nat DEFAULT_BATCH))))))).
Proof.
  intros Henv. assert (Hle : workers_le1 (or_one env) = true).
  { destruct env as [q|b|]; cbn [or_one workers_le1]; [|subst; reflexivity|reflexivity].
    destruct (Qeq_bool q 0); [reflexivity|]. cbn [workers_le1]. now apply Qle_bool_iff. }
  unfold main_thread, runWorkers. rewrite Hle. unfold runSingle.
  rewrite batch_loop_init by (unfold DEFAULT_BATCH, DEFAULT_TOTAL; lia). reflexivity.
Qed.

(** C14: With an integral worker count [W >= 2], the run processes and
    reports [W * floor(total / W)] records, which is [total - total mod W]:
    when [W] does not divide [total], [total mod W] records are dropped. *)
Theorem runWorkers_int_total (clocks : nat -> nat -> Z) (total w : Z) :
  0 <= total < MAX_SAFE -> 2 <= w <= MAX_SAFE ->
  exists ck, runWorkers clocks total (WNum (inject_Z w))
             = Some (Ok (mkRunOutput (Some (WNum (inject_Z w))) (total - total mod w) ck)).
Proof.
  intros Ht Hw. rewrite runWorkers_ok by (try apply one_lt_inject_Z; rewrite ?Qceiling_inject_Z; lia).
  rewrite Qceiling_inject_Z, per_worker_int by lia.
  eexists. do 3 f_equal. rewrite Z2Nat.id by lia. rewrite Z.mod_eq by lia. lia.
Qed.

(** C15: A fractional worker count is not rounded: with [WORKERS=1.5] the
    loop [for (w = 0; w < 1.5; w++)] starts 2 workers, each over
    [floor(1000000 / 1.5) = 666666] records, and the run reports 1333332
    records for a requested total of 1000000. *)
Example runWorkers_fractional_total (clocks : nat -> nat -> Z) :
  exists ck, main_thread clocks (ENum (3 # 2))
             = Some (Ok (mkRunOutput (Some (WNum (3 # 2))) 1333332 ck)).
Proof.
  unfold main_thread. change (or_one (ENum (3 # 2))) with (WNum (3 # 2)).
  rewrite runWorkers_ok by (unfold DEFAULT_TOTAL; first [lia | reflexivity | now apply Qceiling_le_max]).
  eexists. reflexivity.
Qed.


(** C31: The reduction of the worker checksums does not depend on the order
    of the results: it is the [>>> 0] image of their sum. *)
Theorem merge_checksums_perm (rs1 rs2 : list WorkerResult) :
  Permutation rs1 rs2 -> merge_checksums rs1 = merge_checksums rs2.
Proof.
  intros HP. rewrite !merge_checksums_sum. f_equal. apply sumZ_perm.
  now apply Permutation_map.
Qed.

(** C20: When every call of [Date.now()] returns the same time, a run over
    [W * k * 10000] records with [W >= 2] integral workers reports the same
    total and the same checksum as the single-threaded run: each worker
    generates whole batches of 10000 records numbered from 0, as
    [runSingle] does. *)
Theorem runWorkers_const_clock (c w k : Z) :
  2 <= w <= MAX_SAFE -> 0 <= k -> w * k * DEFAULT_BATCH < MAX_SAFE ->
  exists ck,
    runWorkers (fun _ _ => c) (w * k * DEFAULT_BATCH) (WNum (inject_Z w))
    = Some (Ok (mkRunOutput (Some (WNum (inject_Z w))) (w * k * DEFAULT_BATCH) ck))
    /\ runSingle (fun _ => c) (w * k * DEFAULT_BATCH) DEFAULT_BATCH
       = Some (Ok (w * k * DEFAULT_BATCH, ck)).
Proof.
  intros Hw Hk Ht. unfold DEFAULT_BATCH in *.
  rewrite runWorkers_ok by (try apply one_lt_inject_Z; rewrite ?Qceiling_inject_Z; lia).
  rewrite Qceiling_inject_Z, per_worker_int by lia.
  replace (w * k * 10000 / w) with (k * 10000) by (rewrite <- Z.mul_assoc, (Z.mul_comm w), Z.div_mul; lia).
  unfold runSingle. rewrite batch_loop_init by nia.
  unfold worker_checksum, DEFAULT_BATCH. cbn beta.
  rewrite sumZ_map_const, length_seq, ToUint32_mul_r.
  rewrite !(Z2Nat.inj_mul _ 10000), !run_payloads_const by nia.
  rewrite !Z2Nat.id by nia.
  eexists. split; [|reflexivity]. cbn [checksum]. rewrite !Z.mul_assoc. reflexivity.
Qed.

(** C9: Safety of the batch loop of [runSingle] and of the worker body:
    with [batch > 0] and [total >= 0], every state the loop reaches keeps
    [0 <= processed <= total], a [>>> 0] checksum and one clock read per
    record, and from every reached state with [processed < total] the next
    iteration neither throws (no [RangeError] from [new Array(n)], no
    rejected record) nor stalls: it processes at least one record. *)
Theorem loop_reach_safe (clock : nat -> Z) (batch total : Z) (st : LoopState) :
  0 < batch -> 0 <= total -> loop_reach clock batch total st ->
  loop_inv total st
  /\ (processed st < total ->
      exists st', loop_step clock batch total st = Ok st' /\ processed st < processed st').
Proof.
  intros Hb Ht Hr. pose proof (loop_reach_inv _ _ _ _ Hb Ht Hr) as Hinv. split; [exact Hinv|].
  intros Hlt. destruct Hinv as (Hp & _).
  eexists. split; [apply loop_step_ok; lia|]. simpl. lia.
Qed.

(** The loop with [batch = 0] and records left does not move. *)
Lemma batch_loop_zero (fuel : nat) (clock : nat -> Z) (total : Z) (st : LoopState) :
  0 <= processed st < total -> batch_loop fuel clock 0 total st = None.
Proof.
  revert st. induction fuel as [|f IH]; intros st Hp; [reflexivity|]. simpl.
  destruct (Z.ltb_spec (processed st) total); [|lia].
  rewrite loop_step_ok by lia. apply IH. simpl. lia.
Qed.

(** C28: The batch size of [runSingle(total, batch)] at its boundary, for
    [total > 0]: [batch = 0] makes [n = 0] forever, so the loop never ends
    (no fuel is enough), and a negative [batch] makes the first
    [new Array(n)] throw a [RangeError]. *)
Theorem runSingle_batch_boundary (clock : nat -> Z) (total batch : Z) :
  0 < total ->
  (batch = 0 -> forall fuel, batch_loop fuel clock batch total LoopState_init = None)
  /\ (batch < 0 -> runSingle clock total batch = Some (Throw RangeError)).
Proof.
  intros Ht. split.
  - intros -> fuel. apply batch_loop_zero. simpl. lia.
  - intros Hb. unfold runSingle, loop_fuel. cbn [batch_loop processed LoopState_init].
    destruct (Z.ltb_spec 0 total); [|lia]. unfold loop_step. cbn [processed LoopState_init].
    destruct (Z.ltb_spec (Z.min batch (total - 0)) 0); [reflexivity|lia].
Qed.

(** ** Witnesses *)

Lemma runSingle_spec_witness :
  0 <= 25 /\ 0 < 10 /\
  runSingle (fun _ => 1700000000000) 25 10
  = Some (Ok (25, ToUint32 (sumZ (map fnv1a32
                (run_payloads (fun _ => 1700000000000) (Z.to_nat 25) (Z.to_nat 10)))))).
Proof. split; [lia|]. split; [lia|]. apply runSingle_spec; lia. Defined.

Lemma main_thread_single_witness :
  (1 <= 1)%Q /\
  main_thread (fun _ _ => 0) (ENum 1)
  = Some (Ok (mkRunOutput None DEFAULT_TOTAL (ToUint32 (sumZ (map fnv1a32
       (run_payloads ((fun _ _ => 0) O) (Z.to_nat DEFAULT_TOTAL) (Z.to_nat DEFAULT_BATCH))))))).
Proof. split; [apply Qle_refl|]. exact (main_thread_single (fun _ _ => 0) (ENum 1) (Qle_refl 1)). Defined.

Lemma runWorkers_int_total_witness :
  0 <= DEFAULT_TOTAL < MAX_SAFE /\ 2 <= 3 <= MAX_SAFE /\
  exists ck, runWorkers (fun _ _ => 0) DEFAULT_TOTAL (WNum (inject_Z 3))
             = Some (Ok (mkRunOutput (Some (WNum (inject_Z 3)))
                                     (DEFAULT_TOTAL - DEFAULT_TOTAL mod 3) ck)).
Proof.
  assert (H1 : 0 <= DEFAULT_TOTAL < MAX_SAFE) by (unfold DEFAULT_TOTAL, MAX_SAFE; lia).
  assert (H2 : 2 <= 3 <= MAX_SAFE) by (unfold MAX_SAFE; lia).
  split; [exact H1|]. split; [exact H2|]. apply runWorkers_int_total; assumption.
Defined.

Lemma merge_checksums_perm_witness :
  Permutation [mkWorkerResult 10 4294967295; mkWorkerResult 10 7]
              [mkWorkerResult 10 7; mkWorkerResult 10 4294967295] /\
  merge_checksums [mkWorkerResult 10 4294967295; mkWorkerResult 10 7]
  = merge_checksums [mkWorkerResult 10 7; mkWorkerResult 10 4294967295].
Proof.
  split; [apply perm_swap|]. apply merge_checksums_perm. apply perm_swap.
Defined.

Lemma runWorkers_const_clock_witness :
  2 <= 4 <= MAX_SAFE /\ 0 <= 25 /\ 4 * 25 * DEFAULT_BATCH < MAX_SAFE /\
  exists ck,
    runWorkers (fun _ _ => 1700000000000) (4 * 25 * DEFAULT_BATCH) (WNum (inject_Z 4))
    = Some (Ok (mkRunOutput (Some (WNum (inject_Z 4))) (4 * 25 * DEFAULT_BATCH) ck))
    /\ runSingle (fun _ => 1700000000000) (4 * 25 * DEFAULT_BATCH) DEFAULT_BATCH
       = Some (Ok (4 * 25 * DEFAULT_BATCH, ck)).
Proof.
  assert (H1 : 2 <= 4 <= MAX_SAFE) by (unfold MAX_SAFE; lia).
  assert (H2 : 4 * 25 * DEFAULT_BATCH < MAX_SAFE) by (unfold DEFAULT_BATCH, MAX_SAFE; lia).
  split; [exact H1|]. split; [lia|]. split; [exact H2|]. apply runWorkers_const_clock; assumption || lia.
Defined.

Lemma loop_reach_safe_witness :
  0 < 10 /\ 0 <= 25 /\ loop_reach (fun _ => 1700000000000) 10 25 LoopState_init /\
  (loop_inv 25 LoopState_init
   /\ (processed LoopState_init < 25 ->
       exists st', loop_step (fun _ => 1700000000000) 10 25 LoopState_init = Ok st'
                   /\ processed LoopState_init < processed st')).
Proof.
  split; [lia|]. split; [lia|]. split; [constructor|].
  apply loop_reach_safe; [lia | lia | constructor].
Defined.

Lemma runSingle_batch_boundary_witness :
  0 < 25 /\
  ((0 = 0 -> forall fuel, batch_loop fuel (fun _ => 1700000000000) 0 25 LoopState_init = None)
   /\ (0 < 0 -> runSingle (fun _ => 1700000000000) 25 0 = Some (Throw RangeError))).
Proof. split; [lia|]. apply runSingle_batch_boundary; lia. Defined.
