(* ===== verification/JsFloat.v ===== *)
(** * JavaScript numbers for the risk simulation of [src/bench_algo_node.js]

    The risk kernel computes with IEEE-754 doubles and the [Math] functions
    [exp], [pow], [abs], [sqrt], [sin], [cos], [log] and [floor], and the
    remainder [%]. This file models a JavaScript number as [num]: a real
    number ([Fin r]), an infinity ([Inf true] for [+Infinity], [Inf false]
    for [-Infinity]) or [NaN], and each operation by the rules of the
    ECMAScript specification (Number::add, ::multiply, ::divide,
    ::remainder, ::exponentiate, ::lessThan and the [Math] functions) on
    these values, with the exact real result in place of the rounded
    double. Two simplifications are made and are the only ones: results
    are not rounded to 53 bits (the one rounding the theorems depend on,
    the division of [Math.floor(total / workers)], is [Double.fl]), and
    [-0] is identified with [+0] (so [1 / -0] is [+Infinity] here).

    The lemmas are the algebra the kernel's theorems need: [NaN] is
    absorbing for every arithmetic operation and every [Math] function
    (but a comparison with [NaN] is false, and [pow(x, 0)] is [1]); real
    operands give real results away from the singular points (a negative
    [sqrt] argument, a division by zero, a non-positive [log] argument);
    and [%] on integers is [Z.rem]; the mean of copies of one number is
    that number; [+x.toFixed(f)] and [Math.round] keep the non-finite
    values and give a real for a real. *)

From Stdlib Require Import ZArith Reals Lra Lia Bool List.
Import ListNotations.
From S2P Require Import Prelude.

Declare Scope num_scope.
Delimit Scope num_scope with num.

Local Open Scope R_scope.

Inductive num :=
  | Fin (r : R)
  | Inf (pos : bool)
  | NaN.
Arguments Fin r%_R.

(** The sign of a real, with zero taken as [+0]. *)
Definition sign_pos (r : R) : bool := if Rlt_dec r 0 then false else true.

(** [r] is an integer. *)
Definition is_int (r : R) : bool := if Req_EM_T (IZR (Int_part r)) r then true else false.

(** Truncation towards zero. *)
Definition trunc (r : R) : Z := if Rlt_dec r 0 then (- Int_part (- r))%Z else Int_part r.

Definition n_Z (z : Z) : num := Fin (IZR z).

Definition n_nat (n : nat) : num := Fin (INR n).

Definition is_finite (x : num) : bool := match x with Fin _ => true | _ => false end.

Definition is_nan (x : num) : bool := match x with NaN => true | _ => false end.

(** ** Arithmetic *)

(** Unary [-x]. *)
Definition n_neg (x : num) : num :=
  match x with
  | Fin r => Fin (- r)
  | Inf p => Inf (negb p)
  | NaN => NaN
  end.

(** Number::add. *)
Definition n_add (x y : num) : num :=
  match x, y with
  | NaN, _ | _, NaN => NaN
  | Fin a, Fin b => Fin (a + b)
  | Inf p, Fin _ | Fin _, Inf p => Inf p
  | Inf p, Inf q => if Bool.eqb p q then Inf p else NaN
  end.

(** Number::subtract: [x + (-y)]. *)
Definition n_sub (x y : num) : num := n_add x (n_neg y).

(** Number::multiply. *)
Definition n_mul (x y : num) : num :=
  match x, y with
  | NaN, _ | _, NaN => NaN
  | Fin a, Fin b => Fin (a * b)
  | Inf p, Fin b | Fin b, Inf p =>
      if Req_EM_T b 0 then NaN else Inf (Bool.eqb p (sign_pos b))
  | Inf p, Inf q => Inf (Bool.eqb p q)
  end.

(** Number::divide. *)
Definition n_div (x y : num) : num :=
  match x, y with
  | NaN, _ | _, NaN => NaN
  | Fin a, Fin b =>
      if Req_EM_T b 0 then (if Req_EM_T a 0 then NaN else Inf (sign_pos a))
      else Fin (a / b)
  | Fin _, Inf _ => Fin 0
  | Inf p, Fin b => Inf (Bool.eqb p (sign_pos b))
  | Inf _, Inf _ => NaN
  end.

(** Number::remainder, the [%] operator: the sign of the dividend, and the
    quotient truncated towards zero. *)
Definition n_rem (x y : num) : num :=
  match x, y with
  | NaN, _ | _, NaN => NaN
  | Inf _, _ => NaN
  | Fin a, Inf _ => Fin a
  | Fin a, Fin b => if Req_EM_T b 0 then NaN else Fin (a - b * IZR (trunc (a / b)))
  end.

(** Number::lessThan as used by [<] and [>]: [false] when an operand is
    [NaN]. *)
Definition n_lt (x y : num) : bool :=
  match x, y with
  | NaN, _ | _, NaN => false
  | Fin a, Fin b => if Rlt_dec a b then true else false
  | Inf true, _ => false
  | Inf false, Inf false => false
  | Inf false, _ => true
  | Fin _, Inf p => p
  end.

(** [x > y]. *)
Definition n_gt (x y : num) : bool := n_lt y x.

(** ** [Math] functions *)

Definition n_exp (x : num) : num :=
  match x with
  | Fin r => Fin (exp r)
  | Inf true => Inf true
  | Inf false => Fin 0
  | NaN => NaN
  end.

Definition n_sqrt (x : num) : num :=
  match x with
  | Fin r => if Rlt_dec r 0 then NaN else Fin (sqrt r)
  | Inf true => Inf true
  | _ => NaN
  end.

Definition n_sin (x : num) : num := match x with Fin r => Fin (sin r) | _ => NaN end.

Definition n_cos (x : num) : num := match x with Fin r => Fin (cos r) | _ => NaN end.

Definition n_log (x : num) : num :=
  match x with
  | Fin r => if Rlt_dec r 0 then NaN else if Req_EM_T r 0 then Inf false else Fin (ln r)
  | Inf true => Inf true
  | _ => NaN
  end.

Definition n_abs (x : num) : num :=
  match x with
  | Fin r => Fin (Rabs r)
  | Inf _ => Inf true
  | NaN => NaN
  end.

Definition n_floor (x : num) : num :=
  match x with
  | Fin r => Fin (IZR (Int_part r))
  | y => y
  end.

(** [Math.round(x)]: the closest integer, ties towards [+Infinity]. *)
Definition n_round (x : num) : num :=
  match x with
  | Fin r => Fin (IZR (Int_part (r + 0.5)))
  | y => y
  end.

(** [+x.toFixed(f)] (Number.prototype.toFixed, then ToNumber of the
    string): for [|x| < 10^21] the multiple [n / 10^f] closest to [x],
    the larger [n] on a tie after the sign is taken off; a larger or a
    non-finite [x] prints as itself. *)
Definition n_toFixed (f : nat) (x : num) : num :=
  match x with
  | Fin r =>
      if Rlt_dec (Rabs r) 1e21
      then Fin ((if Rlt_dec r 0 then -1 else 1) * IZR (Int_part (Rabs r * 10 ^ f + 0.5))
                / 10 ^ f)
      else Fin r
  | y => y
  end.

(** Number::exponentiate, [Math.pow(x, y)]. *)
Definition n_pow (x y : num) : num :=
  match y with
  | NaN => NaN
  | Fin b =>
      if Req_EM_T b 0 then Fin 1 else
      match x with
      | NaN => NaN
      | Fin a =>
          if Rlt_dec 0 a then Fin (Rpower a b)
          else if Req_EM_T a 0 then (if Rlt_dec 0 b then Fin 0 else Inf true)
          else if is_int b
               then Fin ((if Z.even (Int_part b) then 1 else -1) * Rpower (- a) b)
               else NaN
      | Inf true => if Rlt_dec 0 b then Inf true else Fin 0
      | Inf false =>
          if Rlt_dec 0 b
          then Inf (if is_int b then Z.even (Int_part b) else true)
          else Fin 0
      end
  | Inf q =>
      match x with
      | NaN => NaN
      | Fin a =>
          if Rlt_dec 1 (Rabs a) then (if q then Inf true else Fin 0)
          else if Req_EM_T (Rabs a) 1 then NaN
          else (if q then Fin 0 else Inf true)
      | Inf _ => if q then Inf true else Fin 0
      end
  end.

Infix "+" := n_add : num_scope.
Infix "-" := n_sub : num_scope.
Infix "*" := n_mul : num_scope.
Infix "/" := n_div : num_scope.
Notation "- x" := (n_neg x) : num_scope.

Create Rewrite HintDb num_nan.

(** ** [NaN] is absorbing *)

Lemma n_add_nan_r (x : num) : n_add x NaN = NaN.
Proof. now destruct x. Qed.

Lemma n_mul_nan_r (x : num) : n_mul x NaN = NaN.
Proof. now destruct x. Qed.

Lemma n_div_nan_r (x : num) : n_div x NaN = NaN.
Proof. now destruct x. Qed.

Lemma n_rem_nan_r (x : num) : n_rem x NaN = NaN.
Proof. now destruct x as [| [] |]. Qed.

Lemma n_sub_nan_r (x : num) : n_sub x NaN = NaN.
Proof. now destruct x. Qed.

Lemma n_pow_nan_r (x : num) : n_pow x NaN = NaN.
Proof. reflexivity. Qed.

(** [pow(NaN, y)] is [NaN] unless [y] is zero. *)
Lemma n_pow_nan_l (y : num) : (forall b, y = Fin b -> b <> 0) -> n_pow NaN y = NaN.
Proof.
  intros Hy. destruct y as [b| |]; simpl; try reflexivity.
  destruct (Req_EM_T b 0) as [E|]; [exfalso; exact (Hy b eq_refl E)|reflexivity].
Qed.

Lemma n_lt_nan_l (y : num) : n_lt NaN y = false.
Proof. reflexivity. Qed.

Lemma n_lt_nan_r (x : num) : n_lt x NaN = false.
Proof. now destruct x as [| [] |]. Qed.

#[export] Hint Rewrite n_add_nan_r n_mul_nan_r n_div_nan_r n_rem_nan_r n_sub_nan_r
  n_pow_nan_r n_lt_nan_l n_lt_nan_r : num_nan.

(** Simplify every [NaN] operand away. *)
Ltac nan_simpl :=
  repeat (first [ progress autorewrite with num_nan
                | progress cbn [n_add n_mul n_div n_rem n_sub n_neg n_exp n_sqrt n_sin
                                n_cos n_log n_abs n_floor n_lt n_gt] ]).

(** ** Real operands *)

Lemma Int_part_spec (r : R) (z : Z) : IZR z <= r < IZR z + 1 -> Int_part r = z.
Proof.
  intros [H1 H2]. unfold Int_part. assert (up r = (z + 1)%Z) as ->; [|lia].
  symmetry. apply tech_up; rewrite plus_IZR; simpl; lra.
Qed.

Lemma Int_part_IZR (z : Z) : Int_part (IZR z) = z.
Proof. apply Int_part_spec. lra. Qed.

Lemma Int_part_bounds (r : R) : IZR (Int_part r) <= r < IZR (Int_part r) + 1.
Proof. destruct (base_Int_part r). lra. Qed.

Lemma is_int_IZR (z : Z) : is_int (IZR z) = true.
Proof. unfold is_int. rewrite Int_part_IZR. now destruct (Req_EM_T (IZR z) (IZR z)). Qed.

(** Floor division of integers, read on the reals. *)
Lemma Int_part_div (a b : Z) : (0 < b)%Z -> Int_part (IZR a / IZR b) = (a / b)%Z.
Proof.
  intros Hb. apply Int_part_spec.
  pose proof (Z.div_mod a b ltac:(lia)) as Hd. pose proof (Z.mod_pos_bound a b Hb) as Hm.
  assert (Hb' : 0 < IZR b) by (apply IZR_lt; exact Hb).
  split.
  - apply Rmult_le_reg_r with (IZR b); [exact Hb'|]. field_simplify; [|lra].
    rewrite <- mult_IZR. apply IZR_le. lia.
  - apply Rmult_lt_reg_r with (IZR b); [exact Hb'|]. field_simplify; [|lra].
    rewrite <- mult_IZR, <- plus_IZR. apply IZR_lt. lia.
Qed.

Lemma trunc_div (a b : Z) : (0 < b)%Z -> trunc (IZR a / IZR b) = Z.quot a b.
Proof.
  intros Hb. assert (Hb' : 0 < IZR b) by (apply IZR_lt; exact Hb).
  unfold trunc. destruct (Rlt_dec (IZR a / IZR b) 0) as [Hn|Hp].
  - assert (Ha : (a < 0)%Z).
    { apply lt_IZR. apply Rmult_lt_reg_r with (/ IZR b); [now apply Rinv_0_lt_compat|].
      rewrite Rmult_0_l. exact Hn. }
    replace (- (IZR a / IZR b)) with (IZR (- a) / IZR b) by (rewrite opp_IZR; field; lra).
    rewrite Int_part_div by exact Hb.
    rewrite <- (Z.opp_involutive a) at 2. rewrite Z.quot_opp_l by lia.
    rewrite Z.quot_div_nonneg by lia. reflexivity.
  - assert (Ha : (0 <= a)%Z).
    { apply le_IZR. apply Rnot_lt_le in Hp.
      apply Rmult_le_reg_r with (/ IZR b); [now apply Rinv_0_lt_compat|].
      rewrite Rmult_0_l. exact Hp. }
    rewrite Int_part_div by exact Hb. now rewrite Z.quot_div_nonneg by lia.
Qed.

(** [%] on integers with a positive divisor is [Z.rem]. *)
Lemma n_rem_Z (a b : Z) : (0 < b)%Z -> n_rem (n_Z a) (n_Z b) = n_Z (Z.rem a b).
Proof.
  intros Hb. unfold n_rem, n_Z. destruct (Req_EM_T (IZR b) 0) as [E|_].
  { apply eq_IZR in E. lia. }
  rewrite trunc_div by exact Hb. f_equal.
  rewrite (Z.rem_eq a b) by lia. rewrite minus_IZR, mult_IZR. ring.
Qed.

Lemma n_add_Z (a b : Z) : n_add (n_Z a) (n_Z b) = n_Z (a + b).
Proof. unfold n_Z. simpl. now rewrite plus_IZR. Qed.

Lemma n_floor_Z (z : Z) : n_floor (n_Z z) = n_Z z.
Proof. unfold n_floor, n_Z. now rewrite Int_part_IZR. Qed.

(** ** Real operands give real results *)

Lemma n_sub_fin (a b : R) : n_sub (Fin a) (Fin b) = Fin (a - b).
Proof. reflexivity. Qed.

Lemma n_div_fin (a b : R) : b <> 0 -> n_div (Fin a) (Fin b) = Fin (a / b).
Proof. intros Hb. unfold n_div. now destruct (Req_EM_T b 0). Qed.

(** [0 / 0] is [NaN]: the average of an empty batch. *)
Lemma n_div_zero_zero : n_div (Fin 0) (Fin 0) = NaN.
Proof. unfold n_div. destruct (Req_EM_T 0 0); [reflexivity|contradiction]. Qed.

Lemma n_sqrt_fin (a : R) : 0 <= a -> n_sqrt (Fin a) = Fin (sqrt a).
Proof. intros Ha. unfold n_sqrt. destruct (Rlt_dec a 0); [lra|reflexivity]. Qed.

(** [Math.sqrt] of a negative number is [NaN]. *)
Lemma n_sqrt_neg (a : R) : a < 0 -> n_sqrt (Fin a) = NaN.
Proof. intros Ha. unfold n_sqrt. destruct (Rlt_dec a 0); [reflexivity|lra]. Qed.

Lemma n_log_fin (a : R) : 0 < a -> n_log (Fin a) = Fin (ln a).
Proof.
  intros Ha. unfold n_log. destruct (Rlt_dec a 0); [lra|].
  destruct (Req_EM_T a 0); [lra|reflexivity].
Qed.

Lemma n_pow_pos (a b : R) : 0 < a -> n_pow (Fin a) (Fin b) = Fin (Rpower a b).
Proof.
  intros Ha. unfold n_pow. destruct (Req_EM_T b 0) as [->|_].
  - unfold Rpower. now rewrite Rmult_0_l, exp_0.
  - now destruct (Rlt_dec 0 a).
Qed.

Lemma n_pow_nonneg (a b : R) : 0 <= a -> 0 < b -> exists r, n_pow (Fin a) (Fin b) = Fin r /\ 0 <= r.
Proof.
  intros Ha Hb. destruct (Rle_lt_or_eq_dec 0 a Ha) as [Hp| <-].
  - exists (Rpower a b). rewrite n_pow_pos by exact Hp. split; [reflexivity|].
    unfold Rpower. left. apply exp_pos.
  - exists 0. split; [|lra]. unfold n_pow.
    destruct (Req_EM_T b 0); [lra|]. destruct (Rlt_dec 0 0); [lra|].
    destruct (Req_EM_T 0 0); [|lra]. destruct (Rlt_dec 0 b); [reflexivity|lra].
Qed.

(** [Math.pow(a, 2)] is a non-negative real for every real [a]. *)
Lemma n_pow_two (a : R) : exists r, n_pow (Fin a) (Fin 2) = Fin r /\ 0 <= r.
Proof.
  destruct (Rle_dec 0 a) as [Ha|Ha]; [apply n_pow_nonneg; lra|].
  exists (Rpower (- a) 2). unfold n_pow.
  destruct (Req_EM_T 2 0); [lra|]. destruct (Rlt_dec 0 a); [lra|].
  destruct (Req_EM_T a 0); [lra|]. rewrite (is_int_IZR 2), (Int_part_IZR 2). simpl.
  rewrite Rmult_1_l. split; [reflexivity|]. unfold Rpower. left. apply exp_pos.
Qed.

Lemma n_pow_nan_fin (b : R) : b <> 0 -> n_pow NaN (Fin b) = NaN.
Proof. intros Hb. apply n_pow_nan_l. intros b' E. injection E as <-. exact Hb. Qed.

Lemma n_lt_fin (a b : R) : n_lt (Fin a) (Fin b) = if Rlt_dec a b then true else false.
Proof. reflexivity. Qed.

Lemma n_rem_nat_Z (a : nat) (b : Z) :
  (0 < b)%Z -> n_rem (n_nat a) (n_Z b) = n_nat (a mod Z.to_nat b).
Proof.
  intros Hb. unfold n_nat. rewrite !INR_IZR_INZ. fold (n_Z (Z.of_nat a)).
  rewrite n_rem_Z by exact Hb. unfold n_Z. f_equal. f_equal.
  rewrite Nat2Z.inj_mod, Z2Nat.id by lia. rewrite Z.rem_mod_nonneg; lia.
Qed.

(** The result of [%] is below the divisor in magnitude. *)
Lemma Z_rem_bound (a b : Z) : (0 < b)%Z -> (- b < Z.rem a b < b)%Z.
Proof.
  intros Hb. pose proof (Z.rem_bound_abs a b ltac:(lia)). lia.
Qed.

(** ** Means *)

Lemma fold_add_const {A : Type} (f : A -> num) (x t : num) (l : list A) :
  Forall (fun y => f y = x) l ->
  fold_left (fun t y => n_add t (f y)) l t = fold_left n_add (repeat x (length l)) t.
Proof.
  intros Hl. revert t. induction Hl as [|y l Hy _ IH]; intros t; [reflexivity|].
  cbn [fold_left length repeat]. rewrite Hy. apply IH.
Qed.

(** The mean of [n >= 1] copies of a number, summed from [0] and divided
    by [n], is the number: exactly, since results are not rounded. *)
Lemma n_mean_repeat (x : num) (n : nat) :
  (0 < n)%nat -> n_div (fold_left n_add (repeat x n) (Fin 0)) (n_nat n) = x.
Proof.
  intros Hn. destruct n as [|k]; [lia|]. cbn [repeat fold_left]. unfold n_nat.
  assert (Hpos : 0 < INR (S k)) by (apply lt_0_INR; lia).
  destruct x as [a|p|].
  - assert (H : forall s m, fold_left n_add (repeat (Fin a) m) (Fin s) = Fin (s + INR m * a)).
    { intros s m. revert s. induction m as [|m IH]; intros s; cbn [repeat fold_left n_add].
      - f_equal. simpl. ring.
      - rewrite IH, S_INR. f_equal. ring. }
    cbn [n_add]. rewrite H, n_div_fin by lra. f_equal. rewrite S_INR in *. field. lra.
  - assert (H : forall m, fold_left n_add (repeat (Inf p) m) (Inf p) = Inf p).
    { induction m as [|m IH]; cbn [repeat fold_left n_add]; [reflexivity|].
      now rewrite eqb_reflx. }
    cbn [n_add]. rewrite H. unfold n_div, sign_pos.
    destruct (Rlt_dec (INR (S k)) 0); [lra|]. now destruct p.
  - assert (H : forall m, fold_left n_add (repeat NaN m) NaN = NaN)
      by (induction m as [|m IH]; [reflexivity|exact IH]).
    cbn [n_add]. now rewrite H.
Qed.

(** [reduce((t, r) => t + f(r), 0) / l.length] over a non-empty list on
    which [f] is constant. *)
Lemma n_mean_const {A : Type} (f : A -> num) (x : num) (l : list A) :
  l <> [] -> Forall (fun y => f y = x) l ->
  n_div (fold_left (fun t y => n_add t (f y)) l (Fin 0)) (n_nat (length l)) = x.
Proof.
  intros Hne Hl. rewrite (fold_add_const f x) by exact Hl. apply n_mean_repeat.
  destruct l; [congruence|]. simpl. lia.
Qed.

(** ** Rounding and non-finite results *)

Lemma n_toFixed_fin (f : nat) (r : R) : exists r', n_toFixed f (Fin r) = Fin r'.
Proof. unfold n_toFixed. destruct (Rlt_dec (Rabs r) 1e21); eauto. Qed.

Lemma n_round_fin (r : R) : exists z, n_round (Fin r) = n_Z z.
Proof. eexists. reflexivity. Qed.

(** Rounding keeps the non-finite values. *)
Lemma n_toFixed_nonfinite (f : nat) (x : num) : is_finite x = false -> n_toFixed f x = x.
Proof. destruct x; [discriminate|reflexivity|reflexivity]. Qed.

Lemma n_round_nonfinite (x : num) : is_finite x = false -> n_round x = x.
Proof. destruct x; [discriminate|reflexivity|reflexivity]. Qed.

Lemma is_finite_toFixed (f : nat) (x : num) : is_finite (n_toFixed f x) = is_finite x.
Proof. destruct x as [r| |]; [|reflexivity|reflexivity]. now destruct (n_toFixed_fin f r) as [r' ->]. Qed.

Lemma is_finite_round (x : num) : is_finite (n_round x) = is_finite x.
Proof. now destruct x. Qed.

(** A rate [a / (ms / 1000)]: finite for a positive [ms], not finite for
    [ms = 0]. *)
Lemma is_finite_rate (a ms : R) :
  0 <= ms -> is_finite (n_div (Fin a) (n_div (Fin ms) (Fin 1000))) = true <-> 0 < ms.
Proof.
  intros Hms. rewrite n_div_fin by lra. unfold n_div.
  destruct (Req_EM_T (ms / 1000) 0) as [E|E].
  - assert (ms = 0) by (unfold Rdiv in E; apply Rmult_integral in E as [|H]; [lra|];
                        exfalso; revert H; apply Rinv_neq_0_compat; lra).
    destruct (Req_EM_T a 0); cbn; split; (discriminate || lra).
  - assert (ms <> 0) by (intros ->; apply E; lra). cbn. split; [lra|reflexivity].
Qed.

