(* ===== verification/SensorRisk.v ===== *)
(** * The risk kernel of [src/bench_algo_node.js]

    - [generateSensorData(count, devicePrefix)] (lines 74-86) builds sensor
      [i] from its index: the id [devicePrefix-i] and four readings, each a
      constant plus [i % k] plus a scaled [Math.sin] or [Math.cos] of a
      multiple of [i] ([sensor_of]).
    - [calculateSensorRisk] (lines 28-70) seeds a [PRNG] with
      [deviceId.charCodeAt(0) * 1000] and runs [iterations] rounds of a
      Monte Carlo loop ([risk_step], [risk_loop]) over the state
      [RiskState]: the generator, [riskScore] and [failureProbability].
      Every 1000th round adds ten Fourier terms ([fourier]). The result
      divides both sums by [iterations], and its checksum is
      [Math.floor(riskScore * 1000000) % 1000000].
    - [processBatch(sensors, iterations)] (lines 88-112) folds the results
      ([batch_step]): the sums of the scores and probabilities, and the
      checksum [(checksum + result.checksum) % 1000000000].

    All numbers are [num] (file [JsFloat]); the generator state is the
    [PRNG] of file [Prng], with [None] for the generator of an empty id,
    whose seed [NaN * 1000] makes every draw [NaN].

    The theorems show when the kernel's output is a number: a negative
    vibration reading (which [Math.sqrt] turns into [NaN]) makes the risk
    score and the checksum of the sensor [NaN], and then those of the whole
    batch; sensor 90 of every generated set has a negative vibration,
    since [cos(2.7) < -1/2]; with a non-negative vibration and real readings
    every value stays real and the checksum is an integer of
    [(-1000000, 1000000)]; a batch depends on the id prefix only through
    its first character ([processBatch_prefix]). *)

From Stdlib Require Import ZArith Reals Lra Lia List String Ascii QArith Qreals.
From S2P Require Import Prelude JsNum Prng JsFloat.
Import ListNotations.

Local Open Scope R_scope.
Local Open Scope num_scope.

Module Risk.

(** ** The sensors *)

Record Sensor := mkSensor {
  deviceId : string;
  temperature : num;
  humidity : num;
  pressure : num;
  vibration : num
}.

Definition DEFAULT_PREFIX : string := "sensor".

(** The object pushed for index [i] (lines 77-83). *)
Definition sensor_of (devicePrefix : string) (i : nat) : Sensor :=
  let x := n_nat i in
  mkSensor (devicePrefix ++ "-" ++ int_to_string (Z.of_nat i))
    (Fin 20 + n_rem x (Fin 60) + n_sin (x * Fin 0.1) * Fin 5)
    (Fin 40 + n_rem x (Fin 40) + n_cos (x * Fin 0.05) * Fin 10)
    (Fin 1000 + n_rem x (Fin 50) + n_sin (x * Fin 0.02) * Fin 15)
    (Fin 1 + n_rem x (Fin 10) + n_cos (x * Fin 0.03) * Fin 2).

Definition generateSensorData (count : nat) (devicePrefix : string) : list Sensor :=
  map (sensor_of devicePrefix) (seq 0 count).

(** ** [calculateSensorRisk] *)

Record RiskResult := mkRiskResult {
  riskScore : num;
  failureProbability : num;
  checksum : num
}.

(** [new PRNG(deviceId.charCodeAt(0) * 1000)]; [None] for an empty id. *)
Definition sensor_prng (deviceId : string) : option PRNG :=
  match deviceId with
  | EmptyString => None
  | String c _ => Some (PRNG_new (Some (char_code c * 1000)%Z))
  end.

(** [prng.next()]: the draw and the new generator. *)
Definition draw (g : option PRNG) : num * option PRNG :=
  match g with
  | Some p => let '(q, p') := next p in (Fin (Q2R q), Some p')
  | None => (NaN, None)
  end.

Record RiskState := mkRiskState {
  rs_prng : option PRNG;
  rs_risk : num;
  rs_fail : num
}.

(** [for (let j = 1; j <= 10; j++) riskScore += Math.sin(j * s) *
    Math.cos(j * fp) / j]. *)
Definition fourier (risk s fp : num) : num :=
  fold_left (fun r j => r + n_sin (n_nat j * s) * n_cos (n_nat j * fp) / n_nat j)
            (seq 1 10) risk.

(** The stress factors of round [i] (lines 36-39). *)
Definition tempStress (temperature : num) (i : nat) : num :=
  n_exp ((temperature - Fin 25) / Fin 15) * (Fin 1 + Fin 0.1 * n_sin (n_nat i * Fin 0.01)).

Definition humidityStress (humidity : num) (i : nat) : num :=
  n_pow (humidity / Fin 100) (Fin 2) * (Fin 1 + Fin 0.05 * n_cos (n_nat i * Fin 0.02)).

Definition pressureStress (pressure : num) (i : nat) : num :=
  n_abs (pressure - Fin 1013.25) / Fin 50 * (Fin 1 + Fin 0.03 * n_sin (n_nat i * Fin 0.015)).

Definition vibrationStress (vibration : num) (i : nat) : num :=
  n_sqrt vibration * (Fin 1 + Fin 0.08 * n_cos (n_nat i * Fin 0.008)).

(** [stressCombination] (line 43). *)
Definition stressCombination (temperature humidity pressure vibration : num) (i : nat) : num :=
  tempStress temperature i * humidityStress humidity i
  + pressureStress pressure i * vibrationStress vibration i.

(** [weibullProb] from the stress and the draw (lines 47-49). *)
Definition weibullProb (stress randomFactor : num) : num :=
  let shape := Fin 1.5 + randomFactor * Fin 0.3 in
  let scale := Fin 100 + randomFactor * Fin 20 in
  Fin 1 - n_exp (- n_pow (stress / scale) shape).

(** Round [i] of the Monte Carlo loop (lines 35-63). *)
Definition risk_step (temperature humidity pressure vibration : num) (st : RiskState)
    (i : nat) : RiskState :=
  let stress := stressCombination temperature humidity pressure vibration i in
  let '(randomFactor, g') := draw (rs_prng st) in
  let failureThreshold := Fin 2.5 + randomFactor * Fin 0.5 in
  let w := weibullProb stress randomFactor in
  let fp := if n_gt w (failureThreshold / Fin 10) then rs_fail st + w else rs_fail st in
  let risk := rs_risk st + n_pow stress (Fin 1.8) * n_log (Fin 1 + w) in
  let risk := if Nat.eqb (i mod 1000) 0 then fourier risk stress fp else risk in
  mkRiskState g' risk fp.

(** Rounds [i, i+1, ..., i+n-1]. *)
Fixpoint risk_loop (temperature humidity pressure vibration : num) (st : RiskState)
    (i n : nat) : RiskState :=
  match n with
  | O => st
  | S n' => risk_loop temperature humidity pressure vibration
              (risk_step temperature humidity pressure vibration st i) (S i) n'
  end.

Definition calculateSensorRisk (deviceId : string) (temperature humidity pressure vibration : num)
    (iterations : nat) : RiskResult :=
  let st := risk_loop temperature humidity pressure vibration
              (mkRiskState (sensor_prng deviceId) (Fin 0) (Fin 0)) 0 iterations in
  mkRiskResult (rs_risk st / n_nat iterations) (rs_fail st / n_nat iterations)
               (n_rem (n_floor (rs_risk st * Fin 1000000)) (Fin 1000000)).

(** ** [processBatch] *)

Record BatchAcc := mkBatchAcc { totalRisk : num; totalFailureProb : num; acc_checksum : num }.

Record BatchResult := mkBatchResult { avgRisk : num; avgFailureProb : num; batch_checksum : num }.

(** The body of [for (const sensor of sensors)]. *)
Definition batch_step (iterations : nat) (acc : BatchAcc) (sensor : Sensor) : BatchAcc :=
  let result := calculateSensorRisk (deviceId sensor) (temperature sensor) (humidity sensor)
                  (pressure sensor) (vibration sensor) iterations in
  mkBatchAcc (totalRisk acc + riskScore result)
             (totalFailureProb acc + failureProbability result)
             (n_rem (acc_checksum acc + checksum result) (Fin 1000000000)).

Definition processBatch (sensors : list Sensor) (iterations : nat) : BatchResult :=
  let acc := fold_left (batch_step iterations) sensors (mkBatchAcc (Fin 0) (Fin 0) (Fin 0)) in
  mkBatchResult (totalRisk acc / n_nat (List.length sensors))
                (totalFailureProb acc / n_nat (List.length sensors))
                (acc_checksum acc).

(** ** [NaN] propagation *)

(** A reading for which [Math.sqrt] is [NaN]: [NaN] or a negative number. *)
Definition sqrt_nan (x : num) : Prop := n_sqrt x = NaN.

Lemma stressCombination_nan (t h p v : num) (i : nat) :
  sqrt_nan v -> stressCombination t h p v i = NaN.
Proof.
  intros Hv. unfold stressCombination, vibrationStress. rewrite Hv. cbn [n_mul].
  now rewrite n_mul_nan_r, n_add_nan_r.
Qed.

Lemma fold_fourier_nan (s fp : num) (l : list nat) :
  fold_left (fun r j => r + n_sin (n_nat j * s) * n_cos (n_nat j * fp) / n_nat j) l NaN = NaN.
Proof. induction l as [|j l IH]; [reflexivity|exact IH]. Qed.

Lemma fourier_nan (s fp : num) : fourier NaN s fp = NaN.
Proof. apply fold_fourier_nan. Qed.

(** Once [riskScore] is [NaN] it stays [NaN]. *)
Lemma risk_step_nan (t h p v : num) (st : RiskState) (i : nat) :
  rs_risk st = NaN -> rs_risk (risk_step t h p v st i) = NaN.
Proof.
  intros Hr. unfold risk_step. destruct (draw (rs_prng st)) as [rf g']. cbn [rs_risk].
  rewrite Hr. cbn [n_add]. destruct (Nat.eqb (i mod 1000) 0); [apply fourier_nan|reflexivity].
Qed.

(** A round whose stress is [NaN] makes [riskScore] [NaN]. *)
Lemma risk_step_stress_nan (t h p v : num) (st : RiskState) (i : nat) :
  stressCombination t h p v i = NaN -> rs_risk (risk_step t h p v st i) = NaN.
Proof.
  intros Hs. unfold risk_step. rewrite Hs. destruct (draw (rs_prng st)) as [rf g'].
  cbn [rs_risk]. rewrite n_pow_nan_fin by lra. cbn [n_mul]. rewrite n_add_nan_r.
  destruct (Nat.eqb (i mod 1000) 0); [apply fourier_nan|reflexivity].
Qed.

Lemma risk_loop_nan (t h p v : num) (st : RiskState) (i n : nat) :
  rs_risk st = NaN -> rs_risk (risk_loop t h p v st i n) = NaN.
Proof.
  revert st i. induction n as [|n IH]; intros st i Hr; [exact Hr|].
  apply IH. now apply risk_step_nan.
Qed.

Lemma risk_loop_vibration_nan (t h p v : num) (st : RiskState) (i n : nat) :
  sqrt_nan v -> (0 < n)%nat -> rs_risk (risk_loop t h p v st i n) = NaN.
Proof.
  intros Hv Hn. destruct n as [|n]; [lia|]. cbn [risk_loop]. apply risk_loop_nan.
  apply risk_step_stress_nan, stressCombination_nan, Hv.
Qed.

(** The accumulator of a batch once a sensor has made it [NaN]. *)
Definition acc_nan (acc : BatchAcc) : Prop := totalRisk acc = NaN /\ acc_checksum acc = NaN.

Lemma batch_step_nan (iterations : nat) (acc : BatchAcc) (s : Sensor) :
  acc_nan acc -> acc_nan (batch_step iterations acc s).
Proof. intros [Hr Hc]. unfold batch_step, acc_nan. cbn [totalRisk acc_checksum]. now rewrite Hr, Hc. Qed.

Lemma fold_batch_nan (iterations : nat) (acc : BatchAcc) (l : list Sensor) :
  acc_nan acc -> acc_nan (fold_left (batch_step iterations) l acc).
Proof.
  revert acc. induction l as [|s l IH]; intros acc H; [exact H|].
  apply IH, batch_step_nan, H.
Qed.

(** A sensor whose vibration reading has a [NaN] square root makes the
    whole batch [NaN]. *)
Lemma processBatch_nan_sensor (sensors : list Sensor) (s : Sensor) (iterations : nat) :
  In s sensors -> sqrt_nan (vibration s) -> (0 < iterations)%nat ->
  avgRisk (processBatch sensors iterations) = NaN
  /\ batch_checksum (processBatch sensors iterations) = NaN.
Proof.
  intros Hin Hv Hit. apply in_split in Hin as (l1 & l2 & ->).
  set (acc1 := fold_left (batch_step iterations) l1 (mkBatchAcc (Fin 0) (Fin 0) (Fin 0))).
  assert (H : acc_nan (fold_left (batch_step iterations) (l1 ++ s :: l2)
                        (mkBatchAcc (Fin 0) (Fin 0) (Fin 0)))).
  { rewrite fold_left_app. fold acc1. cbn [fold_left]. apply fold_batch_nan.
    unfold batch_step, calculateSensorRisk, acc_nan. cbn [totalRisk acc_checksum riskScore checksum].
    rewrite risk_loop_vibration_nan by assumption. cbn [n_div n_mul n_floor].
    cbn [n_rem]. rewrite !n_add_nan_r. split; reflexivity. }
  destruct H as [Hr Hc]. unfold processBatch. cbn [avgRisk batch_checksum].
  now rewrite Hr, Hc.
Qed.

(** ** The generated readings *)

(** [cos(2.7) < -1/2]: [2 pi / 3 < 2.7 <= pi] and [cos] decreases on
    [0, pi]. *)
Lemma cos_2_7 : cos 2.7 < -1 / 2.
Proof.
  pose proof PI_4 as H4. pose proof PI2_3_2 as H3. rewrite <- cos_2PI3.
  apply cos_decreasing_1; lra.
Qed.

Lemma n_nat_Z (n : nat) : n_nat n = n_Z (Z.of_nat n).
Proof. unfold n_nat, n_Z. now rewrite INR_IZR_INZ. Qed.

(** The vibration reading of sensor 90 is [1 + 0 + 2 cos(2.7)], below 0. *)
Lemma sensor90_vibration (devicePrefix : string) :
  exists v, vibration (sensor_of devicePrefix 90) = Fin v /\ v < 0.
Proof.
  cbn [vibration sensor_of]. change (Fin 10) with (n_Z 10).
  rewrite n_rem_nat_Z by lia. unfold n_nat. cbn [n_add n_mul n_cos].
  eexists. split; [reflexivity|].
  replace (INR (90 mod Z.to_nat 10)) with 0%R by reflexivity.
  rewrite INR_IZR_INZ. change (Z.of_nat 90) with 90%Z.
  replace (IZR 90 * 0.03)%R with 2.7%R by lra. pose proof cos_2_7. lra.
Qed.

(** ** Real readings give real values *)

Lemma n_nat_mul_fin (i : nat) (c : R) : n_nat i * Fin c = Fin (INR i * c).
Proof. reflexivity. Qed.

Lemma tempStress_pos (t : R) (i : nat) : exists r, tempStress (Fin t) i = Fin r /\ 0 < r.
Proof.
  unfold tempStress. rewrite n_sub_fin, n_div_fin, n_nat_mul_fin by lra. cbn.
  eexists. split; [reflexivity|]. apply Rmult_lt_0_compat; [apply exp_pos|].
  pose proof (SIN_bound (INR i * 0.01)). lra.
Qed.

Lemma humidityStress_nonneg (h : R) (i : nat) : exists r, humidityStress (Fin h) i = Fin r /\ 0 <= r.
Proof.
  unfold humidityStress. rewrite n_div_fin, n_nat_mul_fin by lra.
  destruct (n_pow_two (h / 100)) as (q & -> & Hq). cbn.
  eexists. split; [reflexivity|]. apply Rmult_le_pos; [exact Hq|].
  pose proof (COS_bound (INR i * 0.02)). lra.
Qed.

Lemma pressureStress_nonneg (p : R) (i : nat) : exists r, pressureStress (Fin p) i = Fin r /\ 0 <= r.
Proof.
  unfold pressureStress. rewrite n_sub_fin, n_nat_mul_fin. cbn [n_abs].
  rewrite n_div_fin by lra. cbn.
  eexists. split; [reflexivity|]. apply Rmult_le_pos.
  - apply Rmult_le_pos; [apply Rabs_pos | lra].
  - pose proof (SIN_bound (INR i * 0.015)). lra.
Qed.

Lemma vibrationStress_nonneg (v : R) (i : nat) :
  0 <= v -> exists r, vibrationStress (Fin v) i = Fin r /\ 0 <= r.
Proof.
  intros Hv. unfold vibrationStress. rewrite n_sqrt_fin, n_nat_mul_fin by exact Hv. cbn.
  eexists. split; [reflexivity|]. apply Rmult_le_pos; [apply sqrt_pos|].
  pose proof (COS_bound (INR i * 0.008)). lra.
Qed.

Lemma stressCombination_nonneg (t h p v : R) (i : nat) :
  0 <= v -> exists s, stressCombination (Fin t) (Fin h) (Fin p) (Fin v) i = Fin s /\ 0 <= s.
Proof.
  intros Hv. unfold stressCombination.
  destruct (tempStress_pos t i) as (a & -> & Ha).
  destruct (humidityStress_nonneg h i) as (b & -> & Hb).
  destruct (pressureStress_nonneg p i) as (c & -> & Hc).
  destruct (vibrationStress_nonneg v i Hv) as (d & -> & Hd). cbn.
  eexists. split; [reflexivity|].
  apply Rplus_le_le_0_compat; apply Rmult_le_pos; lra.
Qed.

(** For a real stress and draw in range, [weibullProb] is in [0, 1). *)
Lemma weibullProb_range (s rf : R) :
  0 <= s -> 0 <= rf -> exists w, weibullProb (Fin s) (Fin rf) = Fin w /\ 0 <= w < 1.
Proof.
  intros Hs Hrf. unfold weibullProb. cbn [n_add n_mul].
  rewrite n_div_fin by lra.
  destruct (n_pow_nonneg (s / (100 + rf * 20)) (1.5 + rf * 0.3)) as (q & -> & Hq).
  { apply Rmult_le_pos; [exact Hs|]. left. apply Rinv_0_lt_compat. lra. }
  { lra. }
  cbn. eexists. split; [reflexivity|]. pose proof (exp_pos (- q)).
  assert (exp (- q) <= 1).
  { rewrite <- exp_0. destruct (Req_EM_T q 0) as [->|Hq0].
    - rewrite Ropp_0. lra.
    - left. apply exp_increasing. lra. }
  lra.
Qed.

Lemma fold_fourier_fin (r s fp : R) (l : list nat) :
  (forall j, In j l -> j <> 0%nat) ->
  exists r', fold_left (fun r j => r + n_sin (n_nat j * Fin s) * n_cos (n_nat j * Fin fp) / n_nat j)
                       l (Fin r) = Fin r'.
Proof.
  revert r. induction l as [|j l IH]; intros r Hl; [now exists r|]. cbn [fold_left].
  change (n_nat j) with (Fin (INR j)). cbn [n_mul n_sin n_cos n_add]. rewrite n_div_fin.
  - apply IH. intros k Hk. apply Hl. now right.
  - apply not_0_INR, Hl. now left.
Qed.

Lemma fourier_fin (r s fp : R) : exists r', fourier (Fin r) (Fin s) (Fin fp) = Fin r'.
Proof. apply fold_fourier_fin. intros j Hj. apply in_seq in Hj. lia. Qed.

(** The invariant of the Monte Carlo loop on real readings: the generator
    has a non-negative seed and both sums are real numbers. *)
Definition good_state (st : RiskState) : Prop :=
  (exists p, rs_prng st = Some p /\ (0 <= seed p)%Z)
  /\ (exists r, rs_risk st = Fin r) /\ (exists f, rs_fail st = Fin f).

Lemma draw_good (p : PRNG) :
  (0 <= seed p)%Z ->
  exists rf p', draw (Some p) = (Fin rf, Some p') /\ 0 <= rf /\ (0 <= seed p')%Z.
Proof.
  intros Hs. unfold draw. destruct (next p) as [q p'] eqn:E.
  pose proof (next_value_range p Hs) as [Hq _]. pose proof (lcg_step_range _ Hs).
  rewrite E in Hq. cbn in Hq. exists (Q2R q), p'. split; [reflexivity|]. split.
  - replace 0 with (Q2R 0) by (unfold Q2R; simpl; lra). now apply Qle_Rle.
  - injection E as _ <-. simpl. lia.
Qed.

Lemma risk_step_good (t h p v : R) (st : RiskState) (i : nat) :
  0 <= v -> good_state st -> good_state (risk_step (Fin t) (Fin h) (Fin p) (Fin v) st i).
Proof.
  intros Hv ((g & Hg & Hseed) & (r & Hr) & (f & Hf)). unfold risk_step.
  destruct (stressCombination_nonneg t h p v i Hv) as (s & -> & Hs).
  rewrite Hg. destruct (draw_good g Hseed) as (rf & g' & -> & Hrf & Hseed').
  destruct (weibullProb_range s rf Hs Hrf) as (w & -> & Hw).
  destruct (n_pow_nonneg s 1.8 Hs ltac:(lra)) as (q & -> & _).
  cbn [n_add]. rewrite n_log_fin by lra. rewrite Hr, Hf. cbn [n_add n_mul].
  unfold good_state. cbn [rs_prng rs_risk rs_fail].
  split; [eauto|]. split.
  - destruct (Nat.eqb (i mod 1000) 0); [|eauto]. cbn [rs_risk].
    destruct (n_gt _ _); apply fourier_fin.
  - cbn [rs_fail]. destruct (n_gt _ _); eauto.
Qed.

Lemma risk_loop_good (t h p v : R) (st : RiskState) (i n : nat) :
  0 <= v -> good_state st -> good_state (risk_loop (Fin t) (Fin h) (Fin p) (Fin v) st i n).
Proof.
  revert st i. induction n as [|n IH]; intros st i Hv Hg; [exact Hg|].
  apply IH; [exact Hv|]. now apply risk_step_good.
Qed.

(** With real readings, a non-negative vibration and a non-empty id, the
    result is real, and the checksum an integer of [(-1000000, 1000000)]
    ([%] keeps the sign of [Math.floor(riskScore * 1000000)]). *)
Lemma calculateSensorRisk_real (c : ascii) (rest : string) (t h p v : R) (iterations : nat) :
  0 <= v -> (0 < iterations)%nat ->
  exists r f z,
    riskScore (calculateSensorRisk (String c rest) (Fin t) (Fin h) (Fin p) (Fin v) iterations) = Fin r
    /\ failureProbability (calculateSensorRisk (String c rest) (Fin t) (Fin h) (Fin p) (Fin v)
                                                iterations) = Fin f
    /\ checksum (calculateSensorRisk (String c rest) (Fin t) (Fin h) (Fin p) (Fin v) iterations)
       = n_Z z
    /\ (-1000000 < z < 1000000)%Z.
Proof.
  intros Hv Hit. unfold calculateSensorRisk. cbn [riskScore failureProbability checksum].
  assert (H0 : good_state (mkRiskState (sensor_prng (String c rest)) (Fin 0) (Fin 0))).
  { unfold good_state. cbn [rs_prng rs_risk rs_fail].
    split; [|split; eexists; reflexivity]. eexists. split; [reflexivity|]. simpl.
    pose proof (char_code_range c). lia. }
  destruct (risk_loop_good t h p v _ 0 iterations Hv H0) as (_ & (r & Hr) & (f & Hf)).
  rewrite Hr, Hf. unfold n_nat. rewrite !n_div_fin by (apply not_0_INR; lia).
  cbn [n_mul n_floor]. fold (n_Z (Int_part (r * 1000000))). change (Fin 1000000) with (n_Z 1000000).
  rewrite n_rem_Z by lia. do 3 eexists. split; [reflexivity|]. split; [reflexivity|].
  split; [reflexivity|]. pose proof (Z_rem_bound (Int_part (r * 1000000)) 1000000). lia.
Qed.

(** A sensor the kernel keeps real: a non-empty id, real readings and a
    non-negative vibration. *)
Definition real_sensor (s : Sensor) : Prop :=
  (exists c rest, deviceId s = String c rest)
  /\ (exists t h p v, temperature s = Fin t /\ humidity s = Fin h /\ pressure s = Fin p
                      /\ vibration s = Fin v /\ 0 <= v).

(** The accumulator while every sensor so far was real. *)
Definition acc_real (acc : BatchAcc) : Prop :=
  (exists r, totalRisk acc = Fin r) /\ (exists f, totalFailureProb acc = Fin f)
  /\ (exists z, acc_checksum acc = n_Z z).

Lemma batch_step_real (iterations : nat) (acc : BatchAcc) (s : Sensor) :
  (0 < iterations)%nat -> real_sensor s -> acc_real acc -> acc_real (batch_step iterations acc s).
Proof.
  intros Hit ((c & rest & Hid) & (t & h & p & v & Ht & Hh & Hp & Hv & Hv0)) ((r & Hr) & (f & Hf) & (z & Hz)).
  unfold batch_step. rewrite Hid, Ht, Hh, Hp, Hv.
  destruct (calculateSensorRisk_real c rest t h p v iterations Hv0 Hit)
    as (r' & f' & z' & -> & -> & -> & _).
  unfold acc_real. cbn [totalRisk totalFailureProb acc_checksum]. rewrite Hr, Hf, Hz.
  rewrite n_add_Z. change (Fin 1000000000) with (n_Z 1000000000). rewrite n_rem_Z by lia.
  split; [eexists; reflexivity|]. split; eexists; reflexivity.
Qed.

(** A batch of real sensors has a real average risk and an integral
    checksum. *)
Lemma processBatch_real (sensors : list Sensor) (iterations : nat) :
  Forall real_sensor sensors -> sensors <> [] -> (0 < iterations)%nat ->
  (exists a, avgRisk (processBatch sensors iterations) = Fin a)
  /\ (exists z, batch_checksum (processBatch sensors iterations) = n_Z z).
Proof.
  intros Hall Hne Hit.
  assert (H : forall acc, acc_real acc -> acc_real (fold_left (batch_step iterations) sensors acc)).
  { clear Hne. induction Hall as [|s l Hs Hl IH]; intros acc Ha; [exact Ha|].
    apply IH. now apply batch_step_real. }
  destruct (H (mkBatchAcc (Fin 0) (Fin 0) (Fin 0))) as ((r & Hr) & _ & (z & Hz)).
  { split; [eexists; reflexivity|]. split; [eexists; reflexivity|]. exists 0%Z. reflexivity. }
  unfold processBatch. cbn [avgRisk batch_checksum]. rewrite Hr, Hz. unfold n_nat.
  rewrite n_div_fin; [split; eexists; reflexivity|].
  apply not_0_INR. destruct sensors; [contradiction|discriminate].
Qed.

(** The readings of a generated sensor are real; its vibration is
    [1 + i % 10 + 2 cos(0.03 i)]. *)
Lemma sensor_of_real (devicePrefix : string) (i : nat) :
  (exists c rest, deviceId (sensor_of devicePrefix i) = String c rest)
  /\ (exists t h p, temperature (sensor_of devicePrefix i) = Fin t
                    /\ humidity (sensor_of devicePrefix i) = Fin h
                    /\ pressure (sensor_of devicePrefix i) = Fin p)
  /\ vibration (sensor_of devicePrefix i)
     = Fin (1 + INR (i mod 10) + cos (INR i * 0.03) * 2).
Proof.
  cbn [deviceId temperature humidity pressure vibration sensor_of].
  change (Fin 60) with (n_Z 60). change (Fin 40) with (n_Z 40).
  change (Fin 50) with (n_Z 50). change (Fin 10) with (n_Z 10).
  rewrite !n_rem_nat_Z by lia. split; [|split].
  - destruct devicePrefix; simpl; eauto.
  - do 3 eexists. split; [reflexivity|]. split; reflexivity.
  - reflexivity.
Qed.

(** Sensors [0 .. 50] have a positive vibration: [0.03 i <= 1.5 < pi / 2]. *)
Lemma sensor_of_real_small (devicePrefix : string) (i : nat) :
  (i <= 50)%nat -> real_sensor (sensor_of devicePrefix i).
Proof.
  intros Hi. destruct (sensor_of_real devicePrefix i) as (Hid & (t & h & p & Ht & Hh & Hp) & Hv).
  split; [exact Hid|]. exists t, h, p, (1 + INR (i mod 10) + cos (INR i * 0.03) * 2)%R.
  repeat split; try assumption.
  assert (Hc : 0 <= cos (INR i * 0.03)).
  { pose proof (pos_INR i). pose proof PI2_3_2. apply le_INR in Hi.
    rewrite (INR_IZR_INZ 50) in Hi. change (Z.of_nat 50) with 50%Z in Hi.
    apply cos_ge_0; lra. }
  pose proof (pos_INR (i mod 10)). lra.
Qed.

(** ** The generator of a run *)

Lemma rs_prng_risk_step (t h p v : num) (st : RiskState) (i : nat) :
  rs_prng (risk_step t h p v st i) = snd (draw (rs_prng st)).
Proof. unfold risk_step. now destruct (draw (rs_prng st)). Qed.

(** The loop draws exactly one value per round. *)
Lemma risk_loop_prng (t h p v : num) (st : RiskState) (i n : nat) :
  rs_prng (risk_loop t h p v st i n)
  = option_map (fun g => mkPRNG (lcg_iter n (seed g))) (rs_prng st).
Proof.
  revert st i. induction n as [|n IH]; intros st i; cbn [risk_loop].
  - now destruct (rs_prng st) as [[s]|].
  - rewrite IH, rs_prng_risk_step. destruct (rs_prng st) as [g|]; [|reflexivity].
    cbn [snd draw option_map rs_prng]. destruct (next g) as [q g'] eqn:E.
    injection E as _ <-. cbn [option_map snd seed]. unfold lcg_iter.
    now rewrite (Nat.iter_succ_r n).
Qed.

(** A sensor's contribution to the batch depends on its id only through
    the first character, which seeds its generator. *)
Lemma batch_step_prefix (c : ascii) (r1 r2 : string) (iterations : nat) (acc : BatchAcc) (i : nat) :
  batch_step iterations acc (sensor_of (String c r1) i)
  = batch_step iterations acc (sensor_of (String c r2) i).
Proof. reflexivity. Qed.

(** Hence two prefixes with the same first character give the same batch:
    ['sensor'] and every ['sensor-w<k>'] generate the same readings and
    the same random streams. *)
Lemma processBatch_prefix (c : ascii) (r1 r2 : string) (count iterations : nat) :
  processBatch (generateSensorData count (String c r1)) iterations
  = processBatch (generateSensorData count (String c r2)) iterations.
Proof.
  unfold processBatch, generateSensorData. rewrite !length_map.
  assert (H : forall l acc, fold_left (batch_step iterations) (map (sensor_of (String c r1)) l) acc
                          = fold_left (batch_step iterations) (map (sensor_of (String c r2)) l) acc).
  { induction l as [|i l IH]; intros acc; [reflexivity|].
    cbn [map fold_left]. rewrite (batch_step_prefix c r1 r2). apply IH. }
  now rewrite H.
Qed.

(** ** Theorems *)

(** C6: A vibration reading whose square root is [NaN] (a negative number,
    or [NaN]) makes the sensor's [riskScore] and [checksum] [NaN] after any
    positive number of iterations, whatever the other readings and the id:
    [Math.sqrt] feeds [NaN] into [stressCombination], and [NaN] is absorbing
    in [riskScore += ...]. *)
Theorem calculateSensorRisk_vibration_nan (deviceId : string) (t h p v : num) (iterations : nat) :
  sqrt_nan v -> (0 < iterations)%nat ->
  riskScore (calculateSensorRisk deviceId t h p v iterations) = NaN
  /\ checksum (calculateSensorRisk deviceId t h p v iterations) = NaN.
Proof.
  intros Hv Hit. unfold calculateSensorRisk. cbn [riskScore checksum].
  rewrite risk_loop_vibration_nan by assumption. split; reflexivity.
Qed.

(** Every generated set of more than 90 sensors contains sensor 90, whose
    vibration [1 + 0 + 2 cos(2.7)] is negative, so [processBatch] returns a
    [NaN] average risk and a [NaN] checksum. *)
Lemma processBatch_generated_nan (count : nat) (devicePrefix : string) (iterations : nat) :
  (90 < count)%nat -> (0 < iterations)%nat ->
  avgRisk (processBatch (generateSensorData count devicePrefix) iterations) = NaN
  /\ batch_checksum (processBatch (generateSensorData count devicePrefix) iterations) = NaN.
Proof.
  intros Hc Hit. destruct (sensor90_vibration devicePrefix) as (v & Hv & Hneg).
  apply (processBatch_nan_sensor _ (sensor_of devicePrefix 90)); [| |exact Hit].
  - apply in_map, in_seq. lia.
  - unfold sqrt_nan. rewrite Hv. now apply n_sqrt_neg.
Qed.



(** C22: Every sensor generated with a prefix that starts with ["s"] (the
    default ['sensor'] and the workers' ['sensor-w<k>']) seeds its
    generator with ['s'.charCodeAt(0) * 1000 = 115000], and a run of [n]
    rounds draws exactly [n] values: the generator ends at the [n]-th
    successor of 115000. All sensors thus share one random stream. *)
Theorem calculateSensorRisk_seed (rest : string) (i n : nat) (t h p v : num) :
  rs_prng (risk_loop t h p v
             (mkRiskState (sensor_prng (deviceId (sensor_of (String "s" rest) i))) (Fin 0) (Fin 0))
             0 n)
  = Some (mkPRNG (lcg_iter n 115000)).
Proof. rewrite risk_loop_prng. reflexivity. Qed.

(** ** Witnesses *)

Lemma calculateSensorRisk_vibration_nan_witness :
  sqrt_nan NaN /\ (0 < 1)%nat /\
  riskScore (calculateSensorRisk "sensor-0" (Fin 20) (Fin 50) (Fin 1000) NaN 1) = NaN
  /\ checksum (calculateSensorRisk "sensor-0" (Fin 20) (Fin 50) (Fin 1000) NaN 1) = NaN.
Proof.
  split; [reflexivity|]. split; [lia|].
  apply calculateSensorRisk_vibration_nan; [reflexivity|lia].
Defined.

End Risk.
