(* ===== verification/AlgoRun.v ===== *)
(** * The runs of [src/bench_algo_node.js]: [runSingle], the worker body
      and [runWorkers]

    - [runSingle(sensorCount, iterations)] (lines 115-132) generates the
      sensors with the prefix ['sensor'], runs [processBatch] and prints
      [sensors], [iterations], [avg_risk] ([+avgRisk.toFixed(6)]) and the
      checksum. [toFixed6] is [+x.toFixed(6)]: the nearest multiple of
      [10^-6], ties away from zero, for [|x| < 10^21].
    - The worker body (lines 178-191) generates [workerData.sensorCount]
      sensors with the prefix [sensor-w<workerId>] and posts
      [{ sensors, ms, avgRisk, checksum }] ([WorkerMsg], without [ms]).
    - [runWorkers(sensorCount, iterations, workers)] (lines 134-173) runs
      [runSingle] when [workers <= 1]; otherwise it fans the work out
      ([WorkerPool.fan_out]) and reduces the messages: the sum of the
      sensor counts, the mean of the average risks, and the checksums by
      [(t + r.checksum) % 1000000000].

    [JSON.stringify] prints a [NaN] field as [null]; the theorems show that
    the default single-threaded run prints [null] for [avg_risk] and
    [checksum], while a run whose workers have at most 51 sensors each
    prints numbers. Every worker simulates the same sensors
    [0 .. per - 1] as a single run over [per] sensors does (their ids start
    with ['s'], the only character the seed reads), so the split run's
    [avg_risk] is that single run's; with more workers than sensors the
    shards are empty and the average is [NaN]; a split run reports
    [ceil(W) * per] sensors. The bounds [W <= 2^53] and
    [sensorCount < 2^53] of the theorems keep the spawn loop finite and
    the double quotient exact. The printed line, with
    [ms] and [ops_per_sec], is in [Report]. *)

From Stdlib Require Import ZArith Reals Lra Lia List String Ascii QArith Qround Permutation.
From S2P Require Import Prelude Double JsNum Prng JsFloat SensorRisk WorkerPool.
Import ListNotations.

Local Open Scope R_scope.
Local Open Scope num_scope.

Module RiskRun.
Import Risk.

Definition DEFAULT_SENSORS : nat := 100.
Definition DEFAULT_ITERATIONS : nat := 50000.

(** [+x.toFixed(6)]. *)
Definition toFixed6 (x : num) : num := n_toFixed 6 x.

(** The printed summary: [workers] (absent for a single run), [sensors],
    [iterations], [avg_risk] and [checksum]. *)
Record AlgoOutput := mkAlgoOutput {
  out_workers : option workers_num;
  out_sensors : Z;
  out_iterations : nat;
  out_avg_risk : num;
  out_checksum : num
}.

Definition runSingle (sensorCount iterations : nat) : AlgoOutput :=
  let sensors := generateSensorData sensorCount DEFAULT_PREFIX in
  let result := processBatch sensors iterations in
  mkAlgoOutput None (Z.of_nat sensorCount) iterations (toFixed6 (avgRisk result))
               (batch_checksum result).

(** The message a worker posts, without [ms]. *)
Record WorkerMsg := mkWorkerMsg { wm_sensors : Z; wm_avgRisk : num; wm_checksum : num }.

(** The worker body, lines 178-191. *)
Definition worker_main (sensorCount : Z) (iterations workerId : nat) : WorkerMsg :=
  let sensors := generateSensorData (Z.to_nat sensorCount)
                   ("sensor-w" ++ int_to_string (Z.of_nat workerId)) in
  let result := processBatch sensors iterations in
  mkWorkerMsg sensorCount (avgRisk result) (batch_checksum result).

(** [results.reduce((t, r) => (t + r.checksum) % 1000000000, 0)]. *)
Definition merge_checksums (results : list WorkerMsg) : num :=
  fold_left (fun t r => n_rem (t + wm_checksum r) (Fin 1000000000)) results (Fin 0).

(** [None] when the spawn loop does not end. *)
Definition runWorkers (sensorCount iterations : nat) (workers : workers_num) : option AlgoOutput :=
  if workers_le1 workers then Some (runSingle sensorCount iterations)
  else
    match fan_out workers (Z.of_nat sensorCount) (fun w per => worker_main per iterations w) with
    | None => None
    | Some results =>
        let totalSensors := sumZ (map wm_sensors results) in
        let avg := fold_left (fun t r => t + wm_avgRisk r) results (Fin 0)
                   / n_nat (List.length results) in
        Some (mkAlgoOutput (Some workers) totalSensors iterations (toFixed6 avg)
                           (merge_checksums results))
    end.

(** The main thread: [runWorkers(100, 50000)] with the worker count
    [+process.env.WORKERS || 1]. *)
Definition main_thread (env : env_number) : option AlgoOutput :=
  runWorkers DEFAULT_SENSORS DEFAULT_ITERATIONS (or_one env).

(** ** Lemmas *)

#[export] Instance WorkerMsg_report : ShardReport WorkerMsg := wm_sensors.

(** A risk worker posts the [sensorCount] it was given. *)
#[export] Instance worker_main_honest (iterations : nat) :
  HonestShard (fun w per => worker_main per iterations w).
Proof. intros w per. reflexivity. Qed.

Lemma toFixed6_fin (r : R) : exists r', toFixed6 (Fin r) = Fin r'.
Proof. apply n_toFixed_fin. Qed.

(** The coordinator's checksum fold on integral checksums is the fold of
    [Z.rem]. *)
Lemma merge_checksums_Z (results : list WorkerMsg) (cs : list Z) :
  map wm_checksum results = map n_Z cs ->
  merge_checksums results
  = n_Z (fold_left (fun t c => Z.rem (t + c) 1000000000) cs 0)%Z.
Proof.
  unfold merge_checksums. change (Fin 0) with (n_Z 0). generalize 0%Z.
  revert cs. induction results as [|r rs IH]; intros [|c cs] z E; cbn [map] in E;
    try discriminate; [reflexivity|].
  injection E as Hc E. cbn [fold_left]. rewrite Hc, n_add_Z.
  change (Fin 1000000000) with (n_Z 1000000000). rewrite n_rem_Z by lia. now apply IH.
Qed.

(** On checksums in [0, 10^9) the fold is the sum modulo [10^9]. *)
Lemma fold_rem_nonneg (cs : list Z) (t : Z) :
  (0 <= t < 1000000000)%Z -> Forall (fun c => 0 <= c < 1000000000)%Z cs ->
  (fold_left (fun t c => Z.rem (t + c) 1000000000) cs t = (t + sumZ cs) mod 1000000000)%Z.
Proof.
  intros Ht Hcs. rewrite <- fold_add_mod_small by exact Ht.
  revert t Ht. induction Hcs as [|c cs Hc _ IH]; intros t Ht; [reflexivity|]. cbn [fold_left].
  rewrite Z.rem_mod_nonneg by lia. apply IH. apply Z.mod_pos_bound. lia.
Qed.

(** Every risk worker generates the sensors [0 .. sensorCount - 1] of the
    single-threaded run: its prefix ['sensor-w<k>'] starts with ['s'] as
    ['sensor'] does, so its message is the single run's batch result. *)
Lemma worker_main_prefix (sensorCount : Z) (iterations workerId : nat) :
  worker_main sensorCount iterations workerId
  = let result := processBatch (generateSensorData (Z.to_nat sensorCount) DEFAULT_PREFIX)
                               iterations in
    mkWorkerMsg sensorCount (avgRisk result) (batch_checksum result).
Proof.
  unfold worker_main, DEFAULT_PREFIX. cbn [append].
  now rewrite (processBatch_prefix "s"%char _ "ensor").
Qed.

(** The risk main thread ends for every worker count but [+Infinity] and
    the counts above [2^53], where the spawn loop never exits. *)
Lemma main_thread_some (env : env_number) :
  spawn_ends (or_one env) = true -> exists o, main_thread env = Some o.
Proof.
  intros Henv. unfold main_thread, runWorkers.
  destruct (workers_le1 (or_one env)) eqn:Hle; [eexists; reflexivity|].
  destruct (or_one_gt1 env Henv Hle) as (q & -> & _ & Hmax). rewrite fan_out_seq by exact Hmax.
  eexists; reflexivity.
Qed.

(** ** Theorems *)

(** C5: The default single-threaded run, and every run over more than 90
    sensors, prints [null] for [avg_risk] and for [checksum]: sensor 90's
    vibration reading [1 + 0 + 2 cos(2.7)] is negative, [Math.sqrt] of it
    is [NaN], and [NaN] reaches the average and the checksum. *)
Theorem runSingle_generated_nan (sensorCount iterations : nat) :
  (90 < sensorCount)%nat -> (0 < iterations)%nat ->
  out_avg_risk (runSingle sensorCount iterations) = NaN
  /\ out_checksum (runSingle sensorCount iterations) = NaN.
Proof.
  intros Hc Hit. unfold runSingle. cbn [out_avg_risk out_checksum].
  destruct (processBatch_generated_nan sensorCount DEFAULT_PREFIX iterations Hc Hit) as [-> ->].
  split; reflexivity.
Qed.

(** C7: With an integral worker count [W >= 2] and shards of 1 to 51
    sensors ([1 <= sensorCount / W <= 51]), every worker's sensors have a
    positive vibration, and the run prints a real [avg_risk] and an
    integral checksum: the default benchmark over 100 sensors prints
    numbers with [WORKERS=4] and [null] single-threaded. *)
Theorem runWorkers_small_shards_real (sensorCount iterations : nat) (w : Z) :
  (2 <= w <= MAX_SAFE)%Z -> (Z.of_nat sensorCount < MAX_SAFE)%Z ->
  (1 <= Z.of_nat sensorCount / w <= 51)%Z -> (0 < iterations)%nat ->
  exists o, runWorkers sensorCount iterations (WNum (inject_Z w)) = Some o
            /\ (exists a, out_avg_risk o = Fin a) /\ (exists z, out_checksum o = n_Z z).
Proof.
  intros Hw Hs Hper Hit. unfold runWorkers. cbn [workers_le1].
  destruct (Qle_bool (inject_Z w) 1) eqn:E.
  { apply Qle_bool_iff in E. exfalso. exact (Qlt_not_le _ _ (one_lt_inject_Z w (proj1 Hw)) E). }
  rewrite fan_out_seq, Qceiling_inject_Z, per_worker_int by (rewrite ?Qceiling_inject_Z; lia).
  eexists. split; [reflexivity|].
  set (per := (Z.of_nat sensorCount / w)%Z) in *.
  assert (Hwk : forall k, (exists a, wm_avgRisk (worker_main per iterations k) = Fin a)
                          /\ (exists z, wm_checksum (worker_main per iterations k) = n_Z z)).
  { intros k. unfold worker_main. cbn [wm_avgRisk wm_checksum]. apply processBatch_real.
    - apply Forall_map, Forall_forall. intros i Hi. apply in_seq in Hi.
      apply sensor_of_real_small. lia.
    - unfold generateSensorData. destruct (Z.to_nat per) eqn:Ep; [lia|discriminate].
    - exact Hit. }
  cbn [out_avg_risk out_checksum]. split.
  - set (ws := seq 0 (Z.to_nat w)).
    assert (Hsum : forall l t, (exists r, t = Fin r) ->
              exists r, fold_left (fun t r => t + wm_avgRisk r)
                          (map (fun k => worker_main per iterations k) l) t = Fin r).
    { induction l as [|k l IH]; intros t [r ->]; [eexists; reflexivity|]. cbn [map fold_left].
      destruct (proj1 (Hwk k)) as [a ->]. apply IH. eexists. reflexivity. }
    destruct (Hsum ws (Fin 0) ltac:(eexists; reflexivity)) as [r ->].
    unfold n_nat. rewrite n_div_fin.
    + apply toFixed6_fin.
    + apply not_0_INR. unfold ws. rewrite length_map, length_seq. lia.
  - set (cs := map (fun k => match wm_checksum (worker_main per iterations k) with
                             | Fin r => Int_part r | _ => 0%Z end) (seq 0 (Z.to_nat w))).
    exists (fold_left (fun t c => Z.rem (t + c) 1000000000) cs 0)%Z.
    apply merge_checksums_Z. unfold cs. rewrite !map_map. apply map_ext. intros k.
    destruct (proj2 (Hwk k)) as [z ->]. unfold n_Z. now rewrite Int_part_IZR.
Qed.

(** C8: The risk workers do not split the sensors: with an integral
    worker count [W >= 2], each of the [W] workers simulates the same
    sensors [0 .. per - 1] ([per = floor(sensorCount / W)]) with the same
    random stream, so the run prints [W * per] sensors, the [avg_risk] of
    the single-threaded run over [per] sensors, and the checksum of that
    run folded [W] times by [(t + c) % 1000000000]. *)
Theorem runWorkers_same_shards (sensorCount iterations : nat) (w : Z) :
  (2 <= w <= MAX_SAFE)%Z -> (Z.of_nat sensorCount < MAX_SAFE)%Z ->
  runWorkers sensorCount iterations (WNum (inject_Z w))
  = Some (mkAlgoOutput (Some (WNum (inject_Z w))) (w * (Z.of_nat sensorCount / w))%Z iterations
       (out_avg_risk (runSingle (Z.to_nat (Z.of_nat sensorCount / w)) iterations))
       (fold_left (fun t _ => n_rem (t + out_checksum
                                   (runSingle (Z.to_nat (Z.of_nat sensorCount / w)) iterations))
                                  (Fin 1000000000))
                  (seq 0 (Z.to_nat w)) (Fin 0))).
Proof.
  intros Hw Hs. unfold runWorkers. cbn [workers_le1].
  destruct (Qle_bool (inject_Z w) 1) eqn:E.
  { apply Qle_bool_iff in E. exfalso. exact (Qlt_not_le _ _ (one_lt_inject_Z w (proj1 Hw)) E). }
  rewrite fan_out_seq, Qceiling_inject_Z, per_worker_int by (rewrite ?Qceiling_inject_Z; lia).
  set (per := (Z.of_nat sensorCount / w)%Z).
  setoid_rewrite worker_main_prefix. unfold runSingle, merge_checksums. cbv zeta.
  cbn [out_avg_risk out_checksum wm_sensors wm_checksum].
  rewrite !map_map, sumZ_map_const, length_seq, Z2Nat.id by lia. cbn [wm_sensors].
  rewrite (n_mean_const wm_avgRisk (avgRisk (processBatch
             (generateSensorData (Z.to_nat per) DEFAULT_PREFIX) iterations))).
  - rewrite fold_left_map_l. reflexivity.
  - rewrite <- length_zero_iff_nil, length_map, length_seq. lia.
  - apply Forall_map, Forall_forall. reflexivity.
Qed.

(** C27: With more workers than sensors ([2 <= W], [sensorCount < W]),
    [Math.floor(sensorCount / W)] is 0: every worker simulates an empty
    batch, whose average [0 / 0] is [NaN], so the run reports 0 sensors
    and a [NaN] (printed [null]) average risk. *)
Theorem runWorkers_empty_shards (sensorCount iterations : nat) (w : Z) :
  (2 <= w <= MAX_SAFE)%Z -> (Z.of_nat sensorCount < w)%Z ->
  exists o, runWorkers sensorCount iterations (WNum (inject_Z w)) = Some o
            /\ out_sensors o = 0%Z /\ out_avg_risk o = NaN.
Proof.
  intros Hw Hlt. unfold runWorkers. cbn [workers_le1].
  destruct (Qle_bool (inject_Z w) 1) eqn:E.
  { apply Qle_bool_iff in E. exfalso. exact (Qlt_not_le _ _ (one_lt_inject_Z w (proj1 Hw)) E). }
  rewrite fan_out_seq, Qceiling_inject_Z, per_worker_int by (rewrite ?Qceiling_inject_Z; lia).
  replace (Z.of_nat sensorCount / w)%Z with 0%Z by (symmetry; apply Z.div_small; lia).
  eexists. split; [reflexivity|]. cbn [out_sensors out_avg_risk]. split.
  - rewrite map_map. cbn [wm_sensors worker_main]. rewrite sumZ_map_const. lia.
  - unfold toFixed6.
    rewrite (n_mean_const wm_avgRisk NaN); [reflexivity| |].
    + rewrite <- length_zero_iff_nil, length_map, length_seq. lia.
    + apply Forall_map, Forall_forall. intros k _. unfold worker_main. cbn.
      apply n_div_zero_zero.
Qed.

(** C17: With a worker count [W] in [(1, 2^53]], the risk benchmark
    reports [ceil(W) * per] sensors, [per] the floor of the double
    quotient [sensorCount / W]: with [WORKERS=1.5] the default run
    simulates 132 sensors for the 100 requested. *)
Theorem runWorkers_sensors (sensorCount iterations : nat) (workers : Q) :
  (1 < workers)%Q -> (Qceiling workers <= MAX_SAFE)%Z ->
  option_map out_sensors (runWorkers sensorCount iterations (WNum workers))
  = Some (Z.of_nat (Z.to_nat (Qceiling workers))
          * per_worker (Z.of_nat sensorCount) (WNum workers))%Z.
Proof.
  intros Hw Hmax. unfold runWorkers. cbn [workers_le1].
  destruct (Qle_bool workers 1) eqn:E.
  { apply Qle_bool_iff in E. exfalso. exact (Qlt_not_le _ _ Hw E). }
  destruct (fan_out _ _ _) as [results|] eqn:F; [|now rewrite fan_out_seq in F].
  cbn [option_map out_sensors]. f_equal.
  exact (fan_out_units (fun w per => worker_main per iterations w) workers _ _ Hmax F).
Qed.

(** C26: On worker checksums in [0, 10^9), the coordinator's reduction
    [(t + r.checksum) % 1000000000] does not depend on the order of the
    results. *)
Theorem merge_checksums_rem_perm (rs1 rs2 : list WorkerMsg) (cs1 cs2 : list Z) :
  map wm_checksum rs1 = map n_Z cs1 -> map wm_checksum rs2 = map n_Z cs2 ->
  Forall (fun c => 0 <= c < 1000000000)%Z cs1 -> Permutation cs1 cs2 ->
  merge_checksums rs1 = merge_checksums rs2.
Proof.
  intros H1 H2 Hcs HP. rewrite (merge_checksums_Z _ _ H1), (merge_checksums_Z _ _ H2).
  assert (Hcs2 : Forall (fun c => 0 <= c < 1000000000)%Z cs2)
    by (eapply Permutation_Forall; eassumption).
  rewrite !fold_rem_nonneg by (lia || assumption).
  now rewrite (sumZ_perm _ _ HP).
Qed.

(** ** Witnesses *)

Lemma runSingle_generated_nan_witness :
  (90 < DEFAULT_SENSORS)%nat /\ (0 < DEFAULT_ITERATIONS)%nat /\
  out_avg_risk (runSingle DEFAULT_SENSORS DEFAULT_ITERATIONS) = NaN
  /\ out_checksum (runSingle DEFAULT_SENSORS DEFAULT_ITERATIONS) = NaN.
Proof.
  assert (H : (0 < DEFAULT_ITERATIONS)%nat) by (apply Nat.ltb_lt; reflexivity).
  split; [unfold DEFAULT_SENSORS; lia|]. split; [exact H|].
  apply runSingle_generated_nan; [unfold DEFAULT_SENSORS; lia|exact H].
Defined.

Lemma runWorkers_small_shards_real_witness :
  (2 <= 4 <= MAX_SAFE)%Z /\ (Z.of_nat DEFAULT_SENSORS < MAX_SAFE)%Z /\
  (1 <= Z.of_nat DEFAULT_SENSORS / 4 <= 51)%Z /\ (0 < DEFAULT_ITERATIONS)%nat /\
  exists o, runWorkers DEFAULT_SENSORS DEFAULT_ITERATIONS (WNum (inject_Z 4)) = Some o
            /\ (exists a, out_avg_risk o = Fin a) /\ (exists z, out_checksum o = n_Z z).
Proof.
  assert (H : (0 < DEFAULT_ITERATIONS)%nat) by (apply Nat.ltb_lt; reflexivity).
  assert (Hp : (1 <= Z.of_nat DEFAULT_SENSORS / 4 <= 51)%Z) by (vm_compute; split; discriminate).
  assert (Hw : (2 <= 4 <= MAX_SAFE)%Z) by (split; vm_compute; discriminate).
  assert (Hs : (Z.of_nat DEFAULT_SENSORS < MAX_SAFE)%Z) by (vm_compute; reflexivity).
  split; [exact Hw|]. split; [exact Hs|]. split; [exact Hp|]. split; [exact H|].
  apply runWorkers_small_shards_real; [exact Hw|exact Hs|exact Hp|exact H].
Defined.

Lemma runWorkers_sensors_witness :
  (1 < 3 # 2)%Q /\ (Qceiling (3 # 2) <= MAX_SAFE)%Z /\
  option_map out_sensors (main_thread (ENum (3 # 2))) = Some 132%Z.
Proof.
  split; [reflexivity|]. split; [vm_compute; discriminate|]. unfold main_thread. change (or_one (ENum (3 # 2))) with (WNum (3 # 2)).
  rewrite runWorkers_sensors by (reflexivity || (vm_compute; discriminate)). reflexivity.
Defined.

Lemma merge_checksums_rem_perm_witness :
  map wm_checksum [mkWorkerMsg 1 (Fin 0) (n_Z 7); mkWorkerMsg 1 (Fin 0) (n_Z 999999999)]
    = map n_Z [7%Z; 999999999%Z]
  /\ map wm_checksum [mkWorkerMsg 1 (Fin 0) (n_Z 999999999); mkWorkerMsg 1 (Fin 0) (n_Z 7)]
    = map n_Z [999999999%Z; 7%Z]
  /\ Forall (fun c => 0 <= c < 1000000000)%Z [7%Z; 999999999%Z]
  /\ Permutation [7%Z; 999999999%Z] [999999999%Z; 7%Z]
  /\ merge_checksums [mkWorkerMsg 1 (Fin 0) (n_Z 7); mkWorkerMsg 1 (Fin 0) (n_Z 999999999)]
     = merge_checksums [mkWorkerMsg 1 (Fin 0) (n_Z 999999999); mkWorkerMsg 1 (Fin 0) (n_Z 7)].
Proof.
  assert (HF : Forall (fun c => 0 <= c < 1000000000)%Z [7%Z; 999999999%Z])
    by (repeat constructor; lia).
  split; [reflexivity|]. split; [reflexivity|]. split; [exact HF|]. split; [apply perm_swap|].
  apply (merge_checksums_rem_perm _ _ [7%Z; 999999999%Z] [999999999%Z; 7%Z]);
    [reflexivity|reflexivity|exact HF|apply perm_swap].
Defined.

Lemma runWorkers_same_shards_witness :
  (2 <= 4 <= MAX_SAFE)%Z /\ (Z.of_nat DEFAULT_SENSORS < MAX_SAFE)%Z /\
  runWorkers DEFAULT_SENSORS DEFAULT_ITERATIONS (WNum (inject_Z 4))
  = Some (mkAlgoOutput (Some (WNum (inject_Z 4))) (4 * (Z.of_nat DEFAULT_SENSORS / 4))%Z
       DEFAULT_ITERATIONS
       (out_avg_risk (runSingle (Z.to_nat (Z.of_nat DEFAULT_SENSORS / 4)) DEFAULT_ITERATIONS))
       (fold_left (fun t _ => n_rem (t + out_checksum
                                   (runSingle (Z.to_nat (Z.of_nat DEFAULT_SENSORS / 4))
                                              DEFAULT_ITERATIONS))
                                  (Fin 1000000000))
                  (seq 0 (Z.to_nat 4)) (Fin 0))).
Proof.
  assert (Hw : (2 <= 4 <= MAX_SAFE)%Z) by (split; vm_compute; discriminate).
  assert (Hs : (Z.of_nat DEFAULT_SENSORS < MAX_SAFE)%Z) by (vm_compute; reflexivity).
  split; [exact Hw|]. split; [exact Hs|]. exact (runWorkers_same_shards _ _ 4 Hw Hs).
Defined.

Lemma runWorkers_empty_shards_witness :
  (2 <= 128 <= MAX_SAFE)%Z /\ (Z.of_nat DEFAULT_SENSORS < 128)%Z /\
  exists o, runWorkers DEFAULT_SENSORS DEFAULT_ITERATIONS (WNum (inject_Z 128)) = Some o
            /\ out_sensors o = 0%Z /\ out_avg_risk o = NaN.
Proof.
  assert (H : (Z.of_nat DEFAULT_SENSORS < 128)%Z) by (unfold DEFAULT_SENSORS; lia).
  assert (Hw : (2 <= 128 <= MAX_SAFE)%Z) by (split; vm_compute; discriminate).
  split; [exact Hw|]. split; [exact H|]. apply runWorkers_empty_shards; [exact Hw|exact H].
Defined.

End RiskRun.
