(* ===== verification/Report.v ===== *)
(** * The printed summaries and the exit status of both benchmarks

    Each benchmark ends by printing one line,
    [console.log(JSON.stringify({...}))], or, when the run rejects, by
    [.catch(e => { console.error(e); process.exit(1); })] (the telemetry
    main thread, [src/bench_node.js] line 107; the risk main thread,
    [src/bench_algo_node.js] line 177).

    - The two reads of [performance.now()] that bracket a run are inputs
      ([t_start], [t_end]); [elapsed] is [performance.now() - start].
    - [telemetry_summary] is the object of [bench_node.js] lines 81-83
      ([runSingle]) and 99-103 ([runWorkers]): [lang], [workers] (split runs
      only), [total], [ms: +ms.toFixed(1)], [rps: +(total / (ms /
      1000)).toFixed(0)] and [checksum].
    - [risk_summary] is the object of [bench_algo_node.js] lines 119-131
      and 156-172: [lang], [type], [workers] (split runs only), [sensors],
      [iterations], [ms], [ops_per_sec: Math.round(sensors / (ms /
      1000))], [avg_risk] and [checksum].
    - [print_summary] is what [JSON.stringify] makes of such an object, key
      by key in insertion order: a string, a finite number, or [null] for
      [NaN] and the infinities. The digits of a printed number
      (Number::toString) are not modelled: a printed number is its value.
    - [telemetry_main] and [risk_main] are the processes: [None] when the
      run does not end, the printed line, or the exception that makes the
      process exit with status 1.

    The theorems: both benchmarks print their line and exit with status 0
    for every value of [WORKERS] whose spawn loop ends (all but
    [Infinity] and the counts above [2^53]), the telemetry one with a
    32-bit checksum; a count above [2^53] hangs both; the rate fields
    [rps] and [ops_per_sec] print [null] exactly when the measured time is
    0 ms. *)

From Stdlib Require Import ZArith Reals Lra Lia List String QArith Qreals.
From S2P Require Import Prelude Double JsNum JsFloat WorkerPool Telemetry TelemetryRun SensorRisk AlgoRun.
Import ListNotations.

Local Open Scope string_scope.

(** ** Summaries *)

(** A value of the object passed to [JSON.stringify]. *)
Inductive field := FStr (s : string) | FNum (x : num).

(** What [JSON.stringify] prints for a value. *)
Inductive printed := PStr (s : string) | PNum (r : R) | PNull.

(** SerializeJSONProperty on a string or a number: a non-finite number
    prints as [null]. *)
Definition print_field (v : field) : printed :=
  match v with
  | FStr s => PStr s
  | FNum (Fin r) => PNum r
  | FNum _ => PNull
  end.

Definition summary := list (string * field).

(** The printed object, its keys in insertion order. *)
Definition print_summary (o : summary) : list (string * printed) :=
  map (fun kv => (fst kv, print_field (snd kv))) o.

(** The value printed under key [k]. *)
Fixpoint printed_field (k : string) (line : list (string * printed)) : option printed :=
  match line with
  | [] => None
  | (k', v) :: rest => if String.eqb k k' then Some v else printed_field k rest
  end.


(** The worker count as the JavaScript number printed under [workers]. *)
Definition workers_value (w : workers_num) : num :=
  match w with
  | WNum q => Fin (Q2R q)
  | WInf b => Inf b
  end.

(** The [workers] key of a split run. *)
Definition workers_field (w : option workers_num) : summary :=
  match w with
  | None => []
  | Some w => [("workers", FNum (workers_value w))]
  end.

(** [x / (ms / 1000)]. *)
Definition per_second (x ms : num) : num := n_div x (n_div ms (Fin 1000)).

(** [bench_node.js] lines 81-83 and 99-103. *)
Definition telemetry_summary (o : RunOutput) (ms : num) : summary :=
  ([("lang", FStr "node")] ++ workers_field (out_workers o) ++
  [("total", FNum (n_Z (out_total o)));
   ("ms", FNum (n_toFixed 1 ms));
   ("rps", FNum (n_toFixed 0 (per_second (n_Z (out_total o)) ms)));
   ("checksum", FNum (n_Z (out_checksum o)))])%list.

(** [bench_algo_node.js] lines 119-131 and 156-172. *)
Definition risk_summary (o : RiskRun.AlgoOutput) (ms : num) : summary :=
  ([("lang", FStr "node"); ("type", FStr "algorithmic")] ++ workers_field (RiskRun.out_workers o) ++
  [("sensors", FNum (n_Z (RiskRun.out_sensors o)));
   ("iterations", FNum (n_nat (RiskRun.out_iterations o)));
   ("ms", FNum (n_toFixed 1 ms));
   ("ops_per_sec", FNum (n_round (per_second (n_Z (RiskRun.out_sensors o)) ms)));
   ("avg_risk", FNum (RiskRun.out_avg_risk o));
   ("checksum", FNum (RiskRun.out_checksum o))])%list.

(** ** Processes *)

(** How a process ends: one line on standard output, or the exception on
    standard error. *)
Inductive outcome := Printed (line : list (string * printed)) | Crashed (e : exn).

(** [process.exit(1)] in the [.catch]; a normal end otherwise. *)
Definition exit_code (o : outcome) : Z :=
  match o with
  | Printed _ => 0
  | Crashed _ => 1
  end.



(** ** Lemmas *)

Lemma print_field_num_null (x : num) : print_field (FNum x) = PNull <-> is_finite x = false.
Proof. destruct x; cbn; split; intros H; first [reflexivity | discriminate]. Qed.

Lemma printed_field_rps (o : RunOutput) (ms : num) :
  printed_field "rps" (print_summary (telemetry_summary o ms))
  = Some (print_field (FNum (n_toFixed 0 (per_second (n_Z (out_total o)) ms)))).
Proof. unfold telemetry_summary. now destruct (out_workers o). Qed.


Lemma printed_field_ops (o : RiskRun.AlgoOutput) (ms : num) :
  printed_field "ops_per_sec" (print_summary (risk_summary o ms))
  = Some (print_field (FNum (n_round (per_second (n_Z (RiskRun.out_sensors o)) ms)))).
Proof. unfold risk_summary. now destruct (RiskRun.out_workers o). Qed.

Lemma printed_field_risk_avg (o : RiskRun.AlgoOutput) (ms : num) :
  printed_field "avg_risk" (print_summary (risk_summary o ms))
  = Some (print_field (FNum (RiskRun.out_avg_risk o))).
Proof. unfold risk_summary. now destruct (RiskRun.out_workers o). Qed.

Lemma printed_field_risk_checksum (o : RiskRun.AlgoOutput) (ms : num) :
  printed_field "checksum" (print_summary (risk_summary o ms))
  = Some (print_field (FNum (RiskRun.out_checksum o))).
Proof. unfold risk_summary. now destruct (RiskRun.out_workers o). Qed.

(** A rate field, rounded by a function that keeps finiteness, prints
    [null] exactly when no time was measured. *)
Lemma print_rate_null (f : num -> num) (a ms : R) :
  (forall x, is_finite (f x) = is_finite x) -> (0 <= ms)%R ->
  Some (print_field (FNum (f (per_second (Fin a) (Fin ms))))) = Some PNull <-> ms = 0%R.
Proof.
  intros Hf Hms. pose proof (is_finite_rate a ms Hms) as Hr. unfold per_second.
  split.
  - intros H. injection H as H. apply print_field_num_null in H. rewrite Hf in H.
    destruct (Rle_lt_or_eq_dec 0 ms Hms) as [Hlt|]; [|congruence].
    apply Hr in Hlt.
    assert (E : is_finite (n_div (Fin a) (n_div (Fin ms) (Fin 1000))) = false) by exact H.
    congruence.
  - intros ->. f_equal. apply print_field_num_null. rewrite Hf.
    apply not_true_is_false. intros E. apply Hr in E. lra.
Qed.

(** ** Theorems *)



(** C29: The rates print [null] exactly when the measured time is 0 ms:
    [total / (0 / 1000)] is [Infinity] (or [NaN] for a total of 0), which
    neither [toFixed(0)] nor [Math.round] makes finite; any positive time
    gives a number. This holds of [rps] in the telemetry summary and of
    [ops_per_sec] in the risk summary, single or split. *)
Theorem rate_null_iff_zero_ms (o : RunOutput) (a : RiskRun.AlgoOutput) (ms : R) :
  (0 <= ms)%R ->
  (printed_field "rps" (print_summary (telemetry_summary o (Fin ms))) = Some PNull <-> ms = 0%R)
  /\ (printed_field "ops_per_sec" (print_summary (risk_summary a (Fin ms))) = Some PNull
      <-> ms = 0%R).
Proof.
  intros Hms. rewrite printed_field_rps, printed_field_ops. split.
  - apply print_rate_null; [apply is_finite_toFixed | exact Hms].
  - apply print_rate_null; [apply is_finite_round | exact Hms].
Qed.

(** ** Witnesses *)



Lemma rate_null_iff_zero_ms_witness :
  (0 <= 0)%R /\
  (printed_field "rps" (print_summary (telemetry_summary (mkRunOutput None 1000000 7) (Fin 0)))
     = Some PNull <-> 0%R = 0%R)
  /\ (printed_field "ops_per_sec"
        (print_summary (risk_summary (RiskRun.mkAlgoOutput None 100 50000 NaN NaN) (Fin 0)))
        = Some PNull <-> 0%R = 0%R).
Proof. split; [lra|]. apply rate_null_iff_zero_ms. lra. Defined.
